(** * Emails: the scraping campaign scripts, embedded and verified

    The repository holds three variants of one scraping script:
    - [aslocation.py]: one work item per location, a bounded attempt loop;
    - [keyword001.py]: location x keyword x region, no attempt loop;
    - [loc.py]: keyword x city, with a visit of up to five result links.

    Each variant is embedded below in a module of its own, with the
    functions under the names the source gives them.  Python text ([str])
    is modelled by [string], read as a sequence of code points below 256.
    The browser, the file system and the clock are the environment: their
    answers come from an oracle ([World]), and what the script does to them
    is recorded in a trace of events. *)

From Stdlib Require Import List String Ascii Bool Arith Lia DecimalString.
Import ListNotations.
Local Open Scope list_scope.
Local Open Scope string_scope.

(** ** Python text *)

Module Py.

Definition in_range (lo hi c : ascii) : bool :=
  (Ascii.leb lo c && Ascii.leb c hi)%bool.

(** [str.isspace] on one character, for code points below 256. *)
Definition isspace (c : ascii) : bool :=
  let n := nat_of_ascii c in
  (((9 <=? n) && (n <=? 13)) || ((28 <=? n) && (n <=? 32))
   || (n =? 133) || (n =? 160))%nat.

Fixpoint lstrip (s : string) : string :=
  match s with
  | String c s' => if isspace c then lstrip s' else s
  | EmptyString => EmptyString
  end.

(** Drops the trailing white space: a character is kept when something
    that is not white space follows it, or when it is not white space. *)
Fixpoint rstrip (s : string) : string :=
  match s with
  | String c s' =>
      match rstrip s' with
      | EmptyString => if isspace c then EmptyString else String c EmptyString
      | r => String c r
      end
  | EmptyString => EmptyString
  end.

(** [s.strip()] *)
Definition strip (s : string) : string := rstrip (lstrip s).

(** [c in s] for a one-character [c]. *)
Fixpoint contains_char (c : ascii) (s : string) : bool :=
  match s with
  | String b s' => Ascii.eqb b c || contains_char c s'
  | EmptyString => false
  end.

(** [s.split(sep)] for a one-character separator. *)
Fixpoint split (sep : ascii) (s : string) : list string :=
  match s with
  | EmptyString => [EmptyString]
  | String c s' =>
      if Ascii.eqb c sep then EmptyString :: split sep s'
      else match split sep s' with
           | p :: ps => String c p :: ps
           | [] => [String c EmptyString]
           end
  end.

(** [sub in s]: substring test. *)
Fixpoint contains (sub s : string) : bool :=
  String.prefix sub s
  || match s with
     | String _ s' => contains sub s'
     | EmptyString => false
     end.

(** [x in xs] for a list of strings. *)
Definition mem (x : string) (xs : list string) : bool :=
  existsb (String.eqb x) xs.

(** [set(xs)], kept as a list without repetition (the order a Python set
    iterates in is not specified; every use below sorts or counts). *)
Fixpoint set_of (xs : list string) : list string :=
  match xs with
  | [] => []
  | x :: xs' => let r := set_of xs' in if mem x r then r else x :: r
  end.

(** [a.update(b)] on sets. *)
Definition set_update (a b : list string) : list string :=
  (a ++ filter (fun x => negb (mem x a)) b)%list.

Fixpoint insert_sorted (x : string) (xs : list string) : list string :=
  match xs with
  | [] => [x]
  | y :: ys => if String.leb x y then x :: xs else y :: insert_sorted x ys
  end.

(** [sorted(xs)] *)
Definition sorted (xs : list string) : list string :=
  fold_right insert_sorted [] xs.

End Py.

(** ** Regular expressions, as [re] matches them

    A backtracking matcher in continuation-passing style, for the
    constructs the three address patterns use: literals, character sets
    under a greedy repetition, concatenation, alternation, one capturing
    group and the negative lookahead. *)

Module Re.

Inductive item : Type :=
| Chr (c : ascii)
| Rng (lo hi : ascii).

Inductive regex : Type :=
| Eps
| Lit (c : ascii)
| Cat (r1 r2 : regex)
| Alt (r1 r2 : regex)
| Rep (min : nat) (cls : list item)   (* [..]+ is Rep 1, [..]{2,} is Rep 2 *)
| Group (r : regex)                   (* ( .. ) *)
| NegLook (r : regex).                (* (?! .. ) *)

(** The other case of an ASCII letter; every literal and range of the
    patterns below is ASCII, for which this is all [re.IGNORECASE] adds
    on code points below 256. *)
Definition swapcase (c : ascii) : ascii :=
  if Py.in_range "A" "Z" c then ascii_of_nat (nat_of_ascii c + 32)
  else if Py.in_range "a" "z" c then ascii_of_nat (nat_of_ascii c - 32)
  else c.

Definition item_has (c : ascii) (i : item) : bool :=
  match i with
  | Chr a => Ascii.eqb a c
  | Rng lo hi => Py.in_range lo hi c
  end.

Definition cls_match (ic : bool) (cls : list item) (c : ascii) : bool :=
  existsb (item_has c) cls || (ic && existsb (item_has (swapcase c)) cls).

Definition lit_match (ic : bool) (a c : ascii) : bool :=
  Ascii.eqb a c || (ic && Ascii.eqb a (swapcase c)).

(** The group's text, when it took part in the match. *)
Definition capture := option string.

Definition consumed (s rest : string) : string :=
  substring 0 (String.length s - String.length rest) s.

(** Greedy repetition of a character set: the longest run first, then
    shorter ones as the continuation refuses. *)
Fixpoint rep {R : Type} (ic : bool) (cls : list item) (min : nat)
    (s : string) (k : string -> option R) : option R :=
  let stop := if (min =? 0)%nat then k s else None in
  match s with
  | String c s' =>
      if cls_match ic cls c then
        match rep ic cls (pred min) s' k with
        | Some x => Some x
        | None => stop
        end
      else stop
  | EmptyString => stop
  end.

Fixpoint run {R : Type} (ic : bool) (r : regex) (s : string) (g : capture)
    (k : string -> capture -> option R) : option R :=
  match r with
  | Eps => k s g
  | Lit a =>
      match s with
      | String c s' => if lit_match ic a c then k s' g else None
      | EmptyString => None
      end
  | Cat r1 r2 => run ic r1 s g (fun s1 g1 => run ic r2 s1 g1 k)
  | Alt r1 r2 =>
      match run ic r1 s g k with
      | Some x => Some x
      | None => run ic r2 s g k
      end
  | Rep min cls => rep ic cls min s (fun s' => k s' g)
  | Group r1 => run ic r1 s g (fun s' _ => k s' (Some (consumed s s')))
  | NegLook r1 =>
      match run ic r1 s g (fun _ _ => Some tt) with
      | Some _ => None
      | None => k s g
      end
  end.

(** A match that starts at the head of [s]: what is left, and the group. *)
Definition match_here (ic : bool) (r : regex) (s : string)
  : option (string * capture) :=
  run ic r s None (fun rest g => Some (rest, g)).

(** The successive non-overlapping matches, leftmost first.  [skip]
    counts the characters of the last match still to step over. *)
Fixpoint scan (ic : bool) (r : regex) (s : string) (skip : nat)
  : list (string * capture) :=
  match skip with
  | S n =>
      match s with
      | String _ s' => scan ic r s' n
      | EmptyString => []
      end
  | 0 =>
      match match_here ic r s with
      | Some (rest, g) =>
          (consumed s rest, g)
            :: match s with
               | String _ s' =>
                   scan ic r s' (String.length s - String.length rest - 1)
               | EmptyString => []
               end
      | None =>
          match s with
          | String _ s' => scan ic r s' 0
          | EmptyString => []
          end
      end
  end.

Fixpoint groups (r : regex) : nat :=
  match r with
  | Eps | Lit _ | Rep _ _ => 0
  | Cat r1 r2 | Alt r1 r2 => groups r1 + groups r2
  | Group r1 => S (groups r1)
  | NegLook r1 => groups r1
  end.

(** [m.group(0)] of every match: what [re.finditer] walks through. *)
Definition matches (ic : bool) (r : regex) (s : string) : list string :=
  map fst (scan ic r s 0).

(** [re.findall]: the whole match when the pattern has no group, the
    group's text when it has one, and the empty string for a group that
    took no part in the match. *)
Definition findall (ic : bool) (r : regex) (s : string) : list string :=
  map (fun m : string * capture =>
         match groups r with
         | 0 => fst m
         | _ => match snd m with Some t => t | None => EmptyString end
         end)
      (scan ic r s 0).

(** A word, character by character. *)
Fixpoint word (w : string) : regex :=
  match w with
  | EmptyString => Eps
  | String c EmptyString => Lit c
  | String c w' => Cat (Lit c) (word w')
  end.

Fixpoint alts (r : regex) (rs : list regex) : regex :=
  match rs with
  | [] => r
  | r' :: rs' => Alt r (alts r' rs')
  end.

(** [[a-zA-Z0-9._%+-]], [[a-zA-Z0-9.-]] and [[a-zA-Z]] *)
Definition local_part : list item :=
  [Rng "a" "z"; Rng "A" "Z"; Rng "0" "9";
   Chr "."; Chr "_"; Chr "%"; Chr "+"; Chr "-"]%char.
Definition domain : list item :=
  [Rng "a" "z"; Rng "A" "Z"; Rng "0" "9"; Chr "."; Chr "-"]%char.
Definition alpha : list item := [Rng "a" "z"; Rng "A" "Z"]%char.

End Re.

(** ** The results mapping

    [email_results] is a Python [dict] from keys to lists of addresses.
    A dict keeps its keys in insertion order, and the order shows in the
    checkpoint file, so the model is an association list: assigning to a
    key that is present replaces the value in place, to a new key appends. *)

Module Dict.

Definition dict : Type := list (string * list string).

(** [k in d] *)
Definition has (k : string) (d : dict) : bool :=
  existsb (fun kv => String.eqb (fst kv) k) d.

(** [d.get(k)] *)
Fixpoint get (k : string) (d : dict) : option (list string) :=
  match d with
  | [] => None
  | (k', v) :: d' => if String.eqb k' k then Some v else get k d'
  end.

(** [d[k] = v] *)
Fixpoint set (k : string) (v : list string) (d : dict) : dict :=
  match d with
  | [] => [(k, v)]
  | (k', v') :: d' =>
      if String.eqb k' k then (k, v) :: d' else (k', v') :: set k v d'
  end.

(** [list(dict.fromkeys(xs))]: the keys in the order they were first met. *)
Definition fromkeys (xs : list string) : list string :=
  map fst (fold_left (fun d x => set x [] d) xs []).

End Dict.

(** ** [json.dump(email_results, f, indent=4)]

    The text written for a mapping from strings to lists of strings, with
    the default [ensure_ascii]: everything but printable ASCII is escaped. *)

Module Json.

Definition dquote : ascii := "034"%char.
Definition backslash : ascii := "092"%char.
Definition newline : string := String "010"%char EmptyString.

Definition hex_digit (n : nat) : ascii :=
  nth n (list_ascii_of_string "0123456789abcdef") "0"%char.

Definition escape_char (c : ascii) : string :=
  let n := nat_of_ascii c in
  let esc (x : ascii) := String backslash (String x EmptyString) in
  if (n =? 34)%nat then esc dquote
  else if (n =? 92)%nat then esc backslash
  else if (n =? 10)%nat then esc "n"%char
  else if (n =? 13)%nat then esc "r"%char
  else if (n =? 9)%nat then esc "t"%char
  else if (n =? 8)%nat then esc "b"%char
  else if (n =? 12)%nat then esc "f"%char
  else if ((32 <=? n) && (n <=? 126))%nat then String c EmptyString
  else String backslash
         (String "u" (String "0" (String "0"
            (String (hex_digit (n / 16))
               (String (hex_digit (n mod 16)) EmptyString))))).

Fixpoint escape (s : string) : string :=
  match s with
  | EmptyString => EmptyString
  | String c s' => escape_char c ++ escape s'
  end.

Definition quoted (s : string) : string :=
  String dquote (escape s ++ String dquote EmptyString).

Fixpoint join (sep : string) (xs : list string) : string :=
  match xs with
  | [] => EmptyString
  | [x] => x
  | x :: xs' => x ++ sep ++ join sep xs'
  end.

Definition dump_list (v : list string) : string :=
  match v with
  | [] => "[]"
  | _ =>
      "[" ++ newline
      ++ join ("," ++ newline) (map (fun e => "        " ++ quoted e) v)
      ++ newline ++ "    ]"
  end.

Definition dumps (d : Dict.dict) : string :=
  match d with
  | [] => "{}"
  | _ =>
      "{" ++ newline
      ++ join ("," ++ newline)
              (map (fun kv => "    " ++ quoted (fst kv) ++ ": "
                              ++ dump_list (snd kv)) d)
      ++ newline ++ "}"
  end.

End Json.

(** ** Effects: exceptions, the trace, the monad *)

Module Eff.

(** The exception classes the scripts tell apart.  [Exception] is the
    base class; raised, it stands for any error outside the named ones. *)
Inductive exn : Type :=
| Exception
| TimeoutException
| WebDriverException
| JSONDecodeError
| FileNotFoundError
| OSError
| ValueError.

(** [issubclass(e, c)], for an [except c:] clause. *)
Definition issubclass (e c : exn) : bool :=
  match c, e with
  | Exception, _ => true
  | WebDriverException, (WebDriverException | TimeoutException) => true
  | OSError, (OSError | FileNotFoundError) => true
  | ValueError, (ValueError | JSONDecodeError) => true
  | TimeoutException, TimeoutException => true
  | JSONDecodeError, JSONDecodeError => true
  | FileNotFoundError, FileNotFoundError => true
  | _, _ => false
  end.

Inductive level : Type := INFO | WARNING | ERROR.

(** What the script does to its environment.  A log line that ends with
    the text of an exception is recorded up to that text. *)
Inductive event : Type :=
| Log (lv : level) (msg : string)
| Sleep (lo hi : nat)                 (* time.sleep, of [lo] to [hi] seconds *)
| Start (ok : bool)                   (* a browser session asked for *)
| Quit                                (* driver.quit() *)
| Stranded                            (* a set-up failed with its browser up *)
| Get (item url : string)             (* driver.get(url), for a work item *)
| Scroll                              (* window.scrollTo(0, scrollHeight) *)
| OpenLink (item link : string)       (* window.open(link) *)
| CloseWindow                         (* driver.close() *)
| SwitchTo (h : nat)                  (* driver.switch_to.window(h) *)
| Truncate (path : string)            (* open(path, "w") *)
| Append (path text : string)         (* f.write(text) *)
| Csv (path : string) (rows : list (list string)).   (* DataFrame.to_csv *)

Inductive res (A : Type) : Type :=
| Val (a : A)
| Exc (e : exn).
Arguments Val {A} a.
Arguments Exc {A} e.

Section Monad.
Context {S : Type}.

(** A computation reads and writes the state, returns or raises, and
    gives the events it caused, oldest first, each with the state it
    happened in. *)
Definition M (A : Type) : Type := S -> res A * S * list (event * S).

Definition ret {A} (a : A) : M A := fun s => (Val a, s, []).

Definition raise {A} (e : exn) : M A := fun s => (Exc e, s, []).

Definition bind {A B} (m : M A) (f : A -> M B) : M B :=
  fun s =>
    match m s with
    | (Val a, s1, t1) =>
        match f a s1 with
        | (r, s2, t2) => (r, s2, (t1 ++ t2)%list)
        end
    | (Exc e, s1, t1) => (Exc e, s1, t1)
    end.

Definition emit (e : event) : M unit := fun s => (Val tt, s, [(e, s)]).

Definition gets {A} (f : S -> A) : M A := fun s => (Val (f s), s, []).

Definition modify (f : S -> S) : M unit := fun s => (Val tt, f s, []).

(** The first [except c:] clause whose class covers [e]; none: [e] goes on. *)
Fixpoint handle {A} (hs : list (exn * M A)) (e : exn) : M A :=
  match hs with
  | [] => raise e
  | (c, h) :: hs' => if issubclass e c then h else handle hs' e
  end.

(** [try: m  except c1: h1  except c2: h2 ...] *)
Definition try_except {A} (m : M A) (hs : list (exn * M A)) : M A :=
  fun s =>
    match m s with
    | (Val a, s1, t1) => (Val a, s1, t1)
    | (Exc e, s1, t1) =>
        match handle hs e s1 with
        | (r, s2, t2) => (r, s2, (t1 ++ t2)%list)
        end
    end.

(** [try: m  finally: f] *)
Definition finally {A} (m : M A) (f : M unit) : M A :=
  fun s =>
    match m s with
    | (r, s1, t1) =>
        match f s1 with
        | (Val _, s2, t2) => (r, s2, (t1 ++ t2)%list)
        | (Exc e, s2, t2) => (Exc e, s2, (t1 ++ t2)%list)
        end
    end.

End Monad.

Arguments M : clear implicits.

(** How a loop body ends: on to the next round, [break], or a [return]
    out of the function. *)
Inductive ctl : Type := Next | Break | Return.

Definition value {S A} (o : res A * S * list (event * S)) : res A :=
  fst (fst o).
Definition final {S A} (o : res A * S * list (event * S)) : S :=
  snd (fst o).
Definition trace {S A} (o : res A * S * list (event * S))
  : list (event * S) := snd o.
Definition events {S A} (o : res A * S * list (event * S)) : list event :=
  map fst (snd o).

End Eff.

Declare Scope eff_scope.
Delimit Scope eff_scope with eff.
Notation "x <- m ;; k" := (Eff.bind m (fun x => k))
  (at level 61, m at next level, right associativity) : eff_scope.
Notation "m ;; k" := (Eff.bind m (fun _ => k))
  (at level 61, right associativity) : eff_scope.

(** ** Files

    A path holds text, or is there but cannot be opened ([Denied]: a
    directory, a permission, text that does not decode); a path that is
    not listed does not exist. *)

Module Fs.

Inductive file : Type :=
| Text (content : string)
| Denied.

Definition fs : Type := list (string * file).

Fixpoint lookup (path : string) (f : fs) : option file :=
  match f with
  | [] => None
  | (p, x) :: f' => if String.eqb p path then Some x else lookup path f'
  end.

(** [os.path.exists(path)] *)
Definition exists_ (path : string) (f : fs) : bool :=
  match lookup path f with Some _ => true | None => false end.

Fixpoint store (path : string) (x : file) (f : fs) : fs :=
  match f with
  | [] => [(path, x)]
  | (p, y) :: f' =>
      if String.eqb p path then (p, x) :: f' else (p, y) :: store path x f'
  end.

End Fs.

Definition string_of_nat (n : nat) : string :=
  NilZero.string_of_uint (Nat.to_uint n).

(** ** [urllib.parse.quote]

    Letters, digits and [_ . - ~ /] stay; every other character becomes
    the [%XX] of its UTF-8 bytes. *)

Module Url.

Definition HEX (n : nat) : ascii :=
  nth n (list_ascii_of_string "0123456789ABCDEF") "0"%char.

Definition pct (n : nat) : string :=
  String "%" (String (HEX (n / 16)) (String (HEX (n mod 16)) EmptyString)).

Definition unreserved (c : ascii) : bool :=
  Py.in_range "a" "z" c || Py.in_range "A" "Z" c || Py.in_range "0" "9" c
  || existsb (Ascii.eqb c) ["_"; "."; "-"; "~"; "/"]%char.

Definition quote_char (c : ascii) : string :=
  let n := nat_of_ascii c in
  if unreserved c then String c EmptyString
  else if (n <? 128)%nat then pct n
  else pct (192 + n / 64) ++ pct (128 + n mod 64).

Fixpoint quote (s : string) : string :=
  match s with
  | EmptyString => EmptyString
  | String c s' => quote_char c ++ quote s'
  end.

End Url.

(** ** The machine and its environment *)

Module Machine.
Import Eff.

(** What a page load comes to: [driver.get] or the wait for the results
    raises, or the page is there, with its source when the challenge is
    looked for, the heights [document.body.scrollHeight] reads one after
    the other, and its source after the scrolling.  When [heights] runs
    out the page has stopped growing. *)
Inductive page : Type :=
| Fails (e : exn)
| Loaded (first : string) (heights : list nat) (last : string).

(** What the visit of one result link comes to, in [loc.py]. *)
Inductive link_page : Type :=
| OpenFails                 (* the [window.open] script raises *)
| BodyFails                 (* no [body] within the timeout *)
| Body (source : string).

(** The answers of the environment: whether the set-up of the k-th
    session asked for goes through ([start]: [webdriver.Chrome()] gives a
    session and, in the scripts that send one, the set-up command that
    follows it does not raise); when the set-up fails, whether the browser
    had come up by then, so that what raised is the set-up command
    ([launched]); what the k-th page load does, which anchors the k-th
    search page shows ([None]: the wait for them times out; an anchor's
    [href] may be missing), what the k-th link visit does. *)
Record World : Type := {
  start : nat -> bool;
  launched : nat -> bool;
  load : nat -> string -> page;
  anchors : nat -> option (list (option string));
  visit : nat -> string -> link_page
}.

Record state : Type := mkState {
  email_results : Dict.dict;   (* the mapping under construction *)
  driver : option nat;         (* the session in use, if any *)
  files : Fs.fs;
  starts : nat;                (* sessions asked for so far *)
  loads : nat;                 (* page loads so far *)
  visits : nat;                (* link visits so far *)
  windows : list nat;          (* the window handles of the session *)
  current : nat;               (* the window that commands go to *)
  found : list string          (* the set [emails] of loc.py *)
}.

Definition with_results (d : Dict.dict) (s : state) : state :=
  mkState d (driver s) (files s) (starts s) (loads s) (visits s)
          (windows s) (current s) (found s).
Definition with_driver (d : option nat) (s : state) : state :=
  mkState (email_results s) d (files s) (starts s) (loads s) (visits s)
          (windows s) (current s) (found s).
Definition with_files (f : Fs.fs) (s : state) : state :=
  mkState (email_results s) (driver s) f (starts s) (loads s) (visits s)
          (windows s) (current s) (found s).
Definition next_start (s : state) : state :=
  mkState (email_results s) (driver s) (files s) (S (starts s)) (loads s)
          (visits s) [0] 0 (found s).
Definition next_load (s : state) : state :=
  mkState (email_results s) (driver s) (files s) (starts s) (S (loads s))
          (visits s) (windows s) (current s) (found s).
Definition next_visit (s : state) : state :=
  mkState (email_results s) (driver s) (files s) (starts s) (loads s)
          (S (visits s)) (windows s) (current s) (found s).
Definition with_windows (ws : list nat) (c : nat) (s : state) : state :=
  mkState (email_results s) (driver s) (files s) (starts s) (loads s)
          (visits s) ws c (found s).
Definition with_found (e : list string) (s : state) : state :=
  mkState (email_results s) (driver s) (files s) (starts s) (loads s)
          (visits s) (windows s) (current s) e.

(** Before anything ran: the files as they are, no session. *)
Definition boot (f : Fs.fs) : state := mkState [] None f 0 0 0 [] 0 [].

Definition M : Type -> Type := Eff.M state.

Local Open Scope eff_scope.

(** [open(path, "r")] and [f.read()] *)
Definition read_text (path : string) : M string :=
  f <- gets files;;
  match Fs.lookup path f with
  | Some (Fs.Text c) => ret c
  | Some Fs.Denied => raise OSError
  | None => raise FileNotFoundError
  end.

(** [open(path, "w")]: the file is created, or cut to nothing. *)
Definition open_w (path : string) : M unit :=
  f <- gets files;;
  match Fs.lookup path f with
  | Some Fs.Denied => raise OSError
  | _ => modify (with_files (Fs.store path (Fs.Text EmptyString) f));;
         emit (Truncate path)
  end.

(** [f.write(text)] on a file opened for writing. *)
Definition write (path text : string) : M unit :=
  f <- gets files;;
  match Fs.lookup path f with
  | Some (Fs.Text c) =>
      modify (with_files (Fs.store path (Fs.Text (c ++ text)) f));;
      emit (Append path text)
  | _ => raise OSError
  end.

Definition log (lv : level) (msg : string) : M unit := emit (Log lv msg).

Definition sleep (lo hi : nat) : M unit := emit (Sleep lo hi).

(** [for x in xs: f x], for a body that neither breaks nor returns. *)
Fixpoint for_each {A} (xs : list A) (f : A -> M unit) : M unit :=
  match xs with
  | [] => ret tt
  | x :: xs' => f x;; for_each xs' f
  end.

End Machine.

(** ** aslocation.py *)

Module Aslocation.
Import Eff Machine.
Local Open Scope eff_scope.

Definition MIN_DELAY : nat := 5.
Definition MAX_DELAY : nat := 8.
Definition CHECKPOINT_FILE : string := "emails_result.json".
Definition CSV_OUTPUT_FILE : string := "emails_output.csv".
Definition MAX_RETRIES : nat := 3.

(** A cell of the sheet: empty ([None], which pandas reads as NaN), or
    the text [astype(str)] gives for it. *)
Definition cell : Type := option string.

(** [df[column].dropna().astype(str).str.strip()] *)
Definition column_values (cells : list cell) : list string :=
  flat_map (fun c => match c with
                     | Some s => [Py.strip s]
                     | None => []
                     end) cells.

(** [[loc for loc in locations
      if loc and not (loc in seen or seen.add(loc))]] *)
Fixpoint unique_from (seen : list string) (locations : list string)
  : list string :=
  match locations with
  | [] => []
  | loc :: rest =>
      if negb (String.eqb loc EmptyString) && negb (Py.mem loc seen)
      then loc :: unique_from (loc :: seen) rest
      else unique_from seen rest
  end.

(** [load_locations_from_excel], on a sheet given by its columns.  Every
    failure gives the empty list. *)
Definition load_locations_from_excel
    (sheet : option (list (string * list cell))) (column_name : string)
  : list string :=
  match sheet with
  | None => []                               (* FileNotFoundError *)
  | Some columns =>
      match find (fun c => String.eqb (fst c) column_name) columns with
      | None => []
      | Some (_, cells) => unique_from [] (column_values cells)
      end
  end.

(** The address pattern of [scrape_google_emails], matched with
    [re.IGNORECASE]:
    [[a-zA-Z0-9._%+-]+@[a-zA-Z0-9.-]+\.[a-zA-Z]{2,}(?!\.(png|jpg|jpeg|gif|bmp))] *)
Definition email_pattern : Re.regex :=
  Re.Cat (Re.Rep 1 Re.local_part)
    (Re.Cat (Re.Lit "@")
      (Re.Cat (Re.Rep 1 Re.domain)
        (Re.Cat (Re.Lit ".")
          (Re.Cat (Re.Rep 2 Re.alpha)
            (Re.NegLook
              (Re.Cat (Re.Lit ".")
                (Re.Group
                  (Re.alts (Re.word "png")
                     (map Re.word ["jpg"; "jpeg"; "gif"; "bmp"]))))))))).

(** [set(re.findall(pattern, page_html, re.IGNORECASE))] *)
Definition page_emails (page_html : string) : list string :=
  Py.set_of (Re.findall true email_pattern page_html).

Definition query_of (location : string) : string :=
  "from:construction inurl:contact " ++ String Json.dquote location
  ++ String Json.dquote " email".

Definition url_of (location : string) : string :=
  "https://www.google.com/search?q=" ++ Url.quote (query_of location)
  ++ "&num=50".

Definition challenge : string :=
  "Our systems have detected unusual traffic".

Section Script.

(** [json.loads], of Python's library: the mapping a text decodes to, or
    [None] for a [JSONDecodeError].  A checkpoint is taken to decode to a
    mapping from strings to lists of strings, which is what
    [save_checkpoint] writes. *)
Variable json_loads : string -> option Dict.dict.
Variable w : World.

Definition load_checkpoint (checkpoint_file : string) : M Dict.dict :=
  f <- gets files;;
  if Fs.exists_ checkpoint_file f then
    try_except
      (content <- read_text checkpoint_file;;
       let content := Py.strip content in
       if String.eqb content EmptyString then
         log INFO ("Checkpoint file " ++ checkpoint_file
                   ++ " is empty. Starting fresh.");;
         ret []
       else
         match json_loads content with
         | Some d => ret d
         | None => raise JSONDecodeError
         end)
      [(JSONDecodeError,
         log ERROR ("Corrupted checkpoint file " ++ checkpoint_file ++ ": ");;
         ret []);
       (Exception,
         log ERROR ("Error loading checkpoint file " ++ checkpoint_file
                    ++ ": ");;
         ret [])]
  else ret [].

Definition save_checkpoint (email_results : Dict.dict)
    (checkpoint_file : string) : M unit :=
  try_except
    (open_w checkpoint_file;;
     write checkpoint_file (Json.dumps email_results);;
     log INFO ("Checkpoint saved to: " ++ checkpoint_file))
    [(Exception,
       log ERROR ("Error saving checkpoint to " ++ checkpoint_file ++ ": "))].

(** One row per address.  The text pandas writes is not modelled: the
    event carries the rows, and [to_csv] is taken to succeed. *)
Definition export_to_csv (email_results : Dict.dict) (csv_file : string)
  : M unit :=
  emit (Csv csv_file
          (flat_map (fun kv => map (fun email => [fst kv; email]) (snd kv))
                    email_results));;
  log INFO ("Results exported to: " ++ csv_file).

(** The check of the two extension files, then, inside one [try],
    [webdriver.Chrome(...)] and [driver.execute_cdp_cmd(...)] on the
    session it gives.  When the command raises, the handler logs and
    returns [None] as it does for a browser that did not come up: the
    browser that did come up is not quit, and nothing holds it. *)
Definition initialize_driver (extension_path extension_path2 : string)
  : M (option nat) :=
  f <- gets files;;
  if negb (Fs.exists_ extension_path f) then raise FileNotFoundError
  else if negb (Fs.exists_ extension_path2 f) then raise FileNotFoundError
  else
    k <- gets starts;;
    modify next_start;;
    emit (Start (start w k));;
    if start w k then ret (Some k)
    else
      (if launched w k then emit Stranded else ret tt);;
      log ERROR "Error initializing WebDriver: ";;
      ret None.

(** The scrolling loop: scroll, wait, read the height, stop when it is
    the height read before. *)
Fixpoint scroll (last_height : nat) (heights : list nat) : M unit :=
  emit Scroll;;
  sleep 2 4;;
  match heights with
  | [] => ret tt
  | new_height :: heights' =>
      if (new_height =? last_height)%nat then ret tt
      else scroll new_height heights'
  end.

Definition save_and_export : M unit :=
  d <- gets email_results;;
  save_checkpoint d CHECKPOINT_FILE;;
  d <- gets email_results;;
  export_to_csv d CSV_OUTPUT_FILE.

(** The body of the [try] of one attempt, up to its [break]. *)
Definition attempt_body (location url : string) : M ctl :=
  k <- gets loads;;
  modify next_load;;
  emit (Get location url);;
  match load w k url with
  | Fails e => raise e
  | Loaded first heights page_html =>
      sleep MIN_DELAY MAX_DELAY;;
      (if Py.contains challenge first then
         log WARNING ("CAPTCHA detected for " ++ location
                      ++ ". Relying on Buster extension.");;
         sleep 10 10
       else ret tt);;
      scroll (hd 0 heights) (tl heights);;
      let emails := page_emails page_html in
      modify (fun s => with_results
                (Dict.set location (Py.sorted emails) (email_results s)) s);;
      log INFO ("Found " ++ string_of_nat (List.length emails)
                ++ " email(s) for: " ++ location);;
      for_each emails (fun email => log INFO email);;
      save_and_export;;
      ret Break
  end.

Definition on_timeout (location : string) (attempt : nat) : M ctl :=
  log ERROR ("Timeout loading search results for " ++ location
             ++ ". Attempt " ++ string_of_nat (attempt + 1) ++ "/"
             ++ string_of_nat MAX_RETRIES);;
  (if (attempt =? MAX_RETRIES - 1)%nat then
     log ERROR ("Max retries reached for " ++ location ++ ". Skipping.");;
     modify (fun s => with_results
               (Dict.set location [] (email_results s)) s);;
     save_and_export
   else ret tt);;
  sleep 5 10;;
  ret Next.

Definition on_webdriver_error (extension_path extension_path2 : string)
    (location : string) : M ctl :=
  log ERROR ("WebDriver error for " ++ location ++ ": ");;
  d <- gets driver;;
  (match d with Some _ => emit Quit | None => ret tt end);;
  d <- initialize_driver extension_path extension_path2;;
  modify (with_driver d);;
  match d with
  | None =>
      log ERROR "Failed to restart WebDriver. Saving results and exiting.";;
      save_and_export;;
      ret Return
  | Some _ =>
      log INFO ("WebDriver restarted. Retrying " ++ location ++ ".");;
      ret Next
  end.

(** One round of the attempt loop: the [try] with its two handlers. *)
Definition try_once (extension_path extension_path2 : string)
    (location url : string) (attempt : nat) : M ctl :=
  try_except (attempt_body location url)
    [(TimeoutException, on_timeout location attempt);
     (WebDriverException,
       on_webdriver_error extension_path extension_path2 location)].

(** [for attempt in range(attempt, attempt + left)] *)
Fixpoint attempts (extension_path extension_path2 : string)
    (location url : string) (attempt left : nat) : M ctl :=
  match left with
  | 0 => ret Next
  | S left' =>
      c <- try_once extension_path extension_path2 location url attempt;;
      match c with
      | Next =>
          attempts extension_path extension_path2 location url
                   (S attempt) left'
      | Break => ret Next
      | Return => ret Return
      end
  end.

(** [for location in locations] *)
Fixpoint visit_locations (extension_path extension_path2 : string)
    (locations : list string) : M ctl :=
  match locations with
  | [] => ret Next
  | location :: rest =>
      d <- gets email_results;;
      if Dict.has location d then
        log INFO ("Skipping already processed location: " ++ location);;
        visit_locations extension_path extension_path2 rest
      else
        log INFO ("Searching: " ++ query_of location);;
        c <- attempts extension_path extension_path2 location
               (url_of location) 0 MAX_RETRIES;;
        match c with
        | Return => ret Return
        | _ => visit_locations extension_path extension_path2 rest
        end
  end.

Definition scrape_google_emails (extension_path extension_path2 : string)
    (locations : list string) : M Dict.dict :=
  d <- load_checkpoint CHECKPOINT_FILE;;
  modify (with_results d);;
  modify (with_driver None);;
  finally
    (try_except
       (d <- initialize_driver extension_path extension_path2;;
        modify (with_driver d);;
        match d with
        | None => raise Exception
        | Some _ =>
            visit_locations extension_path extension_path2 locations;;
            ret tt
        end)
       [(Exception,
          log ERROR "Error during scraping: ";;
          save_and_export)])
    (d <- gets driver;;
     match d with
     | Some _ => emit Quit;; log INFO "Browser closed."
     | None => ret tt
     end);;
  gets email_results.

End Script.

End Aslocation.

(** ** keyword001.py

    The log lines are given without the pictographs they start with. *)

Module Keyword001.
Import Eff Machine.
Local Open Scope eff_scope.

Definition MIN_DELAY : nat := 5.
Definition MAX_DELAY : nat := 8.
Definition REAL_ESTATE_CHECKPOINT : string := "real_estate_emails.json".
Definition CONSTRUCTION_CHECKPOINT : string := "construction_emails.json".

(** [[a-zA-Z0-9._%+-]+@[a-zA-Z0-9.-]+\.(?!png|jpg|jpeg)[a-zA-Z]{2,}],
    matched without flags. *)
Definition email_pattern : Re.regex :=
  Re.Cat (Re.Rep 1 Re.local_part)
    (Re.Cat (Re.Lit "@")
      (Re.Cat (Re.Rep 1 Re.domain)
        (Re.Cat (Re.Lit ".")
          (Re.Cat
            (Re.NegLook
              (Re.alts (Re.word "png") (map Re.word ["jpg"; "jpeg"])))
            (Re.Rep 2 Re.alpha))))).

Definition page_emails (page_html : string) : list string :=
  Py.set_of (Re.findall false email_pattern page_html).

Definition query_of (keyword location : string) : string :=
  keyword ++ " in " ++ String Json.dquote location
  ++ String Json.dquote " inurl:/contact "
  ++ String Json.dquote "email //@*.com" ++ String Json.dquote "".

Definition url_of (keyword location : string) : string :=
  "https://www.google.com/search?q=" ++ Url.quote (query_of keyword location)
  ++ "&num=50".

Section Script.

Variable json_loads : string -> option Dict.dict.
Variable w : World.

Definition load_checkpoint (checkpoint_file : string) : M Dict.dict :=
  f <- gets files;;
  if Fs.exists_ checkpoint_file f then
    try_except
      (content <- read_text checkpoint_file;;
       let content := Py.strip content in
       if String.eqb content EmptyString then
         log INFO ("Checkpoint file " ++ checkpoint_file
                   ++ " is empty. Starting fresh.");;
         ret []
       else
         match json_loads content with
         | Some d => ret d
         | None => raise JSONDecodeError
         end)
      [(JSONDecodeError,
         log ERROR ("Corrupted checkpoint file " ++ checkpoint_file ++ ": ");;
         ret []);
       (Exception,
         log ERROR ("Error loading checkpoint file " ++ checkpoint_file
                    ++ ": ");;
         ret [])]
  else ret [].

Definition save_checkpoint (email_results : Dict.dict)
    (checkpoint_file : string) : M unit :=
  try_except
    (open_w checkpoint_file;;
     write checkpoint_file (Json.dumps email_results);;
     log INFO ("Checkpoint saved to: " ++ checkpoint_file))
    [(Exception,
       log ERROR ("Error saving checkpoint to " ++ checkpoint_file ++ ": "))].

(** Here [webdriver.Chrome(...)] is alone in the [try]: a set-up that
    fails leaves no browser up. *)
Definition initialize_driver (extension_path extension_path2 : string)
  : M (option nat) :=
  f <- gets files;;
  if negb (Fs.exists_ extension_path f) then raise FileNotFoundError
  else if negb (Fs.exists_ extension_path2 f) then raise FileNotFoundError
  else
    k <- gets starts;;
    modify next_start;;
    emit (Start (start w k));;
    if start w k then ret (Some k)
    else log ERROR "Error initializing WebDriver: ";; ret None.

Fixpoint scroll (last_height : nat) (heights : list nat) : M unit :=
  emit Scroll;;
  sleep 8 12;;
  match heights with
  | [] => ret tt
  | new_height :: heights' =>
      if (new_height =? last_height)%nat then ret tt
      else sleep 5 7;; scroll new_height heights'
  end.

(** The body of the [try] of one location. *)
Definition location_body (keyword checkpoint_file region_name : string)
    (location url : string) : M ctl :=
  k <- gets loads;;
  modify next_load;;
  emit (Get location url);;
  match load w k url with
  | Fails e => raise e
  | Loaded _ heights page_html =>
      sleep MIN_DELAY MAX_DELAY;;
      scroll (hd 0 heights) (tl heights);;
      let emails := page_emails page_html in
      modify (fun s => with_results
                (Dict.set location (Py.sorted emails) (email_results s)) s);;
      log INFO ("Found " ++ string_of_nat (List.length emails)
                ++ " email(s) for: " ++ location
                ++ " (" ++ region_name ++ ")");;
      for_each emails (fun email => log INFO ("  " ++ email));;
      d <- gets email_results;;
      save_checkpoint d checkpoint_file;;
      ret Next
  end.

Definition on_webdriver_error (extension_path extension_path2 : string)
    (checkpoint_file region_name location : string) : M ctl :=
  log ERROR ("WebDriver error for " ++ location
             ++ " (" ++ region_name ++ "): ");;
  d <- gets driver;;
  (match d with Some _ => emit Quit | None => ret tt end);;
  d <- initialize_driver extension_path extension_path2;;
  modify (with_driver d);;
  match d with
  | None =>
      log ERROR ("Failed to restart WebDriver. Saving current results "
                 ++ "and exiting (" ++ region_name ++ ").");;
      d <- gets email_results;;
      save_checkpoint d checkpoint_file;;
      ret Return
  | Some _ =>
      log INFO ("WebDriver restarted. Retrying " ++ location
                ++ " (" ++ region_name ++ ").");;
      ret Next
  end.

(** [for location in locations]: the [continue] of the error handler is
    a [continue] of this loop. *)
Fixpoint visit_locations (extension_path extension_path2 : string)
    (keyword checkpoint_file region_name : string)
    (locations : list string) : M ctl :=
  match locations with
  | [] => ret Next
  | location :: rest =>
      d <- gets email_results;;
      if Dict.has location d then
        log INFO ("Skipping already processed location: " ++ location
                  ++ " (" ++ region_name ++ ")");;
        visit_locations extension_path extension_path2
          keyword checkpoint_file region_name rest
      else
        log INFO ("Searching: " ++ query_of keyword location
                  ++ " (" ++ region_name ++ ")");;
        log INFO ("Constructed URL: " ++ url_of keyword location
                  ++ " (" ++ region_name ++ ")");;
        c <- try_except
               (location_body keyword checkpoint_file region_name
                  location (url_of keyword location))
               [(WebDriverException,
                  on_webdriver_error extension_path extension_path2
                    checkpoint_file region_name location)];;
        match c with
        | Return => ret Return
        | _ => visit_locations extension_path extension_path2
                 keyword checkpoint_file region_name rest
        end
  end.

Definition scrape_google_emails (extension_path extension_path2 : string)
    (locations : list string) (keyword checkpoint_file region_name : string)
  : M Dict.dict :=
  d <- load_checkpoint checkpoint_file;;
  modify (with_results d);;
  modify (with_driver None);;
  finally
    (try_except
       (d <- initialize_driver extension_path extension_path2;;
        modify (with_driver d);;
        match d with
        | None => raise Exception
        | Some _ =>
            visit_locations extension_path extension_path2
              keyword checkpoint_file region_name locations;;
            ret tt
        end)
       [(Exception,
          log ERROR ("Error during scraping (" ++ region_name ++ "): ");;
          d <- gets email_results;;
          save_checkpoint d checkpoint_file)])
    (d <- gets driver;;
     match d with
     | Some _ =>
         emit Quit;; log INFO ("Browser closed (" ++ region_name ++ ").")
     | None => ret tt
     end);;
  gets email_results.

End Script.

End Keyword001.

(** ** loc.py *)

Module Loc.
Import Eff Machine.
Local Open Scope eff_scope.

Definition MIN_DELAY : nat := 5.
Definition MAX_DELAY : nat := 8.
Definition CHECKPOINT_FILE : string := "emails_result.json".
Definition CSV_OUTPUT_FILE : string := "scraped_emails.csv".
Definition MAX_RETRIES : nat := 3.
Definition MAX_LINKS_PER_PAGE : nat := 5.
Definition PAGE_LOAD_TIMEOUT : nat := 15.
Definition DYNAMIC_WAIT : nat := 3.

Definition cell : Type := option string.
Definition sheet : Type := list (string * list cell).

(** [df[name].dropna().astype(str).str.strip().tolist()]; a column that
    is not there is a [KeyError]. *)
Definition column (name : string) (sh : sheet) : option (list string) :=
  match find (fun c => String.eqb (fst c) name) sh with
  | Some (_, cells) =>
      Some (flat_map (fun c => match c with
                               | Some s => [Py.strip s]
                               | None => []
                               end) cells)
  | None => None
  end.

(** [load_cities_and_keywords], on the workbook given by its sheets.  A
    workbook, sheet or column that is missing raises inside the [try],
    and three empty lists come back. *)
Definition load_cities_and_keywords (book : option (list (string * sheet)))
    (sheet_name : string) : list string * list string * list string :=
  let sheet_of name :=
    match book with
    | Some sheets =>
        option_map snd (find (fun sh => String.eqb (fst sh) name) sheets)
    | None => None
    end in
  match sheet_of sheet_name, sheet_of "Sheet2" with
  | Some cities, Some words =>
      match column "USA" cities, column "UK" cities,
            column "Keywords" words with
      | Some usa_cities, Some uk_cities, Some keywords =>
          (Dict.fromkeys usa_cities, Dict.fromkeys uk_cities,
           Dict.fromkeys keywords)
      | _, _, _ => ([], [], [])
      end
  | _, _ => ([], [], [])
  end.

(** [[a-zA-Z0-9._%+-]+@[a-zA-Z0-9.-]+\.[a-zA-Z]{2,}(?!\.(png|jpg|jpeg|gif|bmp|svg|webp))] *)
Definition email_pattern : Re.regex :=
  Re.Cat (Re.Rep 1 Re.local_part)
    (Re.Cat (Re.Lit "@")
      (Re.Cat (Re.Rep 1 Re.domain)
        (Re.Cat (Re.Lit ".")
          (Re.Cat (Re.Rep 2 Re.alpha)
            (Re.NegLook
              (Re.Cat (Re.Lit ".")
                (Re.Group
                  (Re.alts (Re.word "png")
                     (map Re.word
                        ["jpg"; "jpeg"; "gif"; "bmp"; "svg"; "webp"]))))))))).

Definition extract_emails (text : string) : list string :=
  let emails := Py.set_of (Re.findall true email_pattern text) in
  filter (fun email =>
            (5 <? String.length email)%nat
            && Py.contains_char "@" email
            && Py.contains_char "." (nth 1 (Py.split "@" email) EmptyString))
         emails.

Definition query_of (keyword city : string) : string :=
  keyword ++ " inurl:contact " ++ String Json.dquote city
  ++ String Json.dquote "".

Definition challenge : string :=
  "Our systems have detected unusual traffic".

Section Script.

Variable json_loads : string -> option Dict.dict.
(** [BeautifulSoup(source, 'html.parser')
      .get_text(separator=' ', strip=True)] *)
Variable get_text : string -> string.
(** [str(key)] for the tuple [key = (keyword, city)] *)
Variable str_key : string -> string -> string.
Variable w : World.

Definition load_checkpoint (checkpoint_file : string) : M Dict.dict :=
  f <- gets files;;
  if Fs.exists_ checkpoint_file f then
    try_except
      (content <- read_text checkpoint_file;;
       let content := Py.strip content in
       if String.eqb content EmptyString then
         log INFO ("Checkpoint file " ++ checkpoint_file
                   ++ " is empty. Starting fresh.");;
         ret []
       else
         match json_loads content with
         | Some d => ret d
         | None => raise JSONDecodeError
         end)
      [(JSONDecodeError,
         log ERROR ("Corrupted checkpoint file " ++ checkpoint_file ++ ": ");;
         ret []);
       (Exception,
         log ERROR ("Error loading checkpoint file " ++ checkpoint_file
                    ++ ": ");;
         ret [])]
  else ret [].

Definition save_checkpoint (email_results : Dict.dict)
    (checkpoint_file : string) : M unit :=
  try_except
    (open_w checkpoint_file;;
     write checkpoint_file (Json.dumps email_results);;
     log INFO ("Checkpoint saved to: " ++ checkpoint_file))
    [(Exception,
       log ERROR ("Error saving checkpoint to " ++ checkpoint_file ++ ": "))].

(** [for (keyword, city), emails in email_results.items()]: the keys are
    strings, and a string unpacks into two names only when it has two
    characters; any other key is a [ValueError]. *)
Fixpoint export_rows (d : Dict.dict) : option (list (list string)) :=
  match d with
  | [] => Some []
  | (String keyword (String city EmptyString), emails) :: d' =>
      match export_rows d' with
      | Some rows =>
          Some (map (fun email => [String keyword EmptyString;
                                   String city EmptyString; email])
                    (filter (fun email =>
                               negb (String.eqb email EmptyString)) emails)
                  ++ rows)%list
      | None => None
      end
  | _ :: _ => None
  end.

Definition export_to_csv (email_results : Dict.dict) (csv_file : string)
  : M unit :=
  try_except
    (match export_rows email_results with
     | Some rows =>
         emit (Csv csv_file rows);;
         log INFO ("Results exported to: " ++ csv_file)
     | None => raise ValueError
     end)
    [(Exception, log ERROR ("Error exporting to CSV " ++ csv_file ++ ": "))].

(** The loop over the extensions of [setup_driver]: [false] when one is
    missing, which ends the set-up. *)
Fixpoint load_extensions (f : Fs.fs) (extension_paths : list string)
  : M bool :=
  match extension_paths with
  | [] => ret true
  | ext_path :: rest =>
      if Fs.exists_ ext_path f then
        log INFO ("Loading extension: " ++ ext_path);;
        load_extensions f rest
      else
        log ERROR ("Extension file not found: " ++ ext_path);;
        ret false
  end.

(** The whole set-up is one [try]: the extensions, [webdriver.Chrome(...)]
    and [driver.execute_cdp_cmd(...)] on the session it gives.  When the
    command raises, the handler logs and returns [None]; the browser that
    came up is not quit, and nothing holds it. *)
Definition setup_driver (extension_paths : list string) : M (option nat) :=
  f <- gets files;;
  ok <- load_extensions f extension_paths;;
  if ok then
    k <- gets starts;;
    modify next_start;;
    emit (Start (start w k));;
    if start w k then
      log INFO "ChromeDriver initialized successfully";;
      ret (Some k)
    else
      (if launched w k then emit Stranded else ret tt);;
      log ERROR "Error setting up driver: ";;
      ret None
  else ret None.

(** *** The windows of the session

    A command goes to the current window, and raises when that window
    has been closed; closing the current window removes its handle and
    leaves the session without a current window until a switch. *)

Definition alive : M unit :=
  ws <- gets windows;;
  c <- gets current;;
  if existsb (Nat.eqb c) ws then ret tt else raise WebDriverException.

(** [driver.current_window_handle] *)
Definition current_window_handle : M nat := alive;; gets current.

(** [driver.execute_script("window.open('link');")] *)
Definition window_open (query link : string) : M link_page :=
  k <- gets visits;;
  modify next_visit;;
  emit (OpenLink query link);;
  alive;;
  match visit w k link with
  | OpenFails => raise WebDriverException
  | r =>
      modify (fun s => with_windows
                (windows s ++ [S (fold_right Nat.max (current s) (windows s))])
                (current s) s);;
      ret r
  end.

(** [driver.window_handles[-1]] *)
Definition last_window_handle : M nat :=
  ws <- gets windows;;
  match rev ws with
  | h :: _ => ret h
  | [] => raise WebDriverException
  end.

(** [driver.switch_to.window(h)] *)
Definition switch_to_window (h : nat) : M unit :=
  ws <- gets windows;;
  if existsb (Nat.eqb h) ws then
    modify (fun s => with_windows (windows s) h s);;
    emit (SwitchTo h)
  else raise WebDriverException.

(** [driver.close()] *)
Definition close : M unit :=
  alive;;
  modify (fun s => with_windows
            (filter (fun h => negb (h =? current s)%nat) (windows s))
            (current s) s);;
  emit CloseWindow.

(** The body of the [try] of one link. *)
Definition link_body (query link : string) (original_window : nat)
  : M unit :=
  r <- window_open query link;;
  h <- last_window_handle;;
  switch_to_window h;;
  source <- match r with
            | Body source => ret source
            | _ => raise TimeoutException
            end;;
  sleep DYNAMIC_WAIT DYNAMIC_WAIT;;
  let page_emails := extract_emails (get_text source) in
  modify (fun s => with_found (Py.set_update (found s) page_emails) s);;
  log INFO ("Extracted " ++ string_of_nat (List.length page_emails)
            ++ " emails from " ++ link);;
  close;;
  switch_to_window original_window.

(** [for link in links[:MAX_LINKS_PER_PAGE]] *)
Fixpoint visit_links (query : string) (original_window : nat)
    (links : list string) : M unit :=
  match links with
  | [] => ret tt
  | link :: rest =>
      try_except
        (link_body query link original_window)
        [(Exception,
           log ERROR ("Error scraping link " ++ link ++ ": ");;
           try_except close [(Exception, ret tt)];;
           switch_to_window original_window)];;
      visit_links query original_window rest
  end.

(** [[href for result in results if href and 'http' in href]] *)
Definition valid_links (hrefs : list (option string)) : list string :=
  flat_map (fun h => match h with
                     | Some href =>
                         if negb (String.eqb href EmptyString)
                            && Py.contains "http" href
                         then [href] else []
                     | None => []
                     end) hrefs.

Definition search_url (query : string) : string :=
  "https://www.google.com/search?q=" ++ Url.quote query ++ "&num=50".

(** The body of the [try] of [scrape_emails]. *)
Definition scrape_body (query : string) : M (list string) :=
  k <- gets loads;;
  modify next_load;;
  emit (Get query (search_url query));;
  alive;;
  match load w k (search_url query) with
  | Fails e => raise e
  | Loaded first _ source =>
      sleep MIN_DELAY MAX_DELAY;;
      (if Py.contains challenge first then
         log WARNING ("CAPTCHA detected for query: " ++ query
                      ++ ". Relying on Buster extension.");;
         sleep 10 10
       else ret tt);;
      let page_emails := extract_emails (get_text source) in
      modify (fun s => with_found (Py.set_update (found s) page_emails) s);;
      log INFO ("Extracted " ++ string_of_nat (List.length page_emails)
                ++ " emails from search results page for query: " ++ query);;
      match anchors w k with
      | None => raise TimeoutException
      | Some hrefs =>
          let links := valid_links hrefs in
          log INFO ("Found " ++ string_of_nat (List.length links)
                    ++ " valid links for query: " ++ query);;
          original_window <- current_window_handle;;
          visit_links query original_window
            (firstn MAX_LINKS_PER_PAGE links);;
          emails <- gets found;;
          log INFO ("Total emails found for query '" ++ query ++ "': "
                    ++ string_of_nat (List.length emails));;
          ret emails
      end
  end.

Definition scrape_emails (query : string) : M (list string) :=
  modify (with_found []);;
  try_except (scrape_body query)
    [(TimeoutException,
       log ERROR ("Timeout loading search results for query: " ++ query);;
       ret []);
     (Exception,
       log ERROR ("Error scraping emails for query '" ++ query ++ "': ");;
       ret [])].

Definition save_and_export : M unit :=
  d <- gets email_results;;
  save_checkpoint d CHECKPOINT_FILE;;
  d <- gets email_results;;
  export_to_csv d CSV_OUTPUT_FILE.

Definition on_webdriver_error (extension_paths : list string)
    (keyword city : string) (attempt : nat) : M ctl :=
  log ERROR ("WebDriver error for " ++ keyword ++ " in " ++ city
             ++ ". Attempt " ++ string_of_nat (attempt + 1) ++ "/"
             ++ string_of_nat MAX_RETRIES);;
  emit Quit;;
  d <- setup_driver extension_paths;;
  modify (with_driver d);;
  match d with
  | None =>
      log ERROR "Failed to restart WebDriver. Saving and exiting.";;
      save_and_export;;
      ret Return
  | Some _ => log INFO "WebDriver restarted.";; ret Next
  end.

(** [for attempt in range(attempt, attempt + left)], with the value of
    [emails] so far; gives how the loop ended and [emails] after it. *)
Fixpoint attempts (extension_paths : list string) (keyword city : string)
    (attempt left : nat) (emails : list string) : M (ctl * list string) :=
  match left with
  | 0 => ret (Next, emails)
  | S left' =>
      r <- try_except
             (e <- scrape_emails (query_of keyword city);; ret (Break, e))
             [(WebDriverException,
                c <- on_webdriver_error extension_paths keyword city attempt;;
                ret (c, emails))];;
      match fst r with
      | Next => attempts extension_paths keyword city (S attempt) left' emails
      | Break => ret (Next, snd r)
      | Return => ret (Return, emails)
      end
  end.

(** [for city in all_cities[:5]] *)
Fixpoint visit_cities (extension_paths : list string) (keyword : string)
    (cities : list string) : M ctl :=
  match cities with
  | [] => ret Next
  | city :: rest =>
      d <- gets email_results;;
      if Dict.has (str_key keyword city) d then
        log INFO ("Skipping already processed: " ++ keyword ++ " in " ++ city);;
        visit_cities extension_paths keyword rest
      else
        log INFO ("Scraping emails for keyword: " ++ keyword
                  ++ ", city: " ++ city);;
        r <- attempts extension_paths keyword city 0 MAX_RETRIES [];;
        match fst r with
        | Return => ret Return
        | _ =>
            modify (fun s => with_results
                      (Dict.set (str_key keyword city) (Py.sorted (snd r))
                                (email_results s)) s);;
            save_and_export;;
            sleep MIN_DELAY MAX_DELAY;;
            visit_cities extension_paths keyword rest
        end
  end.

(** [for keyword in keywords[:1]] *)
Fixpoint visit_keywords (extension_paths : list string)
    (keywords cities : list string) : M ctl :=
  match keywords with
  | [] => ret Next
  | keyword :: rest =>
      c <- visit_cities extension_paths keyword cities;;
      match c with
      | Return => ret Return
      | _ => visit_keywords extension_paths rest cities
      end
  end.

Definition excel_path : string := "D:\Emails\data\country.xlsx".
Definition extension_paths : list string :=
  ["D:\Emails\extensions\KDPLAPECIAGKKJOIGNNKFPBFKEBCFBPB_0_3_24_0.crx";
   "D:\Emails\extensions\Buster.crx"].

(** The campaign of [main], from the loaded lists on. *)
Definition campaign (all_cities keywords : list string) : M unit :=
  d <- load_checkpoint CHECKPOINT_FILE;;
  modify (with_results d);;
  d <- setup_driver extension_paths;;
  modify (with_driver d);;
  match d with
  | None => log ERROR "Driver setup failed. Exiting."
  | Some _ =>
      finally
        (try_except
           (c <- visit_keywords extension_paths
                   (firstn 1 keywords) (firstn 5 all_cities);;
            match c with
            | Return => ret tt
            | _ =>
                d <- gets email_results;;
                log INFO ("Scraping complete. Total emails found: "
                          ++ string_of_nat
                               (list_sum (map (fun kv => List.length (snd kv))
                                              d)))
            end)
           [(Exception, log ERROR "Error in main loop: ")])
        (d <- gets driver;;
         match d with
         | Some _ => emit Quit;; log INFO "Browser closed."
         | None => raise Exception     (* None has no [quit] *)
         end)
  end.

(** [main], on the workbook [pandas] reads at [excel_path].  The log
    lines of the loader are left out. *)
Definition main (book : option (list (string * sheet))) : M unit :=
  f <- gets files;;
  match find (fun p => negb (Fs.exists_ p f)) (excel_path :: extension_paths)
  with
  | Some path => log ERROR ("File not found: " ++ path)
  | None =>
      let '(usa_cities, uk_cities, keywords) :=
        load_cities_and_keywords book "Sheet1" in
      let all_cities := (usa_cities ++ uk_cities)%list in
      match all_cities, keywords with
      | [], _ | _, [] => log ERROR "No cities or keywords loaded. Exiting."
      | _, _ => campaign all_cities keywords
      end
  end.

End Script.

End Loc.

(** ** What the claims speak of *)

Module Prop_.
Import Eff Machine.

(** The two lists hold the same strings: equality of sets. *)
Definition same_set (a b : list string) : Prop :=
  forall x, In x a <-> In x b.

(** The text of the extraction scenario. *)
Definition scenario : string :=
  "contact us at jane@firm.com or see logo@cdn.com/logo.png".

(** What a checkpoint loader has to do on a path, whatever is there:
    no exception, the state untouched, and by case
    - nothing at the path: the empty mapping and no log line;
    - a file that cannot be read: the empty mapping and an error line;
    - a file that is blank once stripped: the empty mapping and a line
      at informational level;
    - text that does not decode: the empty mapping and an error line;
    - text that decodes: the decoded mapping. *)
Definition tolerant (json_loads : string -> option Dict.dict)
    (load_checkpoint : string -> M Dict.dict) : Prop :=
  forall (path : string) (s : state),
    let o := load_checkpoint path s in
    final o = s /\
    match Fs.lookup path (files s) with
    | None => value o = Val [] /\ events o = []
    | Some Fs.Denied =>
        value o = Val []
        /\ events o = [Log ERROR ("Error loading checkpoint file " ++ path
                                  ++ ": ")]
    | Some (Fs.Text c) =>
        if String.eqb (Py.strip c) EmptyString then
          value o = Val []
          /\ events o = [Log INFO ("Checkpoint file " ++ path
                                   ++ " is empty. Starting fresh.")]
        else
          match json_loads (Py.strip c) with
          | None =>
              value o = Val []
              /\ events o = [Log ERROR ("Corrupted checkpoint file " ++ path
                                        ++ ": ")]
          | Some d => value o = Val d /\ events o = []
          end
    end.

(** The values of a list without the repetitions: each value where it
    is first seen. *)
Fixpoint first_seen (xs : list string) : list string :=
  match xs with
  | [] => []
  | x :: xs' => x :: filter (fun y => negb (String.eqb y x)) (first_seen xs')
  end.

Definition nonempty (x : string) : bool := negb (String.eqb x EmptyString).

(** A pattern whose groups all sit under a lookahead. *)
Fixpoint plain (r : Re.regex) : bool :=
  match r with
  | Re.Group _ => false
  | Re.Cat r1 r2 | Re.Alt r1 r2 => plain r1 && plain r2
  | _ => true
  end.

(** A workbook whose USA column has a cell of blanks. *)
Definition blank_cell_book : option (list (string * Loc.sheet)) :=
  Some [("Sheet1", [("USA", [Some "Austin"; Some "  "; Some "Denver"]);
                    ("UK", [])]);
        ("Sheet2", [("Keywords", [Some "plumber"])])].

Definition outcome (A : Type) : Type := res A * state * list (event * state).

(** The outcome [o], after the events [t]. *)
Definition prepend {A : Type} (t : list (event * state)) (o : outcome A)
  : outcome A :=
  (value o, final o, (t ++ trace o)%list).

(** Events that stay with the script: log lines and its own files. *)
Definition local (e : event) : bool :=
  match e with
  | Log _ _ | Truncate _ | Append _ _ | Csv _ _ => true
  | _ => false
  end.

Definition quiet (t : list (event * state)) : Prop :=
  Forall (fun es => local (fst es) = true) t.

(** A trace of log lines only. *)
Definition logged (t : list (event * state)) : Prop :=
  Forall (fun es => match fst es with Log _ _ => True | _ => False end) t.

(** The page loads and the waits of a trace, in order. *)
Definition paced (e : event) : bool :=
  match e with
  | Get _ _ | Sleep _ _ => true
  | _ => false
  end.

Definition pace (t : list (event * state)) : list event :=
  filter paced (map fst t).

(** The page loads of a trace. *)
Definition is_get (e : event) : bool :=
  match e with
  | Get _ _ => true
  | _ => false
  end.

Definition fetches (t : list (event * state)) : list event :=
  filter is_get (map fst t).

(** The files once [save_checkpoint d path] has run on the files [f]. *)
Definition saved (path : string) (d : Dict.dict) (f : Fs.fs) : Fs.fs :=
  match Fs.lookup path f with
  | Some Fs.Denied => f
  | _ => Fs.store path (Fs.Text (Json.dumps d))
           (Fs.store path (Fs.Text EmptyString) f)
  end.

(** The events of [save_checkpoint d path] on the files [f]: the file is
    cut, written and the save logged, or the failure to open it is
    logged. *)
Definition save_events (path : string) (d : Dict.dict) (f : Fs.fs)
  : list event :=
  match Fs.lookup path f with
  | Some Fs.Denied =>
      [Log ERROR ("Error saving checkpoint to " ++ path ++ ": ")]
  | _ =>
      [Truncate path; Append path (Json.dumps d);
       Log INFO ("Checkpoint saved to: " ++ path)]
  end.

(** The rows [export_to_csv] of [aslocation.py] writes: one for each
    address of each key. *)
Definition rows_of (d : Dict.dict) : list (list string) :=
  flat_map (fun kv => map (fun email => [fst kv; email]) (snd kv)) d.

(** The events of the save followed by the export, in [aslocation.py]. *)
Definition save_and_export_events (d : Dict.dict) (f : Fs.fs) : list event :=
  (save_events Aslocation.CHECKPOINT_FILE d f
   ++ [Csv Aslocation.CSV_OUTPUT_FILE (rows_of d);
       Log INFO ("Results exported to: " ++ Aslocation.CSV_OUTPUT_FILE)])%list.

(** A save that replaces the file in one step: at every moment of the
    save, the path holds the text it held before or the whole new text. *)
Definition atomic_save (save : Dict.dict -> string -> M unit) : Prop :=
  forall (d : Dict.dict) (path old : string) (s : state),
    Fs.lookup path (files s) = Some (Fs.Text old) ->
    forall (e : event) (s' : state),
      In (e, s') (trace (save d path s)) ->
      Fs.lookup path (files s') = Some (Fs.Text old)
      \/ Fs.lookup path (files s') = Some (Fs.Text (Json.dumps d)).

(** A checkpoint with one location on it, saved by an earlier run. *)
Definition austin_done : state :=
  boot [(Aslocation.CHECKPOINT_FILE,
         Fs.Text (Json.dumps [("Austin", ["info@austin.example"])]))].

(** A session of [loc.py] that has just come up, and a search page with
    two result links; the address of the first holds an apostrophe, which
    ends the string of the [window.open] script early: the script raises. *)
Definition fresh_session : state := next_start (boot []).
Definition obrien : string := "http://a.example/o'brien".
Definition second_link : string := "http://b.example/contact".
Definition two_links (first : link_page) : World :=
  {| start := fun _ => true;
     launched := fun _ => false;
     load := fun _ _ => Loaded "<html>" [] "<html>";
     anchors := fun _ => Some [Some obrien; Some second_link];
     visit := fun k _ => match k with 0 => first | _ => Body "<body>" end |}.
Definition plumbers : string := Loc.query_of "plumber" "Austin".

(** What a set-up that fails leaves in the trace after its [Start false],
    in the scripts that send the set-up command: the mark of the browser
    that came up, when one did. *)
Definition stranded_by (w : World) (k : nat) (s : state)
  : list (event * state) :=
  if launched w k then [(Stranded, s)] else [].

Definition stranded_events (w : World) (k : nat) : list event :=
  if launched w k then [Stranded] else [].

(** The writes to files of a trace. *)
Definition is_write (e : event) : bool :=
  match e with
  | Truncate _ | Append _ _ => true
  | _ => false
  end.

Definition writes (t : list (event * state)) : list event :=
  filter is_write (map fst t).

(** Worlds for the examples: every session comes up, and every page load
    ends the same way. *)
Definition always (p : page) : World :=
  {| start := fun _ => true;
     launched := fun _ => false;
     load := fun _ _ => p;
     anchors := fun _ => None;
     visit := fun _ _ => BodyFails |}.

(** The files [loc.py] wants to see before it starts. *)
Definition loc_files : Fs.fs :=
  map (fun p => (p, Fs.Text EmptyString))
      (Loc.excel_path :: Loc.extension_paths).

(** A world where the first session comes up and no other does, and
    every page load ends in a driver error. *)
Definition no_restart : World :=
  {| start := fun k => Nat.eqb k 0;
     launched := fun _ => false;
     load := fun _ _ => Fails WebDriverException;
     anchors := fun _ => None;
     visit := fun _ _ => BodyFails |}.

(** The files [aslocation.py] wants, under short names. *)
Definition two_extensions : Fs.fs :=
  [("a.crx", Fs.Text EmptyString); ("b.crx", Fs.Text EmptyString)].

(** The state of [aslocation.py] once its first session is up, with
    nothing on the checkpoint. *)
Definition started : state :=
  with_driver (Some 0) (next_start (boot two_extensions)).

(** Files with a checkpoint on them, and a decoder that reads it as the
    mapping [d]. *)
Definition with_checkpoint (f : Fs.fs) : Fs.fs :=
  (Aslocation.CHECKPOINT_FILE, Fs.Text "{...}") :: f.
Definition decodes_to (d : Dict.dict) (text : string) : option Dict.dict :=
  Some d.

(** [str((keyword, city))] for texts with no quote, no backslash and
    nothing that does not print. *)
Definition plain_key (keyword city : string) : string :=
  "('" ++ keyword ++ "', '" ++ city ++ "')".

(** *** A logic for the runs

    [phi] is what every event of a run has to satisfy, in the state it
    happens in; [Q] what the result and the final state have to satisfy. *)
Section Logic.

Variable phi : event -> state -> Prop.

Definition fine (t : list (event * state)) : Prop :=
  Forall (fun es => phi (fst es) (snd es)) t.

Definition sound {A : Type} (m : M A) (s : state)
    (Q : res A -> state -> Prop) : Prop :=
  fine (trace (m s)) /\ Q (value (m s)) (final (m s)).

End Logic.

(** The checkpoint file holds the dump of the mapping in memory. *)
Definition synced (path : string) (s : state) : Prop :=
  Fs.lookup path (files s)
  = Some (Fs.Text (Json.dumps (email_results s))).

(** Write-through, for a run that loaded the mapping [d0]: nothing has
    been recorded yet, or the checkpoint file has it all. *)
Definition written_through (path : string) (d0 : Dict.dict) (s : state)
  : Prop :=
  email_results s = d0 \/ synced path s.

(** The checkpoint file after the save that follows a recording, the
    files being [f0] before it: when the file cannot be opened for writing
    the files are as they were, otherwise the file holds the dump of the
    mapping in memory. *)
Definition reflected (path : string) (f0 : Fs.fs) (s : state) : Prop :=
  match Fs.lookup path f0 with
  | Some Fs.Denied => files s = f0
  | _ => synced path s
  end.

(** Write-through for a run that started on the files [f0] and loaded
    the mapping [d0]: when the checkpoint file cannot be opened for
    writing the files stay as they were, otherwise nothing has been
    recorded yet or the checkpoint file has it all. *)
Definition kept_through (path : string) (f0 : Fs.fs) (d0 : Dict.dict)
    (s : state) : Prop :=
  match Fs.lookup path f0 with
  | Some Fs.Denied => files s = f0
  | _ => written_through path d0 s
  end.

(** The invariant of write-through, and what it asks of an event. *)
Definition durable (path : string) (d0 : Dict.dict) (s : state) : Prop :=
  Fs.lookup path (files s) <> Some Fs.Denied /\ written_through path d0 s.

Definition held_through (path : string) (f0 : Fs.fs) (d0 : Dict.dict)
    (s : state) : Prop :=
  match Fs.lookup path f0 with
  | Some Fs.Denied => files s = f0
  | _ => durable path d0 s
  end.

Definition fetched_durably (path : string) (f0 : Fs.fs) (d0 : Dict.dict)
    (e : event) (s : state) : Prop :=
  is_get e = true -> kept_through path f0 d0 s.

(** Files on which the checkpoint of [aslocation.py] cannot be opened:
    the path is a directory, or the script may not write there. *)
Definition locked_checkpoint : Fs.fs :=
  (Aslocation.CHECKPOINT_FILE, Fs.Denied) :: two_extensions.

(** A trace without a page load. *)
Definition calm (t : list (event * state)) : Prop :=
  Forall (fun es => is_get (fst es) = false) t.

(** The two states agree on the mapping and on the files. *)
Definition same (s s' : state) : Prop :=
  email_results s' = email_results s /\ files s' = files s.

(** *** What the other code places are asked *)

(** Every character of [s] is in the set [cls]. *)
Definition chars_in (ic : bool) (cls : list Re.item) (s : string) : bool :=
  forallb (Re.cls_match ic cls) (list_ascii_of_string s).

(** The form of an address [keyword001.py] takes from a page: a local
    part, the at sign, a domain, a dot, and two letters or more that do
    not begin with the name of one of the three image formats. *)
Definition address_shape (x : string) : Prop :=
  exists L D T : string,
    x = L ++ "@" ++ D ++ "." ++ T
    /\ L <> EmptyString /\ chars_in false Re.local_part L = true
    /\ D <> EmptyString /\ chars_in false Re.domain D = true
    /\ 2 <= String.length T /\ chars_in false Re.alpha T = true
    /\ String.prefix "png" T = false
    /\ String.prefix "jpg" T = false
    /\ String.prefix "jpeg" T = false.

(** A list of strings in strictly ascending order. *)
Fixpoint ascending (xs : list string) : Prop :=
  match xs with
  | x :: (y :: _) as rest => String.ltb x y = true /\ ascending rest
  | _ => True
  end.

(** The rounds of the scrolling loop: it stops at the first height that
    is the height read before, or when the page has stopped growing. *)
Fixpoint rounds (last_height : nat) (heights : list nat) : nat :=
  match heights with
  | [] => 1
  | new_height :: heights' =>
      if (new_height =? last_height)%nat then 1
      else S (rounds new_height heights')
  end.

(** *** Runs read by an automaton

    [delta] reads the events of a run one after the other, from the state
    [q] on; [None] is an event it refuses.  [tracked] says that the run of
    [m] from [s] is read to the end, and [P] holds of the result, the
    final state and the state the automaton ends in. *)
Section Automaton.

Variable St : Type.
Variable delta : St -> event -> option St.

Fixpoint accepts (q : St) (es : list event) : option St :=
  match es with
  | [] => Some q
  | e :: es' =>
      match delta q e with
      | Some q' => accepts q' es'
      | None => None
      end
  end.

Definition tracked {A : Type} (q : St) (m : M A) (s : state)
    (P : res A -> state -> St -> Prop) : Prop :=
  exists q' : St,
    accepts q (events (m s)) = Some q' /\ P (value (m s)) (final (m s)) q'.

End Automaton.

Arguments accepts {St} delta q es.
Arguments tracked {St} delta {A} q m s P.

(** A command to the browser. *)
Definition browses (e : event) : bool :=
  match e with
  | Get _ _ | Scroll | OpenLink _ _ | CloseWindow | SwitchTo _ => true
  | _ => false
  end.

(** The life of a browser session, [up] telling whether the script
    holds one: a session is asked for only when none is held, and it is
    held when the set-up goes through; a session is quit, and a command
    sent to the browser, only when one is held.  Everything else may
    happen at any time; the browser that a failed set-up leaves up
    ([Stranded]) is no session of the script. *)
Definition session_step (up : bool) (e : event) : option bool :=
  match e with
  | Start ok => if up then None else Some ok
  | Quit => if up then Some false else None
  | _ => if browses e then (if up then Some true else None) else Some up
  end.

(** The events of a script that never holds two sessions at a time,
    never uses a session it does not hold, and holds none at the end. *)
Definition session_safe (es : list event) : Prop :=
  accepts session_step false es = Some false.

(** The two extension files are in place. *)
Definition extensions_there (e1 e2 : string) (s : state) : Prop :=
  Fs.exists_ e1 (files s) = true /\ Fs.exists_ e2 (files s) = true.

(** Whether the variable [driver] holds a session. *)
Definition is_up (s : state) : bool :=
  match driver s with
  | Some _ => true
  | None => false
  end.

(** Between two statements of [scrape_google_emails]: a session is up
    exactly when [driver] holds one, and then the extensions are there. *)
Definition in_session (e1 e2 : string) (s : state) (up : bool) : Prop :=
  up = is_up s /\ (up = true -> extensions_there e1 e2 s).

(** The life of the one session of [loc.py]: phase 0 before it is asked
    for, 1 while the script holds it, 2 once it is quit or its set-up has
    failed.  A session is asked for in phase 0 only.  The browser that a
    failed set-up leaves up ([Stranded]) is no session of the script. *)
Definition once_step (phase : nat) (e : event) : option nat :=
  match e with
  | Start ok =>
      match phase with
      | 0 => Some (if ok then 1 else 2)
      | _ => None
      end
  | Quit =>
      match phase with
      | 1 => Some 2
      | _ => None
      end
  | _ =>
      if browses e then
        match phase with
        | 1 => Some 1
        | _ => None
        end
      else Some phase
  end.

(** The events of a run with one session at most, used while the
    script holds it and no longer held when the run ends. *)
Definition one_session (es : list event) : Prop :=
  exists phase : nat, accepts once_step 0 es = Some phase /\ phase <> 1.

(** From [s0] to [s] the mapping, the files and the session are the
    same, and no address has been found. *)
Definition steady (s0 s : state) : Prop :=
  email_results s = email_results s0 /\ files s = files s0
  /\ driver s = driver s0 /\ found s = [].

(** An automaton that refuses the export to a CSV file and takes every
    other event. *)
Definition no_csv (u : unit) (e : event) : option unit :=
  match e with
  | Csv _ _ => None
  | _ => Some u
  end.

(** An export to a CSV file. *)
Definition is_csv (e : event) : bool :=
  match e with
  | Csv _ _ => true
  | _ => false
  end.

(** A text that does not begin with white space. *)
Definition starts_clean (s : string) : Prop :=
  match s with
  | String c _ => Py.isspace c = false
  | EmptyString => True
  end.

(** The characters of a text. *)
Definition all_ascii : list ascii := map ascii_of_nat (seq 0 256).

(** What may stand in an encoded query: the characters [quote] leaves
    alone, and the percent sign of its escapes. *)
Definition url_safe (s : string) : bool :=
  forallb (fun c => Url.unreserved c || Ascii.eqb c "%")
          (list_ascii_of_string s).

(** The encodings of two characters that differ: neither begins with
    the other. *)
Definition quote_table : bool :=
  forallb (fun c =>
             forallb (fun c' =>
                        Ascii.eqb c c'
                        || negb (String.prefix (Url.quote_char c)
                                               (Url.quote_char c')))
                     all_ascii)
          all_ascii.

(** The links a run opened, in the order it opened them. *)
Definition opened (es : list event) : list string :=
  flat_map (fun e => match e with
                     | OpenLink _ link => [link]
                     | _ => []
                     end) es.

(** An automaton that holds the links still to open: of the openings of
    a link it takes that of the first of them only. *)
Definition next_link (todo : list string) (e : event)
  : option (list string) :=
  match e with
  | OpenLink _ link =>
      match todo with
      | l :: rest => if String.eqb l link then Some rest else None
      | [] => None
      end
  | _ => Some todo
  end.

(** The result links of the search page that [scrape_emails] is going
    to load in the state [s]. *)
Definition result_links (w : World) (s : state) : list string :=
  match anchors w (loads s) with
  | Some hrefs => Loc.valid_links hrefs
  | None => []
  end.

(** An automaton that refuses the events [bad] picks and takes the
    others. *)
Definition refusing (bad : event -> bool) (u : unit) (e : event)
  : option unit :=
  if bad e then None else Some u.

(** The asking for a session. *)
Definition is_start (e : event) : bool :=
  match e with
  | Start _ => true
  | _ => false
  end.

(** What a second run needs of the first, for a checkpoint at [path]
    that held the mapping [d0] in the files [f0]: the file can be
    written, and it is as the first run found it with nothing recorded
    since, or it holds the dump of the mapping in memory. *)
Definition resumable (path : string) (f0 : Fs.fs) (d0 : Dict.dict)
    (s : state) : Prop :=
  Fs.lookup path (files s) <> Some Fs.Denied
  /\ ((email_results s = d0
       /\ Fs.lookup path (files s) = Fs.lookup path f0)
      \/ synced path s).

(** The browsers that are up after the events [es], when [n] were up
    before them: a set-up that goes through brings one, and so does a
    set-up that fails with its browser up; [driver.quit()] ends one. *)
Fixpoint browsers_up (n : nat) (es : list event) : nat :=
  match es with
  | [] => n
  | e :: es' =>
      browsers_up (match e with
                   | Start true | Stranded => S n
                   | Quit => pred n
                   | _ => n
                   end) es'
  end.

(** The browsers that failed set-ups left up, which nothing holds. *)
Definition stranded (es : list event) : nat :=
  List.length (filter (fun e => match e with
                                | Stranded => true
                                | _ => false
                                end) es).

(** A world where no set-up goes through, each failing at the set-up
    command, with the browser up. *)
Definition stranding : World :=
  {| start := fun _ => false;
     launched := fun _ => true;
     load := fun _ _ => Loaded "" [] "";
     anchors := fun _ => None;
     visit := fun _ _ => BodyFails |}.

(** Every page loads. *)
Definition all_load (w : World) : Prop :=
  forall (k : nat) (url : string),
    exists (first : string) (heights : list nat) (page_html : string),
      load w k url = Loaded first heights page_html.

End Prop_.

(** * Theorems *)

Import Eff Machine Prop_.

(** ** The checkpoint loader *)

Lemma aslocation_load_tolerant (json_loads : string -> option Dict.dict) :
  tolerant json_loads (Aslocation.load_checkpoint json_loads).
Proof.
  intros path s o. subst o.
  unfold Aslocation.load_checkpoint, Fs.exists_, read_text.
  unfold try_except, bind, gets, value, final, events, trace.
  destruct (Fs.lookup path (files s)) as [[c|]|] eqn:E; cbn; rewrite ?E; cbn.
  - destruct (String.eqb (Py.strip c) EmptyString); cbn.
    + auto.
    + destruct (json_loads (Py.strip c)); cbn; auto.
  - auto.
  - auto.
Qed.

(** C5. [load_checkpoint] never raises and leaves the state alone; a path
    with no file gives the empty mapping and no log line, a blank file
    the empty mapping and an informational line, text that is not JSON
    the empty mapping and an error line.  The three scripts agree. *)
Theorem load_checkpoint_tolerant :
  forall json_loads : string -> option Dict.dict,
    tolerant json_loads (Aslocation.load_checkpoint json_loads)
    /\ tolerant json_loads (Loc.load_checkpoint json_loads)
    /\ tolerant json_loads (Keyword001.load_checkpoint json_loads).
Proof.
  intro json_loads.
  repeat split; apply aslocation_load_tolerant.
Qed.

(** ** The address patterns *)

Lemma rep_ext {R : Type} (ic : bool) (cls : list Re.item) (s : string) :
  forall (min : nat) (k k' : string -> option R),
    (forall s', k s' = k' s') -> Re.rep ic cls min s k = Re.rep ic cls min s k'.
Proof.
  induction s as [|c s IH]; intros min k k' E; cbn.
  - now rewrite E.
  - rewrite (IH (pred min) k k' E), E. reflexivity.
Qed.

Lemma run_ext (ic : bool) (r : Re.regex) :
  forall (R : Type) (s : string) (g : Re.capture)
         (k k' : string -> Re.capture -> option R),
    (forall s' g', k s' g' = k' s' g') ->
    Re.run ic r s g k = Re.run ic r s g k'.
Proof.
  induction r; intros R s g k k' E; cbn.
  - apply E.
  - destruct s as [|a s]; [reflexivity|]. now rewrite E.
  - apply IHr1. intros s1 g1. now apply IHr2.
  - rewrite (IHr1 R s g k k' E), (IHr2 R s g k k' E). reflexivity.
  - apply rep_ext. intro s'. apply E.
  - apply IHr. intros s' g'. apply E.
  - now rewrite E.
Qed.

(** A pattern without a group of its own hands the continuation the
    capture it was given. *)
Lemma run_plain (ic : bool) (r : Re.regex) :
  plain r = true ->
  forall (R : Type) (s : string) (g : Re.capture)
         (k : string -> Re.capture -> option R),
    Re.run ic r s g k = Re.run ic r s g (fun s' _ => k s' g).
Proof.
  induction r; cbn; intros P R s g k; try reflexivity; try discriminate.
  - apply andb_prop in P as [P1 P2].
    rewrite (IHr1 P1).
    rewrite (IHr1 P1 R s g
               (fun s1 g1 => Re.run ic r2 s1 g1 (fun s' _ => k s' g))).
    apply run_ext. intros s1 _. apply (IHr2 P2).
  - apply andb_prop in P as [P1 P2].
    now rewrite (IHr1 P1 R s g k), (IHr2 P2 R s g k).
Qed.

Lemma rep_answer {R : Type} (ic : bool) (cls : list Re.item) (s : string) :
  forall (min : nat) (k : string -> option R) (x : R),
    Re.rep ic cls min s k = Some x -> exists s', k s' = Some x.
Proof.
  induction s as [|c s IH]; intros min k x; cbn.
  - destruct (min =? 0)%nat; [eauto | discriminate].
  - destruct (Re.cls_match ic cls c).
    + destruct (Re.rep ic cls (pred min) s k) eqn:E.
      * intros [= ->]. eapply IH; eauto.
      * destruct (min =? 0)%nat; [eauto | discriminate].
    + destruct (min =? 0)%nat; [eauto | discriminate].
Qed.

(** What a match answers is what its continuation answered. *)
Lemma run_answer (ic : bool) (r : Re.regex) :
  forall (R : Type) (s : string) (g : Re.capture)
         (k : string -> Re.capture -> option R) (x : R),
    Re.run ic r s g k = Some x -> exists s' g', k s' g' = Some x.
Proof.
  induction r; intros R s g k x; cbn.
  - eauto.
  - destruct s as [|a s]; [discriminate|].
    destruct (Re.lit_match ic c a); [eauto | discriminate].
  - intro H. apply IHr1 in H as (s1 & g1 & H). now apply IHr2 in H.
  - destruct (Re.run ic r1 s g k) eqn:E.
    + intros [= ->]. now apply IHr1 in E.
    + apply IHr2.
  - intro H. apply rep_answer in H as (s' & H). eauto.
  - intro H. apply IHr in H as (s' & g' & H). eauto.
  - destruct (Re.run ic r s g (fun _ _ => Some tt)); [discriminate | eauto].
Qed.

Lemma match_here_plain (ic : bool) (r : Re.regex) (s rest : string)
    (g : Re.capture) :
  plain r = true -> Re.match_here ic r s = Some (rest, g) -> g = None.
Proof.
  unfold Re.match_here. intros P H.
  rewrite (run_plain ic r P) in H.
  apply run_answer in H as (s' & g' & [= _ <-]). reflexivity.
Qed.

Lemma scan_plain (ic : bool) (r : Re.regex) :
  plain r = true ->
  forall (s : string) (skip : nat),
    Forall (fun m => snd m = None) (Re.scan ic r s skip).
Proof.
  intros P s. induction s as [|c s IH]; intros skip.
  - destruct skip; cbn; [|constructor].
    destruct (Re.match_here ic r EmptyString) as [[rest g]|] eqn:E;
      repeat constructor.
    cbn. eapply match_here_plain; eauto.
  - destruct skip; cbn; [|apply IH].
    destruct (Re.match_here ic r (String c s)) as [[rest g]|] eqn:E;
      [|apply IH].
    constructor; [|apply IH].
    cbn. eapply match_here_plain; eauto.
Qed.

(** With its one group under the lookahead, the pattern makes [findall]
    give the empty string for every match. *)
Lemma findall_guarded (ic : bool) (r : Re.regex) (s : string) :
  plain r = true -> Re.groups r = 1 ->
  Forall (fun x => x = EmptyString) (Re.findall ic r s).
Proof.
  intros P G. unfold Re.findall. rewrite G.
  apply Forall_map.
  eapply Forall_impl; [|apply (scan_plain ic r P)].
  intros [whole g]; cbn. now intros ->.
Qed.

Lemma set_of_blank (xs : list string) :
  Forall (fun x => x = EmptyString) xs ->
  Forall (fun x => x = EmptyString) (Py.set_of xs).
Proof.
  induction 1 as [|x xs Hx H IH]; cbn; [constructor|].
  destruct (Py.mem x (Py.set_of xs)); [assumption | now constructor].
Qed.

(** Whatever the text, [extract_emails] of [loc.py] gives the empty set. *)
Lemma extract_emails_empty (text : string) : Loc.extract_emails text = [].
Proof.
  unfold Loc.extract_emails.
  assert (H : Forall (fun x => x = EmptyString)
                (Py.set_of (Re.findall true Loc.email_pattern text))).
  { apply set_of_blank, findall_guarded; reflexivity. }
  induction H as [|x xs -> H IH]; cbn; [reflexivity | exact IH].
Qed.

(** Whatever the page, the extraction of [aslocation.py] records no
    address: the empty string at most. *)
Lemma page_emails_blank (page_html : string) :
  Forall (fun x => x = EmptyString) (Aslocation.page_emails page_html).
Proof.
  apply set_of_blank, findall_guarded; reflexivity.
Qed.

(** C1 fails on the code.  On the scenario text [extract_emails] of
    [loc.py] gives the empty set, and the extraction of [aslocation.py]
    the set that holds the empty string alone: [re.findall] gives the text
    of the one group of the pattern, which sits under the lookahead and
    takes part in no match.  Neither result is the set that holds
    jane@firm.com alone, and the second holds an empty string. *)
Theorem scenario_not_jane :
  Loc.extract_emails scenario = []
  /\ Aslocation.page_emails scenario = [""]
  /\ ~ same_set (Loc.extract_emails scenario) ["jane@firm.com"]
  /\ ~ same_set (Aslocation.page_emails scenario) ["jane@firm.com"].
Proof.
  assert (E : Aslocation.page_emails scenario = [""])
    by (vm_compute; reflexivity).
  split; [apply extract_emails_empty|]. split; [exact E|].
  split; intro H.
  - rewrite extract_emails_empty in H.
    destruct (proj2 (H "jane@firm.com")) as []. now left.
  - rewrite E in H.
    destruct (proj1 (H "")) as [D|[]]; [now left | discriminate D].
Qed.

(** The pattern by itself, before [re.findall] takes the group out of
    its matches: on the scenario text it matches jane@firm.com and
    logo@cdn.com, in either script. *)
Example scenario_matches :
  Re.matches true Loc.email_pattern scenario
    = ["jane@firm.com"; "logo@cdn.com"]
  /\ Re.matches true Aslocation.email_pattern scenario
    = ["jane@firm.com"; "logo@cdn.com"].
Proof.
  split; vm_compute; reflexivity.
Qed.

(** ** The loaders of the work items *)

Lemma filter_filter {A : Type} (p q : A -> bool) (l : list A) :
  filter p (filter q l) = filter (fun x => q x && p x) l.
Proof.
  induction l as [|a l IH]; cbn; [reflexivity|].
  destruct (q a); cbn; [destruct (p a)|]; now rewrite IH.
Qed.

Lemma mem_spec (x : string) (xs : list string) :
  Py.mem x xs = true <-> In x xs.
Proof.
  unfold Py.mem. rewrite existsb_exists. split.
  - intros (y & Hy & E). apply String.eqb_eq in E. now subst.
  - intro H. exists x. split; [assumption | apply String.eqb_refl].
Qed.

(** The comprehension with its [seen] set keeps the non-empty values
    where they are first seen, but for those seen before. *)
Lemma unique_from_first_seen (xs seen : list string) :
  Aslocation.unique_from seen xs
  = filter (fun y => negb (Py.mem y seen)) (first_seen (filter nonempty xs)).
Proof.
  revert seen. induction xs as [|x xs IH]; intro seen; cbn; [reflexivity|].
  unfold nonempty at 1.
  destruct (negb (String.eqb x EmptyString)) eqn:N; cbn; [|apply IH].
  destruct (Py.mem x seen) eqn:S; cbn.
  - rewrite IH, filter_filter. apply filter_ext_in. intros y _.
    destruct (String.eqb y x) eqn:E; cbn; [|reflexivity].
    apply String.eqb_eq in E. subst y. now rewrite S.
  - f_equal. rewrite IH, filter_filter. apply filter_ext. intro y.
    cbn. unfold Py.mem at 1. cbn. fold (Py.mem y seen).
    now destruct (String.eqb y x), (Py.mem y seen).
Qed.

(** The loader of [aslocation.py] gives the non-empty trimmed values of
    the column, each where it is first seen. *)
Lemma aslocation_loader_first_seen
    (columns : list (string * list Aslocation.cell))
    (name : string) (cells : list Aslocation.cell) :
  find (fun c => String.eqb (fst c) name) columns = Some (name, cells) ->
  Aslocation.load_locations_from_excel (Some columns) name
  = first_seen (filter nonempty (Aslocation.column_values cells)).
Proof.
  intro F. unfold Aslocation.load_locations_from_excel. rewrite F.
  rewrite unique_from_first_seen. apply forallb_filter_id.
  apply forallb_forall. reflexivity.
Qed.

Example austin_austin_denver :
  Aslocation.load_locations_from_excel
    (Some [("Location", [Some "Austin"; Some "Austin"; Some "Denver"])])
    "Location"
  = ["Austin"; "Denver"]
  /\ Dict.fromkeys ["Austin"; "Austin"; "Denver"] = ["Austin"; "Denver"].
Proof. split; reflexivity. Qed.

(** C9 fails on [loc.py]: a cell of blanks in the USA column comes back
    as the empty string, between Austin and Denver. *)
Theorem loc_loader_keeps_blank :
  fst (fst (Loc.load_cities_and_keywords blank_cell_book "Sheet1"))
  = ["Austin"; ""; "Denver"].
Proof. vm_compute. reflexivity. Qed.

(** ** Running the scripts by hand *)

Ltac run :=
  cbv beta iota zeta delta
    [Eff.bind Eff.try_except Eff.finally Eff.handle Eff.issubclass Eff.gets
     Eff.modify Eff.emit Eff.ret Eff.raise Machine.log Machine.sleep
     Machine.read_text Machine.open_w Machine.write
     Eff.value Eff.final Eff.trace Eff.events prepend fst snd];
  cbn [app files email_results driver starts loads visits windows current
       found with_files with_results with_driver next_start next_load
       next_visit with_windows with_found].

Lemma with_files_same (s : state) : with_files (files s) s = s.
Proof. now destruct s. Qed.

Lemma lookup_store (path : string) (x : Fs.file) (f : Fs.fs) :
  Fs.lookup path (Fs.store path x f) = Some x.
Proof.
  induction f as [|[p y] f IH]; cbn.
  - now rewrite String.eqb_refl.
  - destruct (String.eqb p path) eqn:E; cbn; rewrite E;
      [reflexivity | exact IH].
Qed.

Lemma lookup_store_other (path q : string) (x : Fs.file) (f : Fs.fs) :
  q <> path -> Fs.lookup q (Fs.store path x f) = Fs.lookup q f.
Proof.
  intro N. induction f as [|[p y] f IH]; cbn.
  - destruct (String.eqb path q) eqn:E; [|reflexivity].
    apply String.eqb_eq in E. congruence.
  - destruct (String.eqb p path) eqn:E; cbn.
    + apply String.eqb_eq in E. subst p.
      destruct (String.eqb path q) eqn:E'; [|reflexivity].
      apply String.eqb_eq in E'. congruence.
    + now rewrite IH.
Qed.

Lemma pace_app (a b : list (event * state)) :
  pace (a ++ b) = (pace a ++ pace b)%list.
Proof. unfold pace. now rewrite map_app, filter_app. Qed.

Lemma pace_quiet (t : list (event * state)) : quiet t -> pace t = [].
Proof.
  induction 1 as [|[e s] t H _ IH]; [reflexivity|].
  unfold pace in *. cbn in *. now destruct e.
Qed.

Lemma fetches_app (a b : list (event * state)) :
  fetches (a ++ b) = (fetches a ++ fetches b)%list.
Proof. unfold fetches. now rewrite map_app, filter_app. Qed.

Lemma fetches_quiet (t : list (event * state)) : quiet t -> fetches t = [].
Proof.
  induction 1 as [|[e s] t H _ IH]; [reflexivity|].
  unfold fetches in *. cbn in *. now destruct e.
Qed.

(** [save_checkpoint] always returns; it touches the files only, and the
    checkpoint path only. *)
Lemma save_checkpoint_run (d : Dict.dict) (path : string) (s : state) :
  exists t,
    Aslocation.save_checkpoint d path s
    = (Val tt, with_files (saved path d (files s)) s, t)
    /\ quiet t.
Proof.
  unfold Aslocation.save_checkpoint, saved. run.
  destruct (Fs.lookup path (files s)) as [[c|]|] eqn:E; run;
    try rewrite lookup_store; run.
  - eexists; split; [reflexivity | repeat constructor].
  - eexists; split; [now destruct s | repeat constructor].
  - eexists; split; [reflexivity | repeat constructor].
Qed.

(** The same, with the events of the save. *)
Lemma save_checkpoint_events (d : Dict.dict) (path : string) (s : state) :
  exists t,
    Aslocation.save_checkpoint d path s
    = (Val tt, with_files (saved path d (files s)) s, t)
    /\ quiet t
    /\ map fst t = save_events path d (files s).
Proof.
  unfold Aslocation.save_checkpoint, saved, save_events. run.
  destruct (Fs.lookup path (files s)) as [[c|]|] eqn:E; run;
    try rewrite lookup_store; run.
  - eexists; split; [reflexivity | split; [repeat constructor | reflexivity]].
  - eexists; split; [now destruct s|].
    split; [repeat constructor | reflexivity].
  - eexists; split; [reflexivity | split; [repeat constructor | reflexivity]].
Qed.

(** After a save on the files [f], the checkpoint file is as [reflected]
    says. *)
Lemma saved_reflected (path : string) (d : Dict.dict) (f : Fs.fs)
    (s : state) :
  email_results s = d -> files s = saved path d f -> reflected path f s.
Proof.
  intros R F. unfold reflected, synced. rewrite F, R. unfold saved.
  destruct (Fs.lookup path f) as [[c|]|]; try apply lookup_store.
  reflexivity.
Qed.

(** ** Saving the checkpoint *)

(** The steps of a save that can open its file: the file is cut, then
    written, then the save is logged; [s1] is the state in between. *)
Lemma save_checkpoint_steps (d : Dict.dict) (path : string) (s : state) :
  Fs.lookup path (files s) <> Some Fs.Denied ->
  let s1 := with_files (Fs.store path (Fs.Text EmptyString) (files s)) s in
  let s2 := with_files (saved path d (files s)) s in
  Aslocation.save_checkpoint d path s
  = (Val tt, s2,
     [(Truncate path, s1); (Append path (Json.dumps d), s2);
      (Log INFO ("Checkpoint saved to: " ++ path), s2)]).
Proof.
  intros N s1 s2. subst s1 s2.
  unfold Aslocation.save_checkpoint, saved. run.
  destruct (Fs.lookup path (files s)) as [[c|]|] eqn:E; run;
    try rewrite lookup_store; run; try reflexivity.
  now destruct N.
Qed.

(** C6, as stated, fails: the save is not atomic.  With Austin on the
    checkpoint, the save of a mapping with Denver added first cuts the
    file to nothing. *)
Lemma save_not_atomic : ~ atomic_save Aslocation.save_checkpoint.
Proof.
  intro H.
  pose (d := [("Austin", ["info@austin.example"]); ("Denver", [])]).
  specialize (H d Aslocation.CHECKPOINT_FILE _ austin_done eq_refl).
  rewrite (save_checkpoint_steps d Aslocation.CHECKPOINT_FILE austin_done)
    in H by discriminate.
  specialize (H _ _ (or_introl eq_refl)).
  cbn [files with_files] in H. rewrite lookup_store in H.
  destruct H as [H|H]; vm_compute in H; discriminate H.
Qed.

(** C6, amended.  [save_checkpoint] writes in place: it opens the
    checkpoint file itself for writing, which cuts it to nothing, and then
    writes the text of the mapping into it.  No other path is touched.
    Between the two steps the file is empty, and [load_checkpoint] on it
    starts fresh; after them it holds the dump of the mapping. *)
Theorem save_checkpoint_in_place :
  forall (json_loads : string -> option Dict.dict)
         (d : Dict.dict) (path : string) (s : state),
    Fs.lookup path (files s) <> Some Fs.Denied ->
    exists s1 s2 : state,
      Aslocation.save_checkpoint d path s
      = (Val tt, s2,
         [(Truncate path, s1); (Append path (Json.dumps d), s2);
          (Log INFO ("Checkpoint saved to: " ++ path), s2)])
      /\ Loc.save_checkpoint = Aslocation.save_checkpoint
      /\ Keyword001.save_checkpoint = Aslocation.save_checkpoint
      /\ Fs.lookup path (files s1) = Some (Fs.Text EmptyString)
      /\ value (Aslocation.load_checkpoint json_loads path s1) = Val []
      /\ Fs.lookup path (files s2) = Some (Fs.Text (Json.dumps d))
      /\ (forall q, q <> path ->
             Fs.lookup q (files s1) = Fs.lookup q (files s)
             /\ Fs.lookup q (files s2) = Fs.lookup q (files s)).
Proof.
  intros json_loads d path s N.
  eexists. eexists. split; [apply (save_checkpoint_steps d path s N)|].
  assert (L1 : Fs.lookup path
                 (files (with_files
                           (Fs.store path (Fs.Text EmptyString) (files s)) s))
               = Some (Fs.Text EmptyString))
    by (cbn [files with_files]; apply lookup_store).
  repeat split; try reflexivity.
  - exact L1.
  - pose proof (aslocation_load_tolerant json_loads path
                  (with_files
                     (Fs.store path (Fs.Text EmptyString) (files s)) s))
      as [_ T].
    rewrite L1 in T. cbn in T. apply T.
  - unfold saved. cbn [files with_files].
    destruct (Fs.lookup path (files s)) as [[c|]|]; try apply lookup_store.
    now destruct N.
  - cbn [files with_files]. now apply lookup_store_other.
  - unfold saved. cbn [files with_files].
    destruct (Fs.lookup path (files s)) as [[c|]|];
      rewrite ?lookup_store_other by assumption; reflexivity.
Qed.

Lemma save_checkpoint_in_place_witness :
  exists s1 s2 : state,
    Aslocation.save_checkpoint [("Denver", [])] Aslocation.CHECKPOINT_FILE
      austin_done
    = (Val tt, s2,
       [(Truncate Aslocation.CHECKPOINT_FILE, s1);
        (Append Aslocation.CHECKPOINT_FILE (Json.dumps [("Denver", [])]), s2);
        (Log INFO ("Checkpoint saved to: " ++ Aslocation.CHECKPOINT_FILE),
         s2)])
    /\ Fs.lookup Aslocation.CHECKPOINT_FILE (files s1)
       = Some (Fs.Text EmptyString).
Proof.
  destruct (save_checkpoint_in_place (fun _ => None) [("Denver", [])]
              Aslocation.CHECKPOINT_FILE austin_done)
    as (s1 & s2 & E & _ & _ & L & _).
  - vm_compute. discriminate.
  - exists s1, s2. split; [exact E | exact L].
Defined.

(** ** The visit of the result links *)

Ltac run_loc :=
  repeat (cbv - [Loc.extract_emails String.append string_of_nat
                 Loc.search_url Loc.query_of];
          rewrite ?extract_emails_empty).

(** C8 fails on a link that cannot be opened.  The first of two result
    links raises in [window.open]; no window was opened, so the handler's
    [driver.close()] closes the search page itself, the switch back to it
    raises out of the loop, and [scrape_emails] gives up the query: the
    second link is never opened and the session is left without a
    window. *)
Theorem unopened_link_aborts_item :
  forall get_text : string -> string,
    let o := Loc.scrape_emails get_text (two_links OpenFails) plumbers
               fresh_session in
    events o
    = [Get plumbers (Loc.search_url plumbers);
       Sleep 5 8;
       Log INFO ("Extracted 0 emails from search results page for query: "
                 ++ plumbers);
       Log INFO ("Found 2 valid links for query: " ++ plumbers);
       OpenLink plumbers obrien;
       Log ERROR ("Error scraping link " ++ obrien ++ ": ");
       CloseWindow;
       Log ERROR ("Error scraping emails for query '" ++ plumbers ++ "': ")]
    /\ ~ In (OpenLink plumbers second_link) (events o)
    /\ value o = Val []
    /\ windows (final o) = [].
Proof.
  intros get_text o. subst o.
  assert (E : events (Loc.scrape_emails get_text (two_links OpenFails)
                        plumbers fresh_session)
              = [Get plumbers (Loc.search_url plumbers);
                 Sleep 5 8;
                 Log INFO ("Extracted 0 emails from search results page "
                           ++ "for query: " ++ plumbers);
                 Log INFO ("Found 2 valid links for query: " ++ plumbers);
                 OpenLink plumbers obrien;
                 Log ERROR ("Error scraping link " ++ obrien ++ ": ");
                 CloseWindow;
                 Log ERROR ("Error scraping emails for query '" ++ plumbers
                            ++ "': ")]).
  { run_loc. reflexivity. }
  split; [exact E|]. split.
  - rewrite E. cbn. intuition discriminate.
  - split; run_loc; reflexivity.
Qed.

(** The same handler does contain a link that opens and then fails to
    load: its window is closed, the search page has the focus again, and
    the second link is visited. *)
Example unloaded_link_is_contained :
  forall get_text : string -> string,
    let o := Loc.scrape_emails get_text (two_links BodyFails) plumbers
               fresh_session in
    fetches (trace o) = [Get plumbers (Loc.search_url plumbers)]
    /\ filter (fun e => match e with OpenLink _ _ => true | _ => false end)
              (events o)
       = [OpenLink plumbers obrien; OpenLink plumbers second_link]
    /\ value o = Val []
    /\ windows (final o) = [0]
    /\ current (final o) = 0.
Proof.
  intros get_text o. subst o.
  repeat split; run_loc; reflexivity.
Qed.

Lemma below_fresh (c : nat) (ws : list nat) (x : nat) :
  In x ws -> x < S (fold_right Nat.max c ws).
Proof.
  induction ws as [|a ws IH]; cbn; [intros []|].
  intros [->|H]; [lia|]. specialize (IH H). lia.
Qed.

Lemma drop_fresh (c : nat) (ws : list nat) :
  let h := S (fold_right Nat.max c ws) in
  filter (fun x => negb (x =? h)%nat) (ws ++ [h]) = ws.
Proof.
  intro h. rewrite filter_app. cbn. rewrite Nat.eqb_refl. cbn.
  rewrite app_nil_r. apply forallb_filter_id, forallb_forall.
  intros x H. apply below_fresh with (c := c) in H.
  apply negb_true_iff, Nat.eqb_neq. subst h. lia.
Qed.

Lemma fresh_is_last (c : nat) (ws : list nat) :
  let h := S (fold_right Nat.max c ws) in
  rev (ws ++ [h]) = h :: rev ws
  /\ existsb (Nat.eqb h) (ws ++ [h]) = true.
Proof.
  intro h. split.
  - now rewrite rev_app_distr.
  - rewrite existsb_app. cbn. rewrite Nat.eqb_refl. cbn. apply orb_true_r.
Qed.

(** In general: when a link's window opens and its page then fails to
    load, the handler closes the new window and gives the focus back to
    the search page; the windows are as before, and the loop goes on with
    the links that are left. *)
Lemma unloaded_link_contained (get_text : string -> string) (w : World)
    (query link : string) (rest : list string) (s : state) :
  existsb (Nat.eqb (current s)) (windows s) = true ->
  visit w (visits s) link = BodyFails ->
  exists (t : list (event * state)) (s' : state),
    Loc.visit_links get_text w query (current s) (link :: rest) s
    = prepend t (Loc.visit_links get_text w query (current s) rest s')
    /\ windows s' = windows s
    /\ current s' = current s
    /\ found s' = found s
    /\ same s s'.
Proof.
  intros A V.
  destruct (fresh_is_last (current s) (windows s)) as [L X].
  pose proof (drop_fresh (current s) (windows s)) as D.
  cbv zeta in L, X, D.
  cbn [Loc.visit_links].
  unfold Loc.link_body, Loc.window_open, Loc.last_window_handle,
    Loc.switch_to_window, Loc.close, Loc.alive.
  run. rewrite A. run. rewrite V. run. rewrite L. run. rewrite X. run.
  rewrite X. run.
  rewrite D. rewrite A. run.
  match goal with
  | |- context [Loc.visit_links ?a ?b ?c ?d ?e ?st] =>
      destruct (Loc.visit_links a b c d e st) as [[r s3] t3] eqn:E
  end.
  run. eexists [_; _; _; _; _]. eexists. split.
  - rewrite E. run. reflexivity.
  - repeat split.
Qed.

(** ** One attempt of [aslocation.py], case by case *)

Lemma quiet_app (a b : list (event * state)) :
  quiet a -> quiet b -> quiet (a ++ b).
Proof. intros A B. apply Forall_app. now split. Qed.

Lemma aslocation_save_and_export_run (s : state) :
  exists t,
    Aslocation.save_and_export s
    = (Val tt,
       with_files (saved Aslocation.CHECKPOINT_FILE (email_results s)
                         (files s)) s, t)
    /\ quiet t.
Proof.
  unfold Aslocation.save_and_export, Aslocation.export_to_csv. run.
  destruct (save_checkpoint_run (email_results s)
              Aslocation.CHECKPOINT_FILE s) as (t & E & Q).
  rewrite E. run.
  eexists; split; [reflexivity|].
  apply quiet_app; [exact Q | repeat constructor].
Qed.

Lemma aslocation_save_and_export_events (s : state) :
  exists t,
    Aslocation.save_and_export s
    = (Val tt,
       with_files (saved Aslocation.CHECKPOINT_FILE (email_results s)
                         (files s)) s, t)
    /\ quiet t
    /\ map fst t = save_and_export_events (email_results s) (files s).
Proof.
  unfold Aslocation.save_and_export, Aslocation.export_to_csv,
    save_and_export_events.
  run.
  destruct (save_checkpoint_events (email_results s)
              Aslocation.CHECKPOINT_FILE s) as (t & E & Q & Ev).
  rewrite E. run.
  eexists; split; [reflexivity|]. split.
  - apply quiet_app; [exact Q | repeat constructor].
  - rewrite map_app. f_equal. exact Ev.
Qed.

Lemma logged_quiet (t : list (event * state)) : logged t -> quiet t.
Proof.
  apply Forall_impl. intros [e s]; cbn. now destruct e.
Qed.

Lemma load_checkpoint_run (json_loads : string -> option Dict.dict)
    (path : string) (s : state) :
  exists d t,
    Aslocation.load_checkpoint json_loads path s = (Val d, s, t) /\ logged t.
Proof.
  unfold Aslocation.load_checkpoint, Fs.exists_. run.
  destruct (Fs.lookup path (files s)) as [[c|]|] eqn:E; run; rewrite ?E; run.
  - destruct (String.eqb (Py.strip c) EmptyString); run.
    + do 2 eexists; split; [reflexivity | repeat constructor].
    + destruct (json_loads (Py.strip c)); run;
        do 2 eexists; split; try reflexivity; repeat constructor.
  - do 2 eexists; split; [reflexivity | repeat constructor].
  - do 2 eexists; split; [reflexivity | repeat constructor].
Qed.

Section OneAttempt.

Variable w : World.
Variables extension_path extension_path2 : string.
Variables location url : string.


(** A timeout before the last attempt: a log line, the backoff, and on
    to the next attempt with nothing recorded. *)
Lemma timeout_then_retry (attempt : nat) (s : state) :
  load w (loads s) url = Fails TimeoutException ->
  attempt <> Aslocation.MAX_RETRIES - 1 ->
  Aslocation.try_once w extension_path extension_path2 location url
    attempt s
  = (Val Next, next_load s,
     [(Get location url, next_load s);
      (Log ERROR ("Timeout loading search results for " ++ location
                  ++ ". Attempt " ++ string_of_nat (attempt + 1) ++ "/"
                  ++ string_of_nat Aslocation.MAX_RETRIES), next_load s);
      (Sleep 5 10, next_load s)]).
Proof.
  intros L N.
  unfold Aslocation.try_once, Aslocation.attempt_body,
    Aslocation.on_timeout.
  run. rewrite L. run.
  apply Nat.eqb_neq in N. rewrite N. run. reflexivity.
Qed.

(** A timeout at the last attempt: the location is recorded with the
    empty list and the checkpoint saved, then the backoff. *)
Lemma timeout_at_last (s : state) :
  load w (loads s) url = Fails TimeoutException ->
  let s1 := next_load s in
  let d := Dict.set location [] (email_results s) in
  let s2 := with_files (saved Aslocation.CHECKPOINT_FILE d (files s))
              (with_results d s1) in
  exists t,
    Aslocation.try_once w extension_path extension_path2 location url
    (Aslocation.MAX_RETRIES - 1) s
    = (Val Next, s2,
       (Get location url, s1)
         :: (Log ERROR ("Timeout loading search results for " ++ location
                        ++ ". Attempt "
                        ++ string_of_nat (Aslocation.MAX_RETRIES - 1 + 1)
                        ++ "/" ++ string_of_nat Aslocation.MAX_RETRIES), s1)
         :: (Log ERROR ("Max retries reached for " ++ location
                        ++ ". Skipping."), s1)
         :: t ++ [(Sleep 5 10, s2)])%list
    /\ quiet t
    /\ map fst t = save_and_export_events d (files s).
Proof.
  intros L s1 d s2. subst s1 d s2.
  unfold Aslocation.try_once, Aslocation.attempt_body, Aslocation.on_timeout.
  run. rewrite L. run. cbn [Aslocation.MAX_RETRIES Nat.sub Nat.eqb]. run.
  match goal with
  | |- context [Aslocation.save_and_export ?s'] =>
      destruct (aslocation_save_and_export_events s') as (t & E & Q & Ev);
      rewrite E
  end.
  run. exists t. split; [reflexivity | split; [exact Q | exact Ev]].
Qed.

(** A driver error, and the session comes up again: the old session is
    quit, a new one started, and the loop goes to its next attempt with
    nothing recorded and nothing saved. *)
Lemma driver_error_then_restart (attempt : nat) (s : state) :
  load w (loads s) url = Fails WebDriverException ->
  driver s <> None ->
  Fs.exists_ extension_path (files s) = true ->
  Fs.exists_ extension_path2 (files s) = true ->
  start w (starts s) = true ->
  let s1 := next_load s in
  let s2 := next_start s1 in
  let s3 := with_driver (Some (starts s)) s2 in
  Aslocation.try_once w extension_path extension_path2 location url
    attempt s
  = (Val Next, s3,
     [(Get location url, s1);
      (Log ERROR ("WebDriver error for " ++ location ++ ": "), s1);
      (Quit, s1);
      (Start true, s2);
      (Log INFO ("WebDriver restarted. Retrying " ++ location ++ "."), s3)]).
Proof.
  intros L D E1 E2 St s1 s2 s3. subst s1 s2 s3.
  unfold Aslocation.try_once, Aslocation.attempt_body,
    Aslocation.on_webdriver_error, Aslocation.initialize_driver.
  run. rewrite L. run.
  destruct (driver s) as [k|]; [|now destruct D].
  run. rewrite E1, E2. cbn [negb]. run. rewrite St. run. reflexivity.
Qed.

(** A driver error, and no session comes up: the checkpoint and the
    export are saved as they are and the function returns. *)
Lemma driver_error_no_restart (attempt : nat) (s : state) :
  load w (loads s) url = Fails WebDriverException ->
  driver s <> None ->
  Fs.exists_ extension_path (files s) = true ->
  Fs.exists_ extension_path2 (files s) = true ->
  start w (starts s) = false ->
  let s1 := next_load s in
  let s2 := next_start s1 in
  let s3 := with_driver None s2 in
  let s4 := with_files (saved Aslocation.CHECKPOINT_FILE (email_results s)
                              (files s)) s3 in
  exists t,
    Aslocation.try_once w extension_path extension_path2 location url
    attempt s
    = (Val Return, s4,
       (Get location url, s1)
         :: (Log ERROR ("WebDriver error for " ++ location ++ ": "), s1)
         :: (Quit, s1)
         :: (Start false, s2)
         :: stranded_by w (starts s) s2
         ++ (Log ERROR "Error initializing WebDriver: ", s2)
         :: (Log ERROR
               "Failed to restart WebDriver. Saving results and exiting.",
             s3)
         :: t)%list
    /\ quiet t
    /\ map fst t = save_and_export_events (email_results s) (files s).
Proof.
  intros L D E1 E2 St s1 s2 s3 s4. subst s1 s2 s3 s4.
  unfold Aslocation.try_once, Aslocation.attempt_body,
    Aslocation.on_webdriver_error, Aslocation.initialize_driver, stranded_by.
  run. rewrite L. run.
  destruct (driver s) as [k|]; [|now destruct D].
  run. rewrite E1, E2. cbn [negb]. run. rewrite St. run.
  destruct (launched w (starts s)); run;
    match goal with
    | |- context [Aslocation.save_and_export ?s'] =>
        destruct (aslocation_save_and_export_events s') as (t & E & Q & Ev);
        rewrite E
    end;
    run; rewrite app_nil_r; exists t;
    (split; [reflexivity | split; [exact Q | exact Ev]]).
Qed.

(** An error that is neither a timeout nor a driver error goes through
    both handlers. *)
Lemma other_error_escapes (attempt : nat) (s : state) :
  load w (loads s) url = Fails Exception ->
  Aslocation.try_once w extension_path extension_path2 location url
    attempt s
  = (Exc Exception, next_load s, [(Get location url, next_load s)]).
Proof.
  intro L. unfold Aslocation.try_once, Aslocation.attempt_body.
  run. rewrite L. run. reflexivity.
Qed.

End OneAttempt.

(** ** The loops of [aslocation.py] *)

Lemma prepend_nil {A : Type} (o : outcome A) : prepend [] o = o.
Proof. now destruct o as [[r s] t]. Qed.

Lemma prepend_prepend {A : Type} (a b : list (event * state))
    (o : outcome A) :
  prepend a (prepend b o) = prepend (a ++ b) o.
Proof. destruct o as [[r s] t]. unfold prepend. cbn. now rewrite app_assoc. Qed.

(** One round of the attempt loop and what follows it. *)
Lemma attempts_step (w : World) (e1 e2 location url : string)
    (attempt left : nat) (s : state) :
  Aslocation.attempts w e1 e2 location url attempt (S left) s
  = match Aslocation.try_once w e1 e2 location url attempt s with
    | (Val Next, s1, t1) =>
        prepend t1
          (Aslocation.attempts w e1 e2 location url (S attempt) left s1)
    | (Val Break, s1, t1) => (Val Next, s1, t1)
    | (Val Return, s1, t1) => (Val Return, s1, t1)
    | (Exc e, s1, t1) => (Exc e, s1, t1)
    end.
Proof.
  cbn [Aslocation.attempts]. unfold bind at 1.
  destruct (Aslocation.try_once w e1 e2 location url attempt s)
    as [[[[]|e] s1] t1]; run; rewrite ?app_nil_r; try reflexivity.
  now destruct (Aslocation.attempts w e1 e2 location url (S attempt) left s1)
    as [[r s2] t2].
Qed.

(** One round of the loop over the locations and what follows it. *)
Lemma visit_locations_step (w : World) (e1 e2 location : string)
    (rest : list string) (s : state) :
  Aslocation.visit_locations w e1 e2 (location :: rest) s
  = if Dict.has location (email_results s) then
      prepend [(Log INFO ("Skipping already processed location: "
                          ++ location), s)]
        (Aslocation.visit_locations w e1 e2 rest s)
    else
      let line := (Log INFO ("Searching: " ++ Aslocation.query_of location),
                   s) in
      match Aslocation.attempts w e1 e2 location (Aslocation.url_of location)
              0 Aslocation.MAX_RETRIES s with
      | (Val Return, s1, t1) => (Val Return, s1, line :: t1)
      | (Val _, s1, t1) =>
          prepend (line :: t1) (Aslocation.visit_locations w e1 e2 rest s1)
      | (Exc e, s1, t1) => (Exc e, s1, line :: t1)
      end.
Proof.
  cbn [Aslocation.visit_locations]. run.
  destruct (Dict.has location (email_results s)); run.
  - now destruct (Aslocation.visit_locations w e1 e2 rest s) as [[r s2] t2].
  - destruct (Aslocation.attempts w e1 e2 location
                (Aslocation.url_of location) 0 Aslocation.MAX_RETRIES s)
      as [[[[]|e] s1] t1]; run; rewrite ?app_nil_r; try reflexivity;
      now destruct (Aslocation.visit_locations w e1 e2 rest s1)
        as [[r s2] t2].
Qed.

Lemma get_set_same (k : string) (v : list string) (d : Dict.dict) :
  Dict.get k (Dict.set k v d) = Some v.
Proof.
  induction d as [|[k' v'] d IH]; cbn.
  - now rewrite String.eqb_refl.
  - destruct (String.eqb k' k) eqn:E; cbn.
    + now rewrite String.eqb_refl.
    + now rewrite E.
Qed.

Lemma get_set_other (k k' : string) (v : list string) (d : Dict.dict) :
  k' <> k -> Dict.get k (Dict.set k' v d) = Dict.get k d.
Proof.
  intro N. induction d as [|[q v'] d IH]; cbn.
  - destruct (String.eqb k' k) eqn:E; [|reflexivity].
    apply String.eqb_eq in E. congruence.
  - destruct (String.eqb q k') eqn:E; cbn.
    + apply String.eqb_eq in E. subst q.
      destruct (String.eqb k' k) eqn:E'; [|reflexivity].
      apply String.eqb_eq in E'. congruence.
    + now rewrite IH.
Qed.

Lemma has_get (k : string) (d : Dict.dict) :
  Dict.has k d = true <-> Dict.get k d <> None.
Proof.
  induction d as [|[k' v] d IH]; cbn.
  - split; [discriminate | congruence].
  - destruct (String.eqb k' k); cbn; [|exact IH].
    split; [discriminate | reflexivity].
Qed.

Lemma has_false_get (k : string) (d : Dict.dict) :
  Dict.has k d = false <-> Dict.get k d = None.
Proof.
  induction d as [|[k' v] d IH]; cbn.
  - split; reflexivity.
  - destruct (String.eqb k' k); cbn; [|exact IH].
    split; discriminate.
Qed.

(** Three timeouts in a row: three page loads, a backoff after each, the
    location recorded with the empty list, and the loop over. *)
Lemma attempts_all_timeouts (w : World) (e1 e2 location : string)
    (s : state) :
  (forall k, load w k (Aslocation.url_of location) = Fails TimeoutException) ->
  let url := Aslocation.url_of location in
  let d := Dict.set location [] (email_results s) in
  let s' := with_files (saved Aslocation.CHECKPOINT_FILE d (files s))
              (with_results d (next_load (next_load (next_load s)))) in
  exists t,
    Aslocation.attempts w e1 e2 location url 0 Aslocation.MAX_RETRIES s
    = (Val Next, s', t)
    /\ pace t = [Get location url; Sleep 5 10;
                 Get location url; Sleep 5 10;
                 Get location url; Sleep 5 10].
Proof.
  intros L url d s'. subst url d s'.
  unfold Aslocation.MAX_RETRIES.
  rewrite attempts_step, timeout_then_retry by (auto; discriminate).
  rewrite attempts_step, timeout_then_retry by (auto; discriminate).
  rewrite attempts_step.
  destruct (timeout_at_last w e1 e2 location (Aslocation.url_of location)
              (next_load (next_load s)) (L _)) as (t & E & Q & _).
  cbn [Aslocation.MAX_RETRIES Nat.sub] in E. rewrite E.
  cbn [Aslocation.attempts]. run. rewrite app_nil_r.
  eexists. split; [reflexivity|].
  unfold pace. cbn [map fst filter paced].
  rewrite map_app, filter_app.
  fold (pace t). rewrite (pace_quiet t Q). reflexivity.
Qed.

(** ** The loops of [loc.py] *)

Lemma loc_export_run (d : Dict.dict) (csv_file : string) (s : state) :
  exists t, Loc.export_to_csv d csv_file s = (Val tt, s, t) /\ quiet t.
Proof.
  unfold Loc.export_to_csv. run.
  destruct (Loc.export_rows d); run;
    eexists; (split; [reflexivity | repeat constructor]).
Qed.

Lemma loc_save_and_export_run (s : state) :
  exists t,
    Loc.save_and_export s
    = (Val tt,
       with_files (saved Loc.CHECKPOINT_FILE (email_results s) (files s)) s,
       t)
    /\ quiet t.
Proof.
  unfold Loc.save_and_export. run.
  destruct (save_checkpoint_run (email_results s) Loc.CHECKPOINT_FILE s)
    as (t & E & Q).
  change Loc.save_checkpoint with Aslocation.save_checkpoint.
  rewrite E. run.
  match goal with
  | |- context [Loc.export_to_csv ?d ?f ?s'] =>
      destruct (loc_export_run d f s') as (t' & E' & Q'); rewrite E'
  end.
  run. eexists; split; [reflexivity|]. now apply quiet_app.
Qed.

(** A search page that times out, in a session whose window is there:
    [scrape_emails] logs it and returns the empty set; nothing is raised
    to the attempt loop of [main]. *)
Lemma scrape_emails_timeout (get_text : string -> string) (w : World)
    (query : string) (s : state) :
  existsb (Nat.eqb (current s)) (windows s) = true ->
  load w (loads s) (Loc.search_url query) = Fails TimeoutException ->
  let s1 := next_load (with_found [] s) in
  Loc.scrape_emails get_text w query s
  = (Val [], s1,
     [(Get query (Loc.search_url query), s1);
      (Log ERROR ("Timeout loading search results for query: " ++ query),
       s1)]).
Proof.
  intros A L s1. subst s1.
  unfold Loc.scrape_emails, Loc.scrape_body, Loc.alive. run.
  rewrite A. run. rewrite L. run. reflexivity.
Qed.

(** When [scrape_emails] returns, the attempt loop of [main] is over at
    its first round. *)
Lemma loc_attempts_returned (get_text : string -> string) (w : World)
    (paths : list string) (keyword city : string) (left : nat)
    (s s1 : state) (e : list string) (t1 : list (event * state)) :
  Loc.scrape_emails get_text w (Loc.query_of keyword city) s
  = (Val e, s1, t1) ->
  Loc.attempts get_text w paths keyword city 0 (S left) [] s
  = (Val (Next, e), s1, t1).
Proof.
  intro E. cbn [Loc.attempts]. run. rewrite E. run.
  now rewrite !app_nil_r.
Qed.

(** A city whose search returned is recorded, saved and exported, the
    pacing delay follows, and the loop goes on. *)
Lemma visit_cities_recorded (get_text : string -> string)
    (str_key : string -> string -> string) (w : World)
    (paths : list string) (keyword city : string) (rest : list string)
    (s s1 : state) (e : list string) (t1 : list (event * state)) :
  Dict.has (str_key keyword city) (email_results s) = false ->
  Loc.scrape_emails get_text w (Loc.query_of keyword city) s
  = (Val e, s1, t1) ->
  let d := Dict.set (str_key keyword city) (Py.sorted e) (email_results s1) in
  let s2 := with_files (saved Loc.CHECKPOINT_FILE d (files s1))
              (with_results d s1) in
  exists t2,
    Loc.visit_cities get_text str_key w paths keyword (city :: rest) s
    = prepend ((Log INFO ("Scraping emails for keyword: " ++ keyword
                          ++ ", city: " ++ city), s)
                 :: t1 ++ t2 ++ [(Sleep Loc.MIN_DELAY Loc.MAX_DELAY, s2)])
        (Loc.visit_cities get_text str_key w paths keyword rest s2)
    /\ quiet t2.
Proof.
  intros H E d s2. subst d s2.
  cbn [Loc.visit_cities]. run. rewrite H. run.
  unfold Loc.MAX_RETRIES.
  rewrite (loc_attempts_returned get_text w paths keyword city 2 s s1 e t1 E).
  run.
  match goal with
  | |- context [Loc.save_and_export ?s'] =>
      destruct (loc_save_and_export_run s') as (t2 & E2 & Q2); rewrite E2
  end.
  run. exists t2. split; [|exact Q2].
  match goal with
  | |- context [Loc.visit_cities ?a ?b ?c ?d ?e ?f ?st] =>
      destruct (Loc.visit_cities a b c d e f st) as [[r s3] t3]
  end.
  run. now rewrite <- !app_assoc.
Qed.

(** ** Timeouts *)

(** C3, as stated, fails on [loc.py]: with every page load timing out,
    the one city of the campaign is fetched once, not three times, and
    recorded with the empty list. *)
Lemma loc_timeout_one_attempt :
  let o := Loc.campaign (fun _ => None) (fun page => page) plain_key
             (always (Fails TimeoutException)) ["Austin"] ["plumber"]
             (boot loc_files) in
  fetches (trace o)
  = [Get (Loc.query_of "plumber" "Austin")
         (Loc.search_url (Loc.query_of "plumber" "Austin"))]
  /\ List.length (fetches (trace o)) <> Loc.MAX_RETRIES
  /\ Dict.get (plain_key "plumber" "Austin") (email_results (final o))
     = Some [].
Proof.
  vm_compute. repeat split; discriminate.
Qed.

(** C3, amended.  In [aslocation.py] a location whose page load times
    out at every attempt is fetched three times, each fetch followed by
    the backoff of 5 to 10 seconds, then recorded with the empty list and
    the checkpoint saved, and the loop goes on with the next location.  In
    [loc.py] the timeout is caught inside [scrape_emails]: the city is
    fetched once, recorded with the empty list and the checkpoint saved,
    and the loop goes on after the pacing delay.  After the save the
    checkpoint file holds the dump of the mapping with the new key, unless
    it cannot be opened for writing: then the files are as they were. *)
Theorem timeouts_give_up :
  (forall (w : World) (e1 e2 location : string) (rest : list string)
          (s : state),
      Dict.has location (email_results s) = false ->
      (forall k, load w k (Aslocation.url_of location)
                 = Fails TimeoutException) ->
      exists (t : list (event * state)) (s' : state),
        Aslocation.visit_locations w e1 e2 (location :: rest) s
        = prepend t (Aslocation.visit_locations w e1 e2 rest s')
        /\ pace t = [Get location (Aslocation.url_of location); Sleep 5 10;
                     Get location (Aslocation.url_of location); Sleep 5 10;
                     Get location (Aslocation.url_of location); Sleep 5 10]
        /\ Dict.get location (email_results s') = Some []
        /\ email_results s' = Dict.set location [] (email_results s)
        /\ files s'
           = saved Aslocation.CHECKPOINT_FILE (email_results s') (files s)
        /\ reflected Aslocation.CHECKPOINT_FILE (files s) s')
  /\ (forall (get_text : string -> string)
             (str_key : string -> string -> string) (w : World)
             (paths : list string) (keyword city : string)
             (rest : list string) (s : state),
        Dict.has (str_key keyword city) (email_results s) = false ->
        existsb (Nat.eqb (current s)) (windows s) = true ->
        (forall k, load w k (Loc.search_url (Loc.query_of keyword city))
                   = Fails TimeoutException) ->
        exists (t : list (event * state)) (s' : state),
          Loc.visit_cities get_text str_key w paths keyword (city :: rest) s
          = prepend t
              (Loc.visit_cities get_text str_key w paths keyword rest s')
          /\ pace t = [Get (Loc.query_of keyword city)
                           (Loc.search_url (Loc.query_of keyword city));
                       Sleep Loc.MIN_DELAY Loc.MAX_DELAY]
          /\ Dict.get (str_key keyword city) (email_results s') = Some []
          /\ email_results s'
             = Dict.set (str_key keyword city) [] (email_results s)
          /\ files s' = saved Loc.CHECKPOINT_FILE (email_results s') (files s)
          /\ reflected Loc.CHECKPOINT_FILE (files s) s').
Proof.
  split.
  - intros w e1 e2 location rest s H L.
    rewrite visit_locations_step, H.
    destruct (attempts_all_timeouts w e1 e2 location s L) as (t & E & P).
    cbv zeta in E. rewrite E.
    eexists. eexists. split; [reflexivity|]. split; [|split; [|split]].
    + unfold pace in *. cbn [map fst filter paced]. exact P.
    + cbn [email_results with_files with_results]. apply get_set_same.
    + reflexivity.
    + split; [reflexivity|]. eapply saved_reflected; reflexivity.
  - intros get_text str_key w paths keyword city rest s H A L.
    pose proof (scrape_emails_timeout get_text w (Loc.query_of keyword city)
                  s A (L _)) as E.
    cbv zeta in E.
    destruct (visit_cities_recorded get_text str_key w paths keyword city
                rest s _ _ _ H E) as (t2 & E2 & Q2).
    cbv zeta in E2. rewrite E2.
    eexists. eexists. split; [reflexivity|]. split; [|split; [|split]].
    + unfold pace. cbn [map fst filter paced app].
      rewrite map_app, filter_app. fold (pace t2).
      rewrite (pace_quiet t2 Q2). reflexivity.
    + cbn [email_results with_files with_results]. apply get_set_same.
    + reflexivity.
    + split; [reflexivity|]. eapply saved_reflected; reflexivity.
Qed.

Lemma timeouts_give_up_witness :
  (exists (t : list (event * state)) (s' : state),
      Aslocation.visit_locations (always (Fails TimeoutException))
        "a.crx" "b.crx" ["Austin"] (boot two_extensions)
      = prepend t
          (Aslocation.visit_locations (always (Fails TimeoutException))
             "a.crx" "b.crx" [] s')
      /\ pace t = [Get "Austin" (Aslocation.url_of "Austin"); Sleep 5 10;
                   Get "Austin" (Aslocation.url_of "Austin"); Sleep 5 10;
                   Get "Austin" (Aslocation.url_of "Austin"); Sleep 5 10]
      /\ Dict.get "Austin" (email_results s') = Some []
      /\ email_results s' = [("Austin", [])]
      /\ files s'
         = saved Aslocation.CHECKPOINT_FILE (email_results s') two_extensions
      /\ reflected Aslocation.CHECKPOINT_FILE two_extensions s')
  /\ (exists (t : list (event * state)) (s' : state),
        Loc.visit_cities (fun page => page) plain_key
          (always (Fails TimeoutException)) Loc.extension_paths
          "plumber" ["Austin"] fresh_session
        = prepend t
            (Loc.visit_cities (fun page => page) plain_key
               (always (Fails TimeoutException)) Loc.extension_paths
               "plumber" [] s')
        /\ pace t = [Get (Loc.query_of "plumber" "Austin")
                         (Loc.search_url (Loc.query_of "plumber" "Austin"));
                     Sleep Loc.MIN_DELAY Loc.MAX_DELAY]
        /\ Dict.get (plain_key "plumber" "Austin") (email_results s')
           = Some []
        /\ email_results s' = [(plain_key "plumber" "Austin", [])]
        /\ files s' = saved Loc.CHECKPOINT_FILE (email_results s') []
        /\ reflected Loc.CHECKPOINT_FILE [] s').
Proof.
  split.
  - apply (proj1 timeouts_give_up (always (Fails TimeoutException))
             "a.crx" "b.crx" "Austin" [] (boot two_extensions));
      [reflexivity | intro; reflexivity].
  - apply (proj2 timeouts_give_up (fun page => page) plain_key
             (always (Fails TimeoutException)) Loc.extension_paths
             "plumber" "Austin" [] fresh_session);
      [reflexivity | reflexivity | intro; reflexivity].
Defined.

(** ** Driver errors *)

Lemma try_except_trace {A : Type} (m : M A) (hs : list (exn * M A))
    (s : state) :
  exists t, trace (try_except m hs s) = (trace (m s) ++ t)%list.
Proof.
  unfold try_except. destruct (m s) as [[[a|e] s1] t1]; cbn.
  - exists []. now rewrite app_nil_r.
  - destruct (handle hs e s1) as [[r s2] t2]. now exists t2.
Qed.

Lemma trace_gets {A B : Type} (f : state -> A) (k : A -> M B) (s : state) :
  trace (bind (gets f) k s) = trace (k (f s) s).
Proof. unfold bind, gets. cbn. now destruct (k (f s) s) as [[r s2] t2]. Qed.

Lemma trace_modify {B : Type} (g : state -> state) (k : unit -> M B)
    (s : state) :
  trace (bind (modify g) k s) = trace (k tt (g s)).
Proof. unfold bind, modify. cbn. now destruct (k tt (g s)) as [[r s2] t2]. Qed.

Lemma trace_emit {B : Type} (e : event) (k : unit -> M B) (s : state) :
  trace (bind (emit e) k s) = (e, s) :: trace (k tt s).
Proof. unfold bind, emit. cbn. now destruct (k tt s) as [[r s2] t2]. Qed.

(** Whatever the page load comes to, a round of the attempt loop starts
    with the page load. *)
Lemma try_once_first (w : World) (e1 e2 location url : string)
    (attempt : nat) (s : state) :
  exists t,
    trace (Aslocation.try_once w e1 e2 location url attempt s)
    = (Get location url, next_load s) :: t.
Proof.
  unfold Aslocation.try_once.
  match goal with
  | |- context [try_except ?m ?hs s] =>
      destruct (try_except_trace m hs s) as (t & E); rewrite E
  end.
  unfold Aslocation.attempt_body.
  rewrite trace_gets, trace_modify, trace_emit.
  eexists; reflexivity.
Qed.

Lemma trace_bind {A B : Type} (m : M A) (k : A -> M B) (s : state) :
  exists t, trace (bind m k s) = (trace (m s) ++ t)%list.
Proof.
  unfold bind. destruct (m s) as [[[a|e] s1] t1]; cbn.
  - destruct (k a s1) as [[r s2] t2]. now exists t2.
  - exists []. now rewrite app_nil_r.
Qed.

(** A location that is not on the checkpoint is fetched. *)
Lemma visit_locations_fetches (w : World) (e1 e2 location : string)
    (rest : list string) (s : state) :
  Dict.has location (email_results s) = false ->
  In (Get location (Aslocation.url_of location))
     (events (Aslocation.visit_locations w e1 e2 (location :: rest) s)).
Proof.
  intro H.
  change (In (Get location (Aslocation.url_of location))
            (map fst (trace (Aslocation.visit_locations w e1 e2
                               (location :: rest) s)))).
  cbn [Aslocation.visit_locations].
  rewrite trace_gets, H. unfold log. rewrite trace_emit.
  match goal with
  | |- context [trace (bind ?m ?k s)] =>
      destruct (trace_bind m k s) as (t & E); rewrite E
  end.
  unfold Aslocation.MAX_RETRIES. cbn [Aslocation.attempts].
  match goal with
  | |- context [trace (bind ?m ?k s)] =>
      destruct (trace_bind m k s) as (t' & E'); rewrite E'
  end.
  destruct (try_once_first w e1 e2 location (Aslocation.url_of location) 0 s)
    as (t'' & E'').
  rewrite E''. cbn. auto.
Qed.

(** Three driver errors in a row, each followed by a session that comes
    up: three page loads, nothing recorded, no file written. *)
Lemma attempts_all_driver_errors (w : World) (e1 e2 location : string)
    (s : state) :
  (forall k, load w k (Aslocation.url_of location)
             = Fails WebDriverException) ->
  (forall k, start w k = true) ->
  driver s <> None ->
  Fs.exists_ e1 (files s) = true ->
  Fs.exists_ e2 (files s) = true ->
  let url := Aslocation.url_of location in
  exists (t : list (event * state)) (s' : state),
    Aslocation.attempts w e1 e2 location url 0 Aslocation.MAX_RETRIES s
    = (Val Next, s', t)
    /\ fetches t = [Get location url; Get location url; Get location url]
    /\ writes t = []
    /\ email_results s' = email_results s
    /\ files s' = files s
    /\ driver s' <> None.
Proof.
  intros L St D E1 E2 url. subst url.
  unfold Aslocation.MAX_RETRIES.
  rewrite attempts_step, driver_error_then_restart by auto.
  rewrite attempts_step, driver_error_then_restart
    by (auto; cbn; discriminate).
  rewrite attempts_step, driver_error_then_restart
    by (auto; cbn; discriminate).
  cbn [Aslocation.attempts]. run.
  eexists. eexists. split; [reflexivity|].
  repeat split; cbn; discriminate.
Qed.

Lemma bind_val {A B : Type} (m : M A) (k : A -> M B) (s s1 : state) (a : A)
    (t1 : list (event * state)) :
  m s = (Val a, s1, t1) -> bind m k s = prepend t1 (k a s1).
Proof.
  intro E. unfold bind. rewrite E.
  now destruct (k a s1) as [[r s2] t2].
Qed.

Lemma finally_trace {A : Type} (m : M A) (f : M unit) (s : state) :
  exists t, trace (finally m f s) = (trace (m s) ++ t)%list.
Proof.
  unfold finally. destruct (m s) as [[r s1] t1].
  destruct (f s1) as [[[u|e] s2] t2]; now exists t2.
Qed.

Lemma initialize_driver_up (w : World) (e1 e2 : string) (s : state) :
  Fs.exists_ e1 (files s) = true ->
  Fs.exists_ e2 (files s) = true ->
  start w (starts s) = true ->
  Aslocation.initialize_driver w e1 e2 s
  = (Val (Some (starts s)), next_start s, [(Start true, next_start s)]).
Proof.
  intros E1 E2 St. unfold Aslocation.initialize_driver. run.
  rewrite E1, E2. cbn [negb]. run. rewrite St. run. reflexivity.
Qed.

(** The state in which the loop over the locations starts, when the
    checkpoint decoded to [d0] and the first session came up. *)
Lemma scrape_reaches_loop (json_loads : string -> option Dict.dict)
    (w : World) (e1 e2 : string) (locations : list string) (f : Fs.fs) :
  Fs.exists_ e1 f = true ->
  Fs.exists_ e2 f = true ->
  start w 0 = true ->
  exists (d0 : Dict.dict) (t0 : list (event * state)),
    Aslocation.load_checkpoint json_loads Aslocation.CHECKPOINT_FILE (boot f)
    = (Val d0, boot f, t0)
    /\ logged t0
    /\ let s1 := with_driver (Some 0)
                   (next_start (with_driver None (with_results d0 (boot f)))) in
       (exists t3,
          trace (Aslocation.scrape_google_emails json_loads w e1 e2
                   locations (boot f))
          = (t0 ++ (Start true,
                    next_start (with_driver None (with_results d0 (boot f))))
                :: trace (Aslocation.visit_locations w e1 e2 locations s1)
                ++ t3)%list)
       /\ (forall c s2 t,
             Aslocation.visit_locations w e1 e2 locations s1 = (Val c, s2, t) ->
             driver s2 <> None ->
             Aslocation.scrape_google_emails json_loads w e1 e2 locations
               (boot f)
             = (Val (email_results s2), s2,
                (t0 ++ (Start true,
                        next_start (with_driver None
                                      (with_results d0 (boot f))))
                    :: t ++ [(Quit, s2); (Log INFO "Browser closed.", s2)])
                %list)).
Proof.
  intros E1 E2 St.
  destruct (load_checkpoint_run json_loads Aslocation.CHECKPOINT_FILE (boot f))
    as (d0 & t0 & L & Q).
  exists d0, t0. split; [exact L|]. split; [exact Q|].
  set (s0 := with_driver None (with_results d0 (boot f))).
  assert (I : Aslocation.initialize_driver w e1 e2 s0
              = (Val (Some 0), next_start s0, [(Start true, next_start s0)])).
  { apply (initialize_driver_up w e1 e2 s0); assumption. }
  cbv zeta. split.
  - unfold Aslocation.scrape_google_emails.
    rewrite (bind_val _ _ _ _ _ _ L). unfold prepend at 1. cbn [trace snd].
    rewrite trace_modify, trace_modify. fold s0.
    match goal with
    | |- context [trace (bind ?m ?k ?s)] =>
        destruct (trace_bind m k s) as (ta & Ea); rewrite Ea
    end.
    match goal with
    | |- context [trace (finally ?m ?k ?s)] =>
        destruct (finally_trace m k s) as (tb & Eb); rewrite Eb
    end.
    match goal with
    | |- context [trace (try_except ?m ?k ?s)] =>
        destruct (try_except_trace m k s) as (tc & Ec); rewrite Ec
    end.
    rewrite (bind_val _ _ _ _ _ _ I). unfold prepend at 1. cbn [trace snd].
    rewrite trace_modify.
    match goal with
    | |- context [trace (bind ?m ?k ?s)] =>
        destruct (trace_bind m k s) as (td & Ed); rewrite Ed
    end.
    exists (((td ++ tc) ++ tb) ++ ta)%list.
    cbn [app]. now rewrite <- !app_assoc.
  - intros c s2 t V D.
    unfold Aslocation.scrape_google_emails.
    rewrite (bind_val _ _ _ _ _ _ L). run. fold s0.
    rewrite I. run. rewrite V. run.
    destruct (driver s2) as [k|]; [|now destruct D].
    run. rewrite !app_nil_r. reflexivity.
Qed.

Lemma fetches_cons (e : event) (s : state) (t : list (event * state)) :
  fetches ((e, s) :: t)
  = if is_get e then e :: fetches t else fetches t.
Proof. reflexivity. Qed.

Lemma writes_app (a b : list (event * state)) :
  writes (a ++ b) = (writes a ++ writes b)%list.
Proof. unfold writes. now rewrite map_app, filter_app. Qed.

Lemma logged_writes (t : list (event * state)) : logged t -> writes t = [].
Proof.
  induction 1 as [|[e s] t H _ IH]; [reflexivity|].
  unfold writes in *. cbn in *. now destruct e.
Qed.

(** C10.  In [aslocation.py], when the three attempts for a location
    all end in a driver error and every session comes up again, the
    location is fetched three times and the run ends with no file
    written: the checkpoint is as it was loaded, without the location, and
    a later run over the files left behind fetches the location again. *)
Theorem driver_errors_leave_no_record :
  forall (json_loads : string -> option Dict.dict) (w : World)
         (e1 e2 location : string) (f : Fs.fs) (d0 : Dict.dict),
    Fs.exists_ e1 f = true ->
    Fs.exists_ e2 f = true ->
    value (Aslocation.load_checkpoint json_loads Aslocation.CHECKPOINT_FILE
             (boot f)) = Val d0 ->
    Dict.has location d0 = false ->
    (forall k, load w k (Aslocation.url_of location)
               = Fails WebDriverException) ->
    (forall k, start w k = true) ->
    let url := Aslocation.url_of location in
    let o := Aslocation.scrape_google_emails json_loads w e1 e2 [location]
               (boot f) in
    fetches (trace o) = [Get location url; Get location url; Get location url]
    /\ writes (trace o) = []
    /\ files (final o) = f
    /\ value o = Val d0
    /\ Dict.get location d0 = None
    /\ (forall w' : World,
          start w' 0 = true ->
          In (Get location url)
             (events (Aslocation.scrape_google_emails json_loads w' e1 e2
                        [location] (boot (files (final o))))))
    /\ (forall (w' : World) (s : state),
          (forall k, load w' k url = Fails TimeoutException) ->
          Dict.get location
            (email_results
               (final (Aslocation.attempts w' e1 e2 location url 0
                         Aslocation.MAX_RETRIES s)))
          = Some []).
Proof.
  intros json_loads w e1 e2 location f d0 E1 E2 V H L St url o.
  subst url o.
  destruct (scrape_reaches_loop json_loads w e1 e2 [location] f E1 E2 (St 0))
    as (d & t0 & Ld & Q0 & _ & R).
  rewrite Ld in V. cbn in V. injection V as ->.
  set (s1 := with_driver (Some 0)
               (next_start (with_driver None (with_results d0 (boot f))))) in *.
  destruct (attempts_all_driver_errors w e1 e2 location s1 L St)
    as (t & s' & A & F & W & Rs & Fs' & D); try assumption;
    try (cbn; discriminate).
  cbv zeta in A.
  assert (V : Aslocation.visit_locations w e1 e2 [location] s1
              = (Val Next, s',
                 (Log INFO ("Searching: " ++ Aslocation.query_of location), s1)
                   :: t)).
  { rewrite visit_locations_step.
    change (email_results s1) with d0. rewrite H. cbv zeta. rewrite A.
    cbn [Aslocation.visit_locations]. run. now rewrite app_nil_r. }
  rewrite (R _ _ _ V D).
  assert (Ff : files s' = f) by (rewrite Fs'; reflexivity).
  cbn [trace final value fst snd].
  repeat split.
  - rewrite fetches_app, (fetches_quiet t0 (logged_quiet t0 Q0)). cbn [app].
    rewrite !fetches_cons. cbn [is_get].
    rewrite fetches_app, F. reflexivity.
  - rewrite writes_app, (logged_writes t0 Q0). cbn [app].
    unfold writes. cbn [map fst filter is_write].
    rewrite map_app, filter_app. fold (writes t). rewrite W. reflexivity.
  - exact Ff.
  - now rewrite Rs.
  - now apply has_false_get.
  - intros w' St'. rewrite Ff.
    destruct (scrape_reaches_loop json_loads w' e1 e2 [location] f E1 E2 St')
      as (d' & t0' & Ld' & _ & (t3 & T) & _).
    rewrite Ld in Ld'. injection Ld' as <- <-.
    unfold events. fold (@trace state Dict.dict
      (Aslocation.scrape_google_emails json_loads w' e1 e2 [location]
         (boot f))).
    rewrite T, map_app. apply in_or_app. right. cbn [map]. right.
    rewrite map_app. apply in_or_app. left.
    apply (visit_locations_fetches w' e1 e2 location [] s1 H).
  - intros w' s T.
    destruct (attempts_all_timeouts w' e1 e2 location s T) as (t' & E & _).
    cbv zeta in E. rewrite E. cbn. apply get_set_same.
Qed.

Lemma driver_errors_leave_no_record_witness :
  let o := Aslocation.scrape_google_emails (fun _ => None)
             (always (Fails WebDriverException)) "a.crx" "b.crx" ["Austin"]
             (boot two_extensions) in
  List.length (fetches (trace o)) = 3
  /\ writes (trace o) = []
  /\ files (final o) = two_extensions
  /\ value o = Val [].
Proof.
  destruct (driver_errors_leave_no_record (fun _ => None)
              (always (Fails WebDriverException)) "a.crx" "b.crx" "Austin"
              two_extensions [] eq_refl eq_refl eq_refl eq_refl
              (fun _ => eq_refl) (fun _ => eq_refl))
    as (F & W & Fi & V & _).
  cbv zeta. rewrite F. repeat split; assumption.
Defined.

(** ** Recovery of the session *)

(** C7, as stated, fails: a failed restart is not the only thing that
    ends a run.  When the page load of the first location raises an error
    that is neither a timeout nor a driver error, the outer handler of
    [aslocation.py] saves and the function ends: no session start has
    failed, and Denver is neither fetched nor recorded. *)
Lemma other_error_ends_run :
  let o := Aslocation.scrape_google_emails (fun _ => None)
             (always (Fails Exception)) "a.crx" "b.crx" ["Austin"; "Denver"]
             (boot two_extensions) in
  ~ In (Start false) (events o)
  /\ fetches (trace o) = [Get "Austin" (Aslocation.url_of "Austin")]
  /\ Dict.get "Denver" (email_results (final o)) = None
  /\ value o = Val [].
Proof.
  vm_compute. repeat split. intuition discriminate.
Qed.

(** In [keyword001.py] the handler of a driver error ends with the
    [continue] of the loop over the locations: after the restart the next
    fetch is for the next location, and the one that failed is neither
    fetched again nor recorded. *)
Example keyword001_moves_on :
  let w := {| start := fun _ => true;
              launched := fun _ => false;
              load := fun k _ => match k with
                                 | 0 => Fails WebDriverException
                                 | _ => Loaded "" [] ""
                                 end;
              anchors := fun _ => None;
              visit := fun _ _ => BodyFails |} in
  let o := Keyword001.scrape_google_emails (fun _ => None) w "a.crx" "b.crx"
             ["Austin"; "Denver"] "real estate"
             Keyword001.REAL_ESTATE_CHECKPOINT "USA" (boot two_extensions) in
  fetches (trace o)
  = [Get "Austin" (Keyword001.url_of "real estate" "Austin");
     Get "Denver" (Keyword001.url_of "real estate" "Denver")]
  /\ value o = Val [("Denver", [])].
Proof. vm_compute. split; reflexivity. Qed.

(** After a driver error and a restart, with an attempt left, the next
    thing the browser is asked is the same page, in the new session. *)
Lemma restart_then_same_item (w : World) (e1 e2 location url : string)
    (attempt left : nat) (s : state) :
  load w (loads s) url = Fails WebDriverException ->
  driver s <> None ->
  Fs.exists_ e1 (files s) = true ->
  Fs.exists_ e2 (files s) = true ->
  start w (starts s) = true ->
  let s1 := next_load s in
  let s2 := next_start s1 in
  let s3 := with_driver (Some (starts s)) s2 in
  exists t,
    trace (Aslocation.attempts w e1 e2 location url attempt (S (S left)) s)
    = ([(Get location url, s1);
        (Log ERROR ("WebDriver error for " ++ location ++ ": "), s1);
        (Quit, s1);
        (Start true, s2);
        (Log INFO ("WebDriver restarted. Retrying " ++ location ++ "."), s3);
        (Get location url, next_load s3)] ++ t)%list.
Proof.
  intros L D E1 E2 St s1 s2 s3. subst s1 s2 s3.
  rewrite attempts_step, driver_error_then_restart by assumption.
  cbn [Aslocation.attempts].
  match goal with
  | |- context [prepend _ (bind ?m ?k ?s')] =>
      destruct (trace_bind m k s') as (t & E);
      destruct (bind m k s') as [[r s4] t4]
  end.
  cbn [trace snd] in E.
  match type of E with
  | _ = (trace (Aslocation.try_once ?a ?b ?c ?d ?e ?f ?g) ++ _)%list =>
      destruct (try_once_first a b c d e f g) as (t' & E')
  end.
  rewrite E' in E. subst t4.
  unfold prepend. cbn. eexists. reflexivity.
Qed.

Lemma fetches_stranded (w : World) (k : nat) (s : state) :
  fetches (stranded_by w k s) = [].
Proof. unfold stranded_by. now destruct (launched w k). Qed.

Lemma stranded_by_events (w : World) (k : nat) (s : state) :
  map fst (stranded_by w k s) = stranded_events w k.
Proof. unfold stranded_by, stranded_events. now destruct (launched w k). Qed.

(** After a driver error and a failed restart the attempt loop returns:
    the session was quit, the set-up of a new one failed, and the
    checkpoint is saved as it was and the export written. *)
Lemma no_restart_then_return (w : World) (e1 e2 location url : string)
    (attempt left : nat) (s : state) :
  load w (loads s) url = Fails WebDriverException ->
  driver s <> None ->
  Fs.exists_ e1 (files s) = true ->
  Fs.exists_ e2 (files s) = true ->
  start w (starts s) = false ->
  exists (t : list (event * state)) (s' : state),
    Aslocation.attempts w e1 e2 location url attempt (S left) s
    = (Val Return, s', t)
    /\ fetches t = [Get location url]
    /\ email_results s' = email_results s
    /\ files s' = saved Aslocation.CHECKPOINT_FILE (email_results s) (files s)
    /\ driver s' = None
    /\ map fst t
       = ([Get location url;
           Log ERROR ("WebDriver error for " ++ location ++ ": ");
           Quit; Start false]
            ++ stranded_events w (starts s)
            ++ [Log ERROR "Error initializing WebDriver: ";
                Log ERROR
                  "Failed to restart WebDriver. Saving results and exiting."]
            ++ save_and_export_events (email_results s) (files s))%list.
Proof.
  intros L D E1 E2 St.
  destruct (driver_error_no_restart w e1 e2 location url attempt s
              L D E1 E2 St) as (t & E & Q & Ev).
  cbv zeta in E. rewrite attempts_step, E.
  eexists. eexists. split; [reflexivity|].
  repeat split.
  - rewrite !fetches_cons. cbn [is_get].
    rewrite fetches_app, fetches_stranded, !fetches_cons. cbn [is_get app].
    now rewrite (fetches_quiet t Q).
  - cbn [map fst app]. rewrite map_app, stranded_by_events.
    cbn [map fst app]. now rewrite Ev.
Qed.

(** A [return] out of the attempt loop is a [return] out of the loop
    over the locations: the locations that are left are not visited. *)
Lemma return_ends_campaign (w : World) (e1 e2 location : string)
    (rest : list string) (s s' : state) (t : list (event * state)) :
  Dict.has location (email_results s) = false ->
  Aslocation.attempts w e1 e2 location (Aslocation.url_of location) 0
    Aslocation.MAX_RETRIES s = (Val Return, s', t) ->
  Aslocation.visit_locations w e1 e2 (location :: rest) s
  = (Val Return, s',
     (Log INFO ("Searching: " ++ Aslocation.query_of location), s) :: t).
Proof.
  intros H E. now rewrite visit_locations_step, H, E.
Qed.

(** The same in [keyword001.py]: a driver error on a location, and no
    session comes up: the session was quit, the checkpoint is saved as it
    is and the loop over the locations returns. *)
Lemma keyword001_no_restart (w : World)
    (e1 e2 keyword checkpoint_file region_name location : string)
    (rest : list string) (s : state) :
  Dict.has location (email_results s) = false ->
  load w (loads s) (Keyword001.url_of keyword location)
  = Fails WebDriverException ->
  driver s <> None ->
  Fs.exists_ e1 (files s) = true ->
  Fs.exists_ e2 (files s) = true ->
  start w (starts s) = false ->
  exists (t : list (event * state)) (s' : state),
    Keyword001.visit_locations w e1 e2 keyword checkpoint_file region_name
      (location :: rest) s
    = (Val Return, s', t)
    /\ fetches t = [Get location (Keyword001.url_of keyword location)]
    /\ email_results s' = email_results s
    /\ files s' = saved checkpoint_file (email_results s) (files s)
    /\ driver s' = None
    /\ map fst t
       = ([Log INFO ("Searching: " ++ Keyword001.query_of keyword location
                     ++ " (" ++ region_name ++ ")");
           Log INFO ("Constructed URL: " ++ Keyword001.url_of keyword location
                     ++ " (" ++ region_name ++ ")");
           Get location (Keyword001.url_of keyword location);
           Log ERROR ("WebDriver error for " ++ location
                      ++ " (" ++ region_name ++ "): ");
           Quit; Start false;
           Log ERROR "Error initializing WebDriver: ";
           Log ERROR ("Failed to restart WebDriver. Saving current results "
                      ++ "and exiting (" ++ region_name ++ ").")]
            ++ save_events checkpoint_file (email_results s) (files s))%list.
Proof.
  intros H L D E1 E2 St.
  cbn [Keyword001.visit_locations].
  unfold Keyword001.location_body, Keyword001.on_webdriver_error,
    Keyword001.initialize_driver.
  run. rewrite H. run. rewrite L. run.
  destruct (driver s) as [k|]; [|now destruct D].
  run. rewrite E1, E2. cbn [negb]. run. rewrite St. run.
  change Keyword001.save_checkpoint with Aslocation.save_checkpoint.
  match goal with
  | |- context [Aslocation.save_checkpoint ?d ?p ?s'] =>
      destruct (save_checkpoint_events d p s') as (t & E & Q & Ev); rewrite E
  end.
  run. eexists. eexists. split; [reflexivity|].
  rewrite app_nil_r.
  repeat split.
  - rewrite !fetches_cons. cbn [is_get].
    now rewrite ?app_nil_r, (fetches_quiet t Q).
  - cbn [map app]. do 8 f_equal. rewrite ?app_nil_r. exact Ev.
Qed.

(** In [keyword001.py], a driver error on a location and a session that
    comes up again: the session was quit and the new one is in use. *)
Lemma keyword001_restart (w : World)
    (e1 e2 keyword checkpoint_file region_name location : string)
    (rest : list string) (s : state) :
  Dict.has location (email_results s) = false ->
  load w (loads s) (Keyword001.url_of keyword location)
  = Fails WebDriverException ->
  driver s <> None ->
  Fs.exists_ e1 (files s) = true ->
  Fs.exists_ e2 (files s) = true ->
  start w (starts s) = true ->
  let s1 := next_load s in
  let s2 := next_start s1 in
  let s3 := with_driver (Some (starts s)) s2 in
  exists t,
    trace (Keyword001.visit_locations w e1 e2 keyword checkpoint_file
             region_name (location :: rest) s)
    = ([(Log INFO ("Searching: " ++ Keyword001.query_of keyword location
                   ++ " (" ++ region_name ++ ")"), s);
        (Log INFO ("Constructed URL: " ++ Keyword001.url_of keyword location
                   ++ " (" ++ region_name ++ ")"), s);
        (Get location (Keyword001.url_of keyword location), s1);
        (Log ERROR ("WebDriver error for " ++ location
                    ++ " (" ++ region_name ++ "): "), s1);
        (Quit, s1);
        (Start true, s2);
        (Log INFO ("WebDriver restarted. Retrying " ++ location
                   ++ " (" ++ region_name ++ ")."), s3)] ++ t)%list.
Proof.
  intros H L D E1 E2 St s1 s2 s3. subst s1 s2 s3.
  cbn [Keyword001.visit_locations].
  unfold Keyword001.location_body, Keyword001.on_webdriver_error,
    Keyword001.initialize_driver.
  run. rewrite H. run. rewrite L. run.
  destruct (driver s) as [k|]; [|now destruct D].
  run. rewrite E1, E2. cbn [negb]. run. rewrite St. run.
  match goal with
  | |- context [Keyword001.visit_locations ?a ?b ?c ?d ?e ?f ?g ?st] =>
      destruct (Keyword001.visit_locations a b c d e f g st) as [[r s4] t4]
  end.
  run. eexists. reflexivity.
Qed.

(** C7, amended.  On a driver error the session is quit and a new one
    asked for, in [aslocation.py] and in [keyword001.py].  In
    [aslocation.py], when the new session comes up and an attempt of the
    loop is left, the next page load is for the same location, in the new
    session.  When no session comes up, [aslocation.py] saves the
    checkpoint and writes the export as they are, and [keyword001.py]
    saves the checkpoint; the function returns there and the locations
    that are left are not visited. *)
Theorem session_recovery :
  forall (w : World) (e1 e2 location : string) (rest : list string)
         (s : state),
    driver s <> None ->
    Fs.exists_ e1 (files s) = true ->
    Fs.exists_ e2 (files s) = true ->
    (forall attempt left : nat,
        load w (loads s) (Aslocation.url_of location)
        = Fails WebDriverException ->
        start w (starts s) = true ->
        let s3 := with_driver (Some (starts s)) (next_start (next_load s)) in
        exists t,
          trace (Aslocation.attempts w e1 e2 location
                   (Aslocation.url_of location) attempt (S (S left)) s)
          = ([(Get location (Aslocation.url_of location), next_load s);
              (Log ERROR ("WebDriver error for " ++ location ++ ": "),
               next_load s);
              (Quit, next_load s);
              (Start true, next_start (next_load s));
              (Log INFO ("WebDriver restarted. Retrying " ++ location ++ "."),
               s3);
              (Get location (Aslocation.url_of location), next_load s3)]
               ++ t)%list)
    /\ (Dict.has location (email_results s) = false ->
        load w (loads s) (Aslocation.url_of location)
        = Fails WebDriverException ->
        start w (starts s) = false ->
        exists (t : list (event * state)) (s' : state),
          Aslocation.visit_locations w e1 e2 (location :: rest) s
          = (Val Return, s', t)
          /\ fetches t = [Get location (Aslocation.url_of location)]
          /\ email_results s' = email_results s
          /\ files s' = saved Aslocation.CHECKPOINT_FILE (email_results s)
                             (files s)
          /\ driver s' = None
          /\ map fst t
             = ([Log INFO ("Searching: " ++ Aslocation.query_of location);
                 Get location (Aslocation.url_of location);
                 Log ERROR ("WebDriver error for " ++ location ++ ": ");
                 Quit; Start false]
                  ++ stranded_events w (starts s)
                  ++ [Log ERROR "Error initializing WebDriver: ";
                      Log ERROR ("Failed to restart WebDriver. "
                                 ++ "Saving results and exiting.")]
                  ++ save_and_export_events (email_results s) (files s))%list)
    /\ (forall keyword checkpoint_file region_name : string,
          Dict.has location (email_results s) = false ->
          load w (loads s) (Keyword001.url_of keyword location)
          = Fails WebDriverException ->
          start w (starts s) = false ->
          exists (t : list (event * state)) (s' : state),
            Keyword001.visit_locations w e1 e2 keyword checkpoint_file
              region_name (location :: rest) s
            = (Val Return, s', t)
            /\ fetches t = [Get location (Keyword001.url_of keyword location)]
            /\ email_results s' = email_results s
            /\ files s' = saved checkpoint_file (email_results s) (files s)
            /\ driver s' = None
            /\ map fst t
               = ([Log INFO ("Searching: "
                             ++ Keyword001.query_of keyword location
                             ++ " (" ++ region_name ++ ")");
                   Log INFO ("Constructed URL: "
                             ++ Keyword001.url_of keyword location
                             ++ " (" ++ region_name ++ ")");
                   Get location (Keyword001.url_of keyword location);
                   Log ERROR ("WebDriver error for " ++ location
                              ++ " (" ++ region_name ++ "): ");
                   Quit; Start false;
                   Log ERROR "Error initializing WebDriver: ";
                   Log ERROR ("Failed to restart WebDriver. "
                              ++ "Saving current results "
                              ++ "and exiting (" ++ region_name ++ ").")]
                    ++ save_events checkpoint_file (email_results s)
                         (files s))%list)
    /\ (forall keyword checkpoint_file region_name : string,
          Dict.has location (email_results s) = false ->
          load w (loads s) (Keyword001.url_of keyword location)
          = Fails WebDriverException ->
          start w (starts s) = true ->
          let s3 := with_driver (Some (starts s)) (next_start (next_load s)) in
          exists t,
            trace (Keyword001.visit_locations w e1 e2 keyword checkpoint_file
                     region_name (location :: rest) s)
            = ([(Log INFO ("Searching: "
                           ++ Keyword001.query_of keyword location
                           ++ " (" ++ region_name ++ ")"), s);
                (Log INFO ("Constructed URL: "
                           ++ Keyword001.url_of keyword location
                           ++ " (" ++ region_name ++ ")"), s);
                (Get location (Keyword001.url_of keyword location),
                 next_load s);
                (Log ERROR ("WebDriver error for " ++ location
                            ++ " (" ++ region_name ++ "): "), next_load s);
                (Quit, next_load s);
                (Start true, next_start (next_load s));
                (Log INFO ("WebDriver restarted. Retrying " ++ location
                           ++ " (" ++ region_name ++ ")."), s3)]
                 ++ t)%list).
Proof.
  intros w e1 e2 location rest s D E1 E2.
  split; [|split; [|split]].
  - intros attempt left L St.
    apply restart_then_same_item; assumption.
  - intros H L St.
    destruct (no_restart_then_return w e1 e2 location
                (Aslocation.url_of location) 0 2 s L D E1 E2 St)
      as (t & s' & A & F & R & Fi & Dr & Ev).
    eexists. eexists. split.
    + apply return_ends_campaign; [exact H | exact A].
    + repeat split; try assumption.
      cbn [map fst app]. now rewrite Ev.
  - intros keyword checkpoint_file region_name H L St.
    destruct (keyword001_no_restart w e1 e2 keyword checkpoint_file
                region_name location rest s H L D E1 E2 St)
      as (t & s' & V & F & R & Fi & Dr & Ev).
    eexists. eexists. split; [exact V|]. repeat split; assumption.
  - intros keyword checkpoint_file region_name H L St.
    apply keyword001_restart; assumption.
Qed.

Lemma session_recovery_witness :
  (exists t,
      trace (Aslocation.attempts (always (Fails WebDriverException))
               "a.crx" "b.crx" "Austin" (Aslocation.url_of "Austin") 0 3
               started)
      = ([(Get "Austin" (Aslocation.url_of "Austin"), next_load started);
          (Log ERROR ("WebDriver error for " ++ "Austin" ++ ": "),
           next_load started);
          (Quit, next_load started);
          (Start true, next_start (next_load started));
          (Log INFO ("WebDriver restarted. Retrying " ++ "Austin" ++ "."),
           with_driver (Some 1) (next_start (next_load started)));
          (Get "Austin" (Aslocation.url_of "Austin"),
           next_load (with_driver (Some 1)
                        (next_start (next_load started))))] ++ t)%list)
  /\ (exists (t : list (event * state)) (s' : state),
        Aslocation.visit_locations no_restart "a.crx" "b.crx"
          ["Austin"; "Denver"] started
        = (Val Return, s', t)
        /\ fetches t = [Get "Austin" (Aslocation.url_of "Austin")]
        /\ email_results s' = []
        /\ files s' = saved Aslocation.CHECKPOINT_FILE [] two_extensions
        /\ driver s' = None
        /\ In Quit (map fst t)
        /\ In (Start false) (map fst t)
        /\ In (Csv Aslocation.CSV_OUTPUT_FILE []) (map fst t))
  /\ (exists (t : list (event * state)) (s' : state),
        Keyword001.visit_locations no_restart "a.crx" "b.crx" "real estate"
          Keyword001.REAL_ESTATE_CHECKPOINT "USA" ["Austin"; "Denver"] started
        = (Val Return, s', t)
        /\ fetches t = [Get "Austin" (Keyword001.url_of "real estate" "Austin")]
        /\ email_results s' = []
        /\ files s'
           = saved Keyword001.REAL_ESTATE_CHECKPOINT [] two_extensions
        /\ driver s' = None
        /\ In Quit (map fst t)
        /\ In (Start false) (map fst t))
  /\ (exists t,
        trace (Keyword001.visit_locations
                 (always (Fails WebDriverException)) "a.crx" "b.crx"
                 "real estate" Keyword001.REAL_ESTATE_CHECKPOINT "USA"
                 ["Austin"; "Denver"] started)
        = ([(Log INFO ("Searching: "
                       ++ Keyword001.query_of "real estate" "Austin"
                       ++ " (" ++ "USA" ++ ")"), started);
            (Log INFO ("Constructed URL: "
                       ++ Keyword001.url_of "real estate" "Austin"
                       ++ " (" ++ "USA" ++ ")"), started);
            (Get "Austin" (Keyword001.url_of "real estate" "Austin"),
             next_load started);
            (Log ERROR ("WebDriver error for " ++ "Austin"
                        ++ " (" ++ "USA" ++ "): "), next_load started);
            (Quit, next_load started);
            (Start true, next_start (next_load started));
            (Log INFO ("WebDriver restarted. Retrying " ++ "Austin"
                       ++ " (" ++ "USA" ++ ")."),
             with_driver (Some 1) (next_start (next_load started)))]
             ++ t)%list).
Proof.
  assert (D : driver started <> None) by discriminate.
  split; [|split; [|split]].
  - apply (proj1 (session_recovery (always (Fails WebDriverException))
                    "a.crx" "b.crx" "Austin" [] started D eq_refl eq_refl)
             0 1); reflexivity.
  - destruct (proj1 (proj2 (session_recovery no_restart "a.crx" "b.crx"
                              "Austin" ["Denver"] started D eq_refl eq_refl))
                eq_refl eq_refl eq_refl)
      as (t & s' & V & F & R & Fi & Dr & Ev).
    exists t, s'. repeat split; try assumption; rewrite Ev; cbn; tauto.
  - destruct (proj1 (proj2 (proj2 (session_recovery no_restart "a.crx"
                                     "b.crx" "Austin" ["Denver"] started D
                                     eq_refl eq_refl)))
                "real estate" Keyword001.REAL_ESTATE_CHECKPOINT "USA"
                eq_refl eq_refl eq_refl)
      as (t & s' & V & F & R & Fi & Dr & Ev).
    exists t, s'. repeat split; try assumption; rewrite Ev; cbn; tauto.
  - apply (proj2 (proj2 (proj2 (session_recovery
                                  (always (Fails WebDriverException))
                                  "a.crx" "b.crx" "Austin" ["Denver"]
                                  started D eq_refl eq_refl)))
             "real estate" Keyword001.REAL_ESTATE_CHECKPOINT "USA");
      reflexivity.
Defined.

(** ** The rules of the logic *)

Section Rules.

Variable phi : event -> state -> Prop.

Lemma fine_app (a b : list (event * state)) :
  fine phi a -> fine phi b -> fine phi (a ++ b).
Proof. intros A B. apply Forall_app. now split. Qed.

Lemma sound_run {A : Type} (m : M A) (s s' : state) (r : res A)
    (t : list (event * state)) (Q : res A -> state -> Prop) :
  m s = (r, s', t) -> fine phi t -> Q r s' -> sound phi m s Q.
Proof. intros E F H. unfold sound. rewrite E. now split. Qed.

Lemma sound_weaken {A : Type} (m : M A) (s : state)
    (R Q : res A -> state -> Prop) :
  sound phi m s R -> (forall r s', R r s' -> Q r s') -> sound phi m s Q.
Proof. intros [F H] W. split; [exact F | now apply W]. Qed.

Lemma sound_ret {A : Type} (a : A) (s : state) (Q : res A -> state -> Prop) :
  Q (Val a) s -> sound phi (ret a) s Q.
Proof. intro H. split; [constructor | exact H]. Qed.

Lemma sound_raise {A : Type} (e : exn) (s : state)
    (Q : res A -> state -> Prop) :
  Q (Exc e) s -> sound phi (raise e) s Q.
Proof. intro H. split; [constructor | exact H]. Qed.

Lemma sound_emit (e : event) (s : state) (Q : res unit -> state -> Prop) :
  phi e s -> Q (Val tt) s -> sound phi (emit e) s Q.
Proof. intros P H. split; [repeat constructor; exact P | exact H]. Qed.

Lemma sound_gets {A : Type} (f : state -> A) (s : state)
    (Q : res A -> state -> Prop) :
  Q (Val (f s)) s -> sound phi (gets f) s Q.
Proof. intro H. split; [constructor | exact H]. Qed.

Lemma sound_modify (g : state -> state) (s : state)
    (Q : res unit -> state -> Prop) :
  Q (Val tt) (g s) -> sound phi (modify g) s Q.
Proof. intro H. split; [constructor | exact H]. Qed.

Lemma sound_bind {A B : Type} (m : M A) (k : A -> M B) (s : state)
    (R : res A -> state -> Prop) (Q : res B -> state -> Prop) :
  sound phi m s R ->
  (forall a s', R (Val a) s' -> sound phi (k a) s' Q) ->
  (forall e s', R (Exc e) s' -> Q (Exc e) s') ->
  sound phi (bind m k) s Q.
Proof.
  unfold sound, bind. intros [F H] K X.
  destruct (m s) as [[[a|e] s1] t1]; cbn in *.
  - specialize (K a s1 H). destruct (k a s1) as [[r s2] t2]; cbn in *.
    destruct K as [F2 H2]. split; [now apply fine_app | exact H2].
  - split; [exact F | now apply X].
Qed.

Lemma sound_bind_gets {A B : Type} (f : state -> A) (k : A -> M B)
    (s : state) (Q : res B -> state -> Prop) :
  sound phi (k (f s)) s Q -> sound phi (bind (gets f) k) s Q.
Proof.
  unfold sound, bind, gets. cbn.
  now destruct (k (f s) s) as [[r s2] t2].
Qed.

Lemma sound_bind_modify {B : Type} (g : state -> state) (k : unit -> M B)
    (s : state) (Q : res B -> state -> Prop) :
  sound phi (k tt) (g s) Q -> sound phi (bind (modify g) k) s Q.
Proof.
  unfold sound, bind, modify. cbn.
  now destruct (k tt (g s)) as [[r s2] t2].
Qed.

Lemma sound_bind_emit {B : Type} (e : event) (k : unit -> M B)
    (s : state) (Q : res B -> state -> Prop) :
  phi e s -> sound phi (k tt) s Q -> sound phi (bind (emit e) k) s Q.
Proof.
  unfold sound, bind, emit. cbn. intro P.
  destruct (k tt s) as [[r s2] t2]. cbn. intros [F H].
  split; [constructor; assumption | exact H].
Qed.

Lemma sound_bind_ret {A B : Type} (a : A) (k : A -> M B) (s : state)
    (Q : res B -> state -> Prop) :
  sound phi (k a) s Q -> sound phi (bind (ret a) k) s Q.
Proof.
  unfold sound, bind, ret. cbn. now destruct (k a s) as [[r s2] t2].
Qed.

Lemma sound_bind_raise {A B : Type} (e : exn) (k : A -> M B) (s : state)
    (Q : res B -> state -> Prop) :
  Q (Exc e) s -> sound phi (bind (raise e) k) s Q.
Proof. intro H. split; [constructor | exact H]. Qed.

Lemma bind_assoc {A B C : Type} (m : M A) (f : A -> M B) (k : B -> M C)
    (s : state) :
  bind (bind m f) k s = bind m (fun a => bind (f a) k) s.
Proof.
  unfold bind. destruct (m s) as [[[a|e] s1] t1]; [|reflexivity].
  destruct (f a s1) as [[[b|e] s2] t2]; [|reflexivity].
  destruct (k b s2) as [[r s3] t3]. now rewrite app_assoc.
Qed.

Lemma sound_assoc {A B C : Type} (m : M A) (f : A -> M B) (k : B -> M C)
    (s : state) (Q : res C -> state -> Prop) :
  sound phi (bind m (fun a => bind (f a) k)) s Q ->
  sound phi (bind (bind m f) k) s Q.
Proof. unfold sound. now rewrite bind_assoc. Qed.

Lemma sound_try {A : Type} (m : M A) (hs : list (exn * M A)) (s : state)
    (R Q : res A -> state -> Prop) :
  sound phi m s R ->
  (forall a s', R (Val a) s' -> Q (Val a) s') ->
  (forall e s', R (Exc e) s' -> sound phi (handle hs e) s' Q) ->
  sound phi (try_except m hs) s Q.
Proof.
  unfold sound, try_except. intros [F H] V X.
  destruct (m s) as [[[a|e] s1] t1]; cbn in *.
  - split; [exact F | now apply V].
  - specialize (X e s1 H). destruct (handle hs e s1) as [[r s2] t2].
    cbn in *. destruct X as [F2 H2]. split; [now apply fine_app | exact H2].
Qed.

Lemma sound_finally {A : Type} (m : M A) (f : M unit) (s : state)
    (R Q : res A -> state -> Prop) :
  sound phi m s R ->
  (forall r s', R r s' ->
     sound phi f s' (fun r' s'' => match r' with
                                   | Val _ => Q r s''
                                   | Exc e => Q (Exc e) s''
                                   end)) ->
  sound phi (finally m f) s Q.
Proof.
  unfold sound, finally. intros [F H] X.
  destruct (m s) as [[r s1] t1]; cbn in *.
  specialize (X r s1 H). destruct (f s1) as [[[u|e] s2] t2]; cbn in *;
    destruct X as [F2 H2]; (split; [now apply fine_app | exact H2]).
Qed.

(** Events other than page loads are free when [phi] only speaks of
    page loads. *)
Hypothesis phi_calm : forall e s, is_get e = false -> phi e s.

Lemma calm_fine (t : list (event * state)) : calm t -> fine phi t.
Proof. apply Forall_impl. intros [e s]; cbn. apply phi_calm. Qed.

Lemma quiet_calm (t : list (event * state)) : quiet t -> calm t.
Proof. apply Forall_impl. intros [e s]; cbn. now destruct e. Qed.

End Rules.

Lemma sound_bind_run (phi : event -> state -> Prop) {A B : Type}
    (m : M A) (k : A -> M B) (s s1 : state) (a : A)
    (t1 : list (event * state)) (Q : res B -> state -> Prop) :
  m s = (Val a, s1, t1) -> fine phi t1 -> sound phi (k a) s1 Q ->
  sound phi (bind m k) s Q.
Proof.
  intros E F K. unfold sound, bind in *. rewrite E.
  destruct (k a s1) as [[r s2] t2]. destruct K as [F2 H2]. cbn in *.
  split; [now apply fine_app | exact H2].
Qed.

(** One step of a run, by the rule that fits the head of the program. *)
Ltac step :=
  cbv beta;
  lazymatch goal with
  | |- sound _ (bind (bind _ _) _) _ _ => apply sound_assoc
  | |- sound _ (bind (gets _) _) _ _ => apply sound_bind_gets
  | |- sound _ (bind (modify _) _) _ _ => apply sound_bind_modify
  | |- sound _ (bind (ret _) _) _ _ => apply sound_bind_ret
  | |- sound _ (bind (raise _) _) _ _ => apply sound_bind_raise
  | |- sound _ (bind (if ?b then _ else _) _) _ _ => destruct b eqn:?
  | |- sound _ (bind (match ?x with _ => _ end) _) _ _ => destruct x eqn:?
  | |- sound _ (if ?b then _ else _) _ _ => destruct b eqn:?
  | |- sound _ (match ?x with _ => _ end) _ _ => destruct x eqn:?
  | |- sound _ (ret _) _ _ => apply sound_ret
  | |- sound _ (raise _) _ _ => apply sound_raise
  | |- sound _ (gets _) _ _ => apply sound_gets
  | |- sound _ (modify _) _ _ => apply sound_modify
  end.

Lemma scroll_run (h : nat) (hs : list nat) (s : state) :
  exists t, Aslocation.scroll h hs s = (Val tt, s, t) /\ calm t.
Proof.
  revert h. induction hs as [|h' hs IH]; intro h; cbn [Aslocation.scroll]; run.
  - eexists; split; [reflexivity | repeat constructor].
  - destruct (h' =? h)%nat; run.
    + eexists; split; [reflexivity | repeat constructor].
    + destruct (IH h') as (t & E & C). rewrite E.
      eexists; split; [reflexivity | repeat constructor; exact C].
Qed.

Lemma for_each_log_run (lines : list string) (s : state) :
  exists t,
    for_each lines (fun line => log INFO line) s = (Val tt, s, t) /\ calm t.
Proof.
  induction lines as [|l lines IH]; cbn [for_each].
  - eexists; split; [reflexivity | constructor].
  - destruct IH as (t & E & C).
    rewrite (bind_val (log INFO l) _ s s tt [(Log INFO l, s)] eq_refl).
    rewrite E.
    eexists; split; [reflexivity | repeat constructor; exact C].
Qed.

(** ** Invariants of [aslocation.py]

    [I] holds between the work items, [phi] of every event; the
    hypotheses say what the two have to put up with: [I] looks at the
    mapping and the files only, it survives the recording of a location
    that was not on the mapping once the checkpoint is saved, it survives
    a save, and it makes the page load for such a location acceptable. *)
Section AslocationInvariant.

Variable w : World.
Variables e1 e2 : string.
Variable I : state -> Prop.
Variable phi : event -> state -> Prop.

Hypothesis phi_calm : forall e s, is_get e = false -> phi e s.
Hypothesis I_frame : forall s s', same s s' -> I s -> I s'.
Hypothesis phi_get :
  forall location url s,
    I s -> Dict.has location (email_results s) = false ->
    phi (Get location url) s.
Hypothesis I_record :
  forall location v s,
    I s -> Dict.has location (email_results s) = false ->
    let d := Dict.set location v (email_results s) in
    I (with_files (saved Aslocation.CHECKPOINT_FILE d (files s))
         (with_results d s)).
Hypothesis I_saved :
  forall s,
    I s ->
    I (with_files (saved Aslocation.CHECKPOINT_FILE (email_results s)
                     (files s)) s).

Ltac emits :=
  first [ apply sound_bind_emit; [apply phi_calm; reflexivity|]
        | apply sound_emit; [apply phi_calm; reflexivity|] ].

Ltac framed := split; reflexivity.

Lemma save_and_export_sound {B : Type} (k : unit -> M B) (s : state)
    (Q : res B -> state -> Prop) :
  sound phi (k tt)
    (with_files (saved Aslocation.CHECKPOINT_FILE (email_results s)
                   (files s)) s) Q ->
  sound phi (bind Aslocation.save_and_export k) s Q.
Proof.
  destruct (aslocation_save_and_export_run s) as (t & E & C).
  apply (sound_bind_run phi _ _ _ _ _ _ _ E).
  now apply calm_fine, quiet_calm.
Qed.

Ltac go := repeat first [ step | emits ].

Lemma scroll_sound {B : Type} (h : nat) (hs : list nat) (k : unit -> M B)
    (s : state) (Q : res B -> state -> Prop) :
  sound phi (k tt) s Q -> sound phi (bind (Aslocation.scroll h hs) k) s Q.
Proof.
  destruct (scroll_run h hs s) as (t & E & C).
  apply (sound_bind_run phi _ _ _ _ _ _ _ E). now apply calm_fine.
Qed.

Lemma for_each_log_sound {B : Type} (lines : list string)
    (k : unit -> M B) (s : state) (Q : res B -> state -> Prop) :
  sound phi (k tt) s Q ->
  sound phi (bind (for_each lines (fun line => log INFO line)) k) s Q.
Proof.
  destruct (for_each_log_run lines s) as (t & E & C).
  apply (sound_bind_run phi _ _ _ _ _ _ _ E). now apply calm_fine.
Qed.

Lemma save_and_export_last (s : state) (Q : res unit -> state -> Prop) :
  Q (Val tt)
    (with_files (saved Aslocation.CHECKPOINT_FILE (email_results s)
                   (files s)) s) ->
  sound phi Aslocation.save_and_export s Q.
Proof.
  destruct (aslocation_save_and_export_run s) as (t & E & C).
  intro H. apply (sound_run phi _ _ _ _ _ _ E); [|exact H].
  now apply calm_fine, quiet_calm.
Qed.

Lemma try_once_sound (location url : string) (attempt : nat) (s : state) :
  I s -> Dict.has location (email_results s) = false ->
  sound phi (Aslocation.try_once w e1 e2 location url attempt) s
    (fun r s' =>
       I s'
       /\ (r = Val Next -> attempt <> Aslocation.MAX_RETRIES - 1 ->
           Dict.has location (email_results s') = false)).
Proof.
  intros HI H.
  assert (H1 : I (next_load s)) by (apply (I_frame s); [framed | exact HI]).
  unfold Aslocation.try_once.
  apply sound_try with
    (R := fun r s' =>
            match r with
            | Val c => c = Break /\ I s'
            | Exc _ => same s s'
            end).
  - unfold Aslocation.attempt_body.
    step. step. apply sound_bind_emit; [now apply phi_get|].
    go; try framed;
      apply scroll_sound; go; apply for_each_log_sound;
      apply save_and_export_sound; go;
      (split; [reflexivity | apply (I_record location _ (next_load s) H1 H)]).
  - intros c s' [-> HI']. split; [exact HI' | discriminate].
  - intros e s' S'.
    assert (HI' : I s') by (apply (I_frame s); assumption).
    assert (H' : Dict.has location (email_results s') = false)
      by (destruct S' as [-> _]; exact H).
    destruct e; cbn [handle issubclass];
      unfold Aslocation.on_timeout, Aslocation.on_webdriver_error,
        Aslocation.initialize_driver;
      go;
      try (split; [exact HI' | first [discriminate | intros _ _; exact H']]);
      try (split; [apply (I_frame s'); [framed | exact HI']
                  | intros _ _; exact H']);
      apply save_and_export_sound; go.
    1: { split; [apply (I_record location [] s' HI' H')|].
         intros _ N.
         match goal with
         | Hb : (attempt =? _)%nat = true |- _ => apply Nat.eqb_eq in Hb
         end.
         contradiction. }
    all: split; [|discriminate];
      apply (I_frame (with_files
                        (saved Aslocation.CHECKPOINT_FILE
                           (email_results s') (files s')) s'));
      [framed | now apply I_saved].
Qed.

Lemma attempts_sound (location url : string) (left attempt : nat)
    (s : state) :
  attempt + left = Aslocation.MAX_RETRIES ->
  I s -> Dict.has location (email_results s) = false ->
  sound phi (Aslocation.attempts w e1 e2 location url attempt left) s
    (fun _ s' => I s').
Proof.
  revert attempt s. induction left as [|left IH]; intros attempt s N HI H;
    cbn [Aslocation.attempts].
  - now apply sound_ret.
  - eapply sound_bind; [now apply try_once_sound| |].
    + intros c s' [HI' H']. destruct c; try now apply sound_ret.
      destruct left as [|left]; [now apply sound_ret|].
      apply IH; [lia | exact HI'|].
      apply H'; [reflexivity|]. unfold Aslocation.MAX_RETRIES in *. lia.
    + now intros e s' [HI' _].
Qed.

Lemma visit_locations_sound (locations : list string) (s : state) :
  I s ->
  sound phi (Aslocation.visit_locations w e1 e2 locations) s
    (fun _ s' => I s').
Proof.
  revert s. induction locations as [|location rest IH]; intros s HI;
    cbn [Aslocation.visit_locations].
  - now apply sound_ret.
  - step. step.
    + unfold log. emits. now apply IH.
    + unfold log. emits.
      eapply sound_bind; [now apply attempts_sound| |].
      * intros c s' HI'. destruct c; try now apply IH.
        now apply sound_ret.
      * now intros e s' HI'.
Qed.

(** The whole function, from the files as they are: when [I] holds of
    the mapping the checkpoint decodes to, it holds at the end, and every
    event is as [phi] wants it. *)
Lemma scrape_google_emails_sound
    (json_loads : string -> option Dict.dict) (locations : list string)
    (f : Fs.fs) (d0 : Dict.dict) :
  value (Aslocation.load_checkpoint json_loads Aslocation.CHECKPOINT_FILE
           (boot f)) = Val d0 ->
  I (with_results d0 (boot f)) ->
  sound phi (Aslocation.scrape_google_emails json_loads w e1 e2 locations)
    (boot f) (fun _ s' => I s').
Proof.
  intros V HI.
  destruct (load_checkpoint_run json_loads Aslocation.CHECKPOINT_FILE (boot f))
    as (d & t0 & L & Q0).
  rewrite L in V. cbn in V. injection V as ->.
  unfold Aslocation.scrape_google_emails.
  apply (sound_bind_run phi _ _ _ _ _ _ _ L);
    [now apply calm_fine, quiet_calm, logged_quiet|].
  step. step.
  assert (HI0 : I (with_driver None (with_results d0 (boot f))))
    by (apply (I_frame (with_results d0 (boot f))); [framed | exact HI]).
  eapply sound_bind with (R := fun _ s' => I s').
  - eapply sound_finally with (R := fun _ s' => I s').
    + eapply sound_try with (R := fun _ s' => I s').
      * unfold Aslocation.initialize_driver. go; try assumption.
        1: { eapply sound_bind; [apply visit_locations_sound| |].
             - apply (I_frame (with_driver None (with_results d0 (boot f))));
                 [framed | exact HI0].
             - intros c s' HI'. now apply sound_ret.
             - now intros e s' HI'. }
        all: apply (I_frame (with_driver None (with_results d0 (boot f))));
          [framed | exact HI0].
      * now intros a s' HI'.
      * intros e s' HI'. destruct e; cbn [handle issubclass]; unfold log;
          emits; apply save_and_export_last; now apply I_saved.
    + intros r s' HI'. go; unfold log; go; exact HI'.
  - intros a s' HI'. now apply sound_gets.
  - now intros e s' HI'.
Qed.


End AslocationInvariant.

(** ** Invariants of [loc.py] *)

Section LocInvariant.

Variable get_text : string -> string.
Variable str_key : string -> string -> string.
Variable w : World.
Variable keywords : list string.
Variable I : state -> Prop.
Variable phi : event -> state -> Prop.

Hypothesis phi_calm : forall e s, is_get e = false -> phi e s.
Hypothesis I_frame : forall s s', same s s' -> I s -> I s'.
Hypothesis phi_get :
  forall keyword city url s,
    In keyword keywords ->
    I s -> Dict.has (str_key keyword city) (email_results s) = false ->
    phi (Get (Loc.query_of keyword city) url) s.
Hypothesis I_record :
  forall keyword city v s,
    In keyword keywords ->
    I s -> Dict.has (str_key keyword city) (email_results s) = false ->
    let d := Dict.set (str_key keyword city) v (email_results s) in
    I (with_files (saved Loc.CHECKPOINT_FILE d (files s)) (with_results d s)).

Ltac emits :=
  first [ apply sound_bind_emit; [apply phi_calm; reflexivity|]
        | apply sound_emit; [apply phi_calm; reflexivity|] ].

Ltac go := repeat first [ step | emits ].

Ltac sames :=
  unfold same in *;
  cbn [email_results files with_files with_results with_driver next_start
       next_load next_visit with_windows with_found] in *;
  first [ assumption | tauto ].

(** The steps on the windows leave the mapping and the files alone. *)
Lemma close_sound (s0 s : state) :
  same s0 s -> sound phi Loc.close s (fun _ s' => same s0 s').
Proof. intro S. unfold Loc.close, Loc.alive. go; sames. Qed.

Lemma switch_sound (h : nat) (s0 s : state) :
  same s0 s -> sound phi (Loc.switch_to_window h) s (fun _ s' => same s0 s').
Proof. intro S. unfold Loc.switch_to_window. go; sames. Qed.

Lemma link_body_sound (query link : string) (original_window : nat)
    (s0 s : state) :
  same s0 s ->
  sound phi (Loc.link_body get_text w query link original_window) s
    (fun _ s' => same s0 s').
Proof.
  intro S.
  unfold Loc.link_body, Loc.window_open, Loc.last_window_handle,
    Loc.switch_to_window, Loc.close, Loc.alive, log, sleep.
  go; sames.
Qed.

Lemma visit_links_sound (query : string) (original_window : nat)
    (links : list string) (s0 s : state) :
  same s0 s ->
  sound phi (Loc.visit_links get_text w query original_window links) s
    (fun _ s' => same s0 s').
Proof.
  revert s. induction links as [|link rest IH]; intros s S;
    cbn [Loc.visit_links].
  - apply sound_ret. exact S.
  - eapply sound_bind with (R := fun _ s' => same s0 s').
    + eapply sound_try with (R := fun _ s' => same s0 s').
      * now apply link_body_sound.
      * now intros a s' S'.
      * intros e s' S'.
        replace (handle _ e) with
          (log ERROR ("Error scraping link " ++ link ++ ": ");;
           try_except Loc.close [(Exception, ret tt)];;
           Loc.switch_to_window original_window)%eff
          by now destruct e.
        unfold log. emits.
        eapply sound_bind with (R := fun _ s'' => same s0 s'').
        -- eapply sound_try with (R := fun _ s'' => same s0 s'').
           ++ now apply close_sound.
           ++ now intros a s'' S''.
           ++ intros e' s'' S''. destruct e'; cbn [handle issubclass];
                now apply sound_ret.
        -- intros a s'' S''. now apply switch_sound.
        -- now intros e' s'' S''.
    + intros a s' S'. now apply IH.
    + now intros e s' S'.
Qed.

Lemma scrape_emails_sound (keyword city : string) (s : state) :
  In keyword keywords ->
  I s -> Dict.has (str_key keyword city) (email_results s) = false ->
  sound phi (Loc.scrape_emails get_text w (Loc.query_of keyword city)) s
    (fun r s' => same s s' /\ exists e, r = Val e).
Proof.
  intros K HI H. unfold Loc.scrape_emails. step.
  eapply sound_try with (R := fun _ s' => same s s').
  - unfold Loc.scrape_body. step. step.
    apply sound_bind_emit.
    { apply phi_get;
        [exact K | apply (I_frame s); [sames | exact HI] | exact H]. }
    unfold Loc.alive, Loc.current_window_handle, Loc.alive, log, sleep.
    go; try sames;
      (eapply sound_bind with (R := fun _ s' => same s s');
       [apply visit_links_sound; sames
       | intros a s' S'; go; sames
       | now intros e s' S']).
  - intros a s' S'. split; [exact S' | now exists a].
  - intros e s' S'.
    destruct e; cbn [handle issubclass]; unfold log; go;
      (split; [exact S' | now eexists]).
Qed.

(** [scrape_emails] never raises, so the attempt loop of [main] is over
    after its first round, with nothing recorded yet. *)
Lemma loc_attempts_sound (paths : list string) (keyword city : string)
    (left : nat) (s : state) :
  In keyword keywords ->
  I s -> Dict.has (str_key keyword city) (email_results s) = false ->
  sound phi (Loc.attempts get_text w paths keyword city 0 (S left) []) s
    (fun r s' => same s s' /\ exists e, r = Val (Next, e)).
Proof.
  intros K HI H. cbn [Loc.attempts].
  eapply sound_bind
    with (R := fun r s' => same s s' /\ exists e, r = Val (Break, e)).
  - eapply sound_try
      with (R := fun r s' => same s s' /\ exists e, r = Val (Break, e)).
    + eapply sound_bind; [now apply scrape_emails_sound| |].
      * intros a s' [S' _]. apply sound_ret. split; [exact S' | now exists a].
      * intros e s' [_ [x X]]. discriminate X.
    + now intros a s' X.
    + intros e s' [_ [x X]]. discriminate X.
  - intros a s' [S' [e E]]. injection E as ->. cbn [fst snd].
    apply sound_ret. split; [exact S' | now exists e].
  - intros e s' [_ [x X]]. discriminate X.
Qed.

Lemma loc_save_and_export_sound {B : Type} (k : unit -> M B) (s : state)
    (Q : res B -> state -> Prop) :
  sound phi (k tt)
    (with_files (saved Loc.CHECKPOINT_FILE (email_results s) (files s)) s) Q ->
  sound phi (bind Loc.save_and_export k) s Q.
Proof.
  destruct (loc_save_and_export_run s) as (t & E & C).
  apply (sound_bind_run phi _ _ _ _ _ _ _ E).
  now apply calm_fine, quiet_calm.
Qed.

Lemma visit_cities_sound (paths : list string) (keyword : string)
    (cities : list string) (s : state) :
  In keyword keywords ->
  I s ->
  sound phi (Loc.visit_cities get_text str_key w paths keyword cities) s
    (fun _ s' => I s').
Proof.
  intro K. revert s. induction cities as [|city rest IH]; intros s HI;
    cbn [Loc.visit_cities].
  - now apply sound_ret.
  - step. step; unfold log; emits; [now apply IH|].
    unfold Loc.MAX_RETRIES.
    eapply sound_bind; [now apply (loc_attempts_sound paths keyword city 2)| |].
    + intros [c e] s' [S' [x X]]. injection X as -> ->. cbn [fst snd].
      assert (HI' : I s') by now apply (I_frame s).
      assert (H' : Dict.has (str_key keyword city) (email_results s') = false)
        by (destruct S' as [-> _]; assumption).
      step. apply loc_save_and_export_sound. unfold sleep. emits.
      apply IH. now apply (I_record keyword city _ s' K HI' H').
    + intros e s' [_ [x X]]. discriminate X.
Qed.

Lemma visit_keywords_sound (paths : list string) (todo cities : list string)
    (s : state) :
  incl todo keywords ->
  I s ->
  sound phi (Loc.visit_keywords get_text str_key w paths todo cities) s
    (fun _ s' => I s').
Proof.
  revert s. induction todo as [|keyword rest IH]; intros s N HI;
    cbn [Loc.visit_keywords].
  - now apply sound_ret.
  - eapply sound_bind;
      [apply visit_cities_sound; [apply N; now left | exact HI]| |].
    + intros c s' HI'. destruct c; try now apply sound_ret.
      * apply IH; [|exact HI']. intros x X. apply N. now right.
      * apply IH; [|exact HI']. intros x X. apply N. now right.
    + now intros e s' HI'.
Qed.

Lemma load_extensions_run (f : Fs.fs) (paths : list string) (s : state) :
  exists b t, Loc.load_extensions f paths s = (Val b, s, t) /\ calm t.
Proof.
  induction paths as [|p paths IH]; cbn [Loc.load_extensions].
  - do 2 eexists; split; [reflexivity | constructor].
  - destruct (Fs.exists_ p f).
    + destruct IH as (b & t & E & C).
      rewrite (bind_val (log INFO ("Loading extension: " ++ p)) _ s s tt
                 [(Log INFO ("Loading extension: " ++ p), s)] eq_refl).
      rewrite E.
      do 2 eexists; split; [reflexivity | repeat constructor; exact C].
    + run. do 2 eexists; split; [reflexivity | repeat constructor].
Qed.

Lemma setup_driver_sound (paths : list string) (s : state) :
  sound phi (Loc.setup_driver w paths) s (fun _ s' => same s s').
Proof.
  unfold Loc.setup_driver. step.
  destruct (load_extensions_run (files s) paths s) as (b & t & E & C).
  apply (sound_bind_run phi _ _ _ _ _ _ _ E); [now apply calm_fine|].
  unfold log. go; sames.
Qed.

(** The campaign, from the files as they are. *)
Lemma campaign_sound (json_loads : string -> option Dict.dict)
    (all_cities todo : list string) (f : Fs.fs) (d0 : Dict.dict) :
  incl (firstn 1 todo) keywords ->
  value (Loc.load_checkpoint json_loads Loc.CHECKPOINT_FILE (boot f))
  = Val d0 ->
  I (with_results d0 (boot f)) ->
  sound phi (Loc.campaign json_loads get_text str_key w all_cities todo)
    (boot f) (fun _ s' => I s').
Proof.
  intros N V HI.
  destruct (load_checkpoint_run json_loads Loc.CHECKPOINT_FILE (boot f))
    as (d & t0 & L & Q0).
  change Loc.load_checkpoint with Aslocation.load_checkpoint in V.
  rewrite L in V. cbn in V. injection V as ->.
  unfold Loc.campaign.
  change Loc.load_checkpoint with Aslocation.load_checkpoint.
  apply (sound_bind_run phi _ _ _ _ _ _ _ L);
    [now apply calm_fine, quiet_calm, logged_quiet|].
  step.
  eapply sound_bind; [apply setup_driver_sound| |].
  - intros drv s' S'.
    assert (HI' : I s') by now apply (I_frame (with_results d0 (boot f))).
    step. assert (HI2 : I (with_driver drv s'))
      by (apply (I_frame s'); [sames | exact HI']).
    unfold log. step; [|emits; exact HI2].
    eapply sound_finally with (R := fun _ s'' => I s'').
    + eapply sound_try with (R := fun _ s'' => I s'').
      * eapply sound_bind; [now apply visit_keywords_sound| |].
        -- intros c s'' HI''. go; exact HI''.
        -- now intros e s'' HI''.
      * now intros a s'' HI''.
      * intros e s'' HI''. destruct e; cbn [handle issubclass];
          emits; exact HI''.
    + intros r s'' HI''. go; exact HI''.
  - intros e s' S'. now apply (I_frame (with_results d0 (boot f))).
Qed.

End LocInvariant.

(** ** The skip rule *)

Lemma fine_events (phi : event -> state -> Prop) (e : event)
    (t : list (event * state)) :
  fine phi t -> In e (map fst t) -> exists s, In (e, s) t /\ phi e s.
Proof.
  intros F H. apply in_map_iff in H as ([e' s] & E & H). cbn in E. subst e'.
  exists s. split; [exact H|].
  unfold fine in F. rewrite Forall_forall in F. apply (F _ H).
Qed.

Lemma has_true_get (k : string) (d : Dict.dict) :
  Dict.has k d = true -> Dict.get k d <> None.
Proof. apply has_get. Qed.

Lemma absent_is_other (k k' : string) (d d0 : Dict.dict) :
  Dict.has k d0 = true -> Dict.get k d = Dict.get k d0 ->
  Dict.has k' d = false -> k' <> k.
Proof.
  intros P E A ->. apply has_false_get in A. apply has_true_get in P.
  congruence.
Qed.

Lemma append_cancel_l (a x y : string) : a ++ x = a ++ y -> x = y.
Proof.
  induction a as [|c a IH]; cbn; [trivial|]. intros [= E]. now apply IH.
Qed.

Lemma append_cancel_last (c : ascii) (x y : string) :
  x ++ String c EmptyString = y ++ String c EmptyString -> x = y.
Proof.
  revert y. induction x as [|a x IH]; intros [|b y]; cbn; intro E.
  - reflexivity.
  - injection E as _ E. now destruct y.
  - injection E as _ E. now destruct x.
  - injection E as -> E. f_equal. now apply IH.
Qed.

(** For one keyword, two cities give two queries. *)
Lemma query_of_city (keyword city city' : string) :
  Loc.query_of keyword city = Loc.query_of keyword city' -> city = city'.
Proof.
  unfold Loc.query_of. intro E.
  apply append_cancel_l, append_cancel_l in E. cbn in E.
  injection E as E. now apply append_cancel_last in E.
Qed.

Lemma aslocation_skips (json_loads : string -> option Dict.dict)
    (w : World) (e1 e2 : string) (locations : list string) (f : Fs.fs)
    (d0 : Dict.dict) (K : string) :
  value (Aslocation.load_checkpoint json_loads Aslocation.CHECKPOINT_FILE
           (boot f)) = Val d0 ->
  Dict.has K d0 = true ->
  let o := Aslocation.scrape_google_emails json_loads w e1 e2 locations
             (boot f) in
  (forall url, ~ In (Get K url) (events o))
  /\ Dict.get K (email_results (final o)) = Dict.get K d0.
Proof.
  intros V P o.
  pose (I := fun s : state => Dict.get K (email_results s) = Dict.get K d0).
  pose (phi := fun (e : event) (_ : state) => forall url, e <> Get K url).
  assert (C : forall e s, is_get e = false -> phi e s).
  { intros e s G url ->. discriminate G. }
  assert (Fr : forall s s', same s s' -> I s -> I s').
  { intros s s' [R _] E. unfold I. now rewrite R. }
  assert (G : forall location url s,
             I s -> Dict.has location (email_results s) = false ->
             phi (Get location url) s).
  { intros location url s E A url' [= -> _].
    now apply (absent_is_other K K (email_results s) d0 P E A). }
  assert (Rec : forall location v s,
             I s -> Dict.has location (email_results s) = false ->
             let d := Dict.set location v (email_results s) in
             I (with_files (saved Aslocation.CHECKPOINT_FILE d (files s))
                  (with_results d s))).
  { intros location v s E A. unfold I. cbn.
    rewrite get_set_other; [exact E|].
    apply (absent_is_other K location (email_results s) d0 P E A). }
  assert (Sv : forall s,
             I s ->
             I (with_files (saved Aslocation.CHECKPOINT_FILE (email_results s)
                              (files s)) s)).
  { intros s E. exact E. }
  destruct (scrape_google_emails_sound w e1 e2 I phi C Fr G Rec Sv
              json_loads locations f d0 V eq_refl) as [F H].
  split; [|exact H].
  intros url In_. apply (fine_events _ _ _ F) in In_ as (s & _ & N).
  now apply (N url).
Qed.

Lemma loc_skips (json_loads : string -> option Dict.dict)
    (get_text : string -> string) (str_key : string -> string -> string)
    (w : World) (all_cities keywords : list string) (f : Fs.fs)
    (d0 : Dict.dict) (keyword city : string) :
  value (Loc.load_checkpoint json_loads Loc.CHECKPOINT_FILE (boot f))
  = Val d0 ->
  In keyword (firstn 1 keywords) ->
  Dict.has (str_key keyword city) d0 = true ->
  let o := Loc.campaign json_loads get_text str_key w all_cities keywords
             (boot f) in
  (forall url, ~ In (Get (Loc.query_of keyword city) url) (events o))
  /\ Dict.get (str_key keyword city) (email_results (final o))
     = Dict.get (str_key keyword city) d0.
Proof.
  intros V K P o.
  assert (One : forall k, In k (firstn 1 keywords) -> k = keyword).
  { destruct keywords as [|k0 ks]; [destruct K|].
    cbn in *. intros k [<-|[]]. now destruct K as [<-|[]]. }
  pose (I := fun s : state =>
               Dict.get (str_key keyword city) (email_results s)
               = Dict.get (str_key keyword city) d0).
  pose (phi := fun (e : event) (_ : state) =>
                 forall url, e <> Get (Loc.query_of keyword city) url).
  assert (C : forall e s, is_get e = false -> phi e s).
  { intros e s G url ->. discriminate G. }
  assert (Fr : forall s s', same s s' -> I s -> I s').
  { intros s s' [R _] E. unfold I. now rewrite R. }
  assert (G : forall k c url s,
             In k (firstn 1 keywords) ->
             I s -> Dict.has (str_key k c) (email_results s) = false ->
             phi (Get (Loc.query_of k c) url) s).
  { intros k c url s Hk E A url' [= Q _].
    apply One in Hk. subst k. apply query_of_city in Q. subst c.
    now apply (absent_is_other _ _ (email_results s) d0 P E A). }
  assert (Rec : forall k c v s,
             In k (firstn 1 keywords) ->
             I s -> Dict.has (str_key k c) (email_results s) = false ->
             let d := Dict.set (str_key k c) v (email_results s) in
             I (with_files (saved Loc.CHECKPOINT_FILE d (files s))
                  (with_results d s))).
  { intros k c v s Hk E A. unfold I. cbn.
    rewrite get_set_other; [exact E|].
    apply (absent_is_other _ _ (email_results s) d0 P E A). }
  destruct (campaign_sound get_text str_key w (firstn 1 keywords) I phi
              C Fr G Rec json_loads all_cities keywords f d0
              (incl_refl _) V eq_refl) as [F H].
  split; [|exact H].
  intros url In_. apply (fine_events _ _ _ F) in In_ as (s & _ & N).
  now apply (N url).
Qed.

(** C2.  A key that is on the checkpoint when the run starts is never
    fetched, and its entry is the same when the run ends: in
    [aslocation.py] for any list of locations, in [loc.py] for the key of
    a keyword and a city of the campaign. *)
Theorem skip_rule :
  (forall (json_loads : string -> option Dict.dict) (w : World)
          (e1 e2 : string) (locations : list string) (f : Fs.fs)
          (d0 : Dict.dict) (K : string),
      value (Aslocation.load_checkpoint json_loads Aslocation.CHECKPOINT_FILE
               (boot f)) = Val d0 ->
      Dict.has K d0 = true ->
      let o := Aslocation.scrape_google_emails json_loads w e1 e2 locations
                 (boot f) in
      (forall url, ~ In (Get K url) (events o))
      /\ Dict.get K (email_results (final o)) = Dict.get K d0)
  /\ (forall (json_loads : string -> option Dict.dict)
             (get_text : string -> string)
             (str_key : string -> string -> string) (w : World)
             (all_cities keywords : list string) (f : Fs.fs)
             (d0 : Dict.dict) (keyword city : string),
        value (Loc.load_checkpoint json_loads Loc.CHECKPOINT_FILE (boot f))
        = Val d0 ->
        In keyword (firstn 1 keywords) ->
        Dict.has (str_key keyword city) d0 = true ->
        let o := Loc.campaign json_loads get_text str_key w all_cities
                   keywords (boot f) in
        (forall url, ~ In (Get (Loc.query_of keyword city) url) (events o))
        /\ Dict.get (str_key keyword city) (email_results (final o))
           = Dict.get (str_key keyword city) d0).
Proof.
  split.
  - apply aslocation_skips.
  - apply loc_skips.
Qed.

Lemma skip_rule_witness :
  (let o := Aslocation.scrape_google_emails
              (decodes_to [("Austin", ["info@austin.example"])])
              (always (Loaded "" [] "")) "a.crx" "b.crx" ["Austin"; "Denver"]
              (boot (with_checkpoint two_extensions)) in
   (forall url, ~ In (Get "Austin" url) (events o))
   /\ Dict.get "Austin" (email_results (final o))
      = Some ["info@austin.example"])
  /\ (let o := Loc.campaign
                 (decodes_to [(plain_key "plumber" "Austin", [])])
                 (fun page => page) plain_key (always (Loaded "" [] ""))
                 ["Austin"; "Denver"] ["plumber"]
                 (boot (with_checkpoint loc_files)) in
      (forall url,
          ~ In (Get (Loc.query_of "plumber" "Austin") url) (events o))
      /\ Dict.get (plain_key "plumber" "Austin") (email_results (final o))
         = Some []).
Proof.
  split.
  - apply (proj1 skip_rule (decodes_to [("Austin", ["info@austin.example"])])
             (always (Loaded "" [] "")) "a.crx" "b.crx" ["Austin"; "Denver"]
             (with_checkpoint two_extensions)
             [("Austin", ["info@austin.example"])] "Austin");
      reflexivity.
  - apply (proj2 skip_rule (decodes_to [(plain_key "plumber" "Austin", [])])
             (fun page => page) plain_key (always (Loaded "" [] ""))
             ["Austin"; "Denver"] ["plumber"] (with_checkpoint loc_files)
             [(plain_key "plumber" "Austin", [])] "plumber" "Austin");
      [reflexivity | now left | reflexivity].
Defined.

(** ** Write-through *)

Lemma saved_lookup (path : string) (d : Dict.dict) (f : Fs.fs) :
  Fs.lookup path f <> Some Fs.Denied ->
  Fs.lookup path (saved path d f) = Some (Fs.Text (Json.dumps d)).
Proof.
  intro N. unfold saved.
  destruct (Fs.lookup path f) as [[c|]|]; try apply lookup_store.
  now destruct N.
Qed.

Section WriteThrough.

Variable path : string.
Variable f0 : Fs.fs.
Variable d0 : Dict.dict.

Lemma wt_calm :
  forall e s, is_get e = false -> fetched_durably path f0 d0 e s.
Proof. intros e s G G'. congruence. Qed.

Lemma wt_frame :
  forall s s', same s s' -> held_through path f0 d0 s ->
               held_through path f0 d0 s'.
Proof.
  intros s s' [R F]. unfold held_through, durable, written_through, synced.
  rewrite R, F. trivial.
Qed.

Lemma wt_get :
  forall e s, held_through path f0 d0 s -> fetched_durably path f0 d0 e s.
Proof.
  intros e s H _. unfold held_through, kept_through in *.
  destruct (Fs.lookup path f0) as [[c|]|]; try exact H; apply H.
Qed.

Lemma saved_denied (d : Dict.dict) (f : Fs.fs) :
  Fs.lookup path f = Some Fs.Denied -> saved path d f = f.
Proof. intro E. unfold saved. now rewrite E. Qed.

Lemma wt_record :
  forall k v s,
    held_through path f0 d0 s ->
    let d := Dict.set k v (email_results s) in
    held_through path f0 d0
      (with_files (saved path d (files s)) (with_results d s)).
Proof.
  intros k v s H d. unfold held_through in *.
  cbn [files email_results with_files with_results].
  destruct (Fs.lookup path f0) as [[c|]|] eqn:E.
  - destruct H as [N _]. unfold durable, written_through, synced.
    cbn [files email_results with_files with_results].
    rewrite (saved_lookup path d (files s) N).
    split; [discriminate | now right].
  - rewrite H. now apply saved_denied.
  - destruct H as [N _]. unfold durable, written_through, synced.
    cbn [files email_results with_files with_results].
    rewrite (saved_lookup path d (files s) N).
    split; [discriminate | now right].
Qed.

Lemma wt_saved :
  forall s,
    held_through path f0 d0 s ->
    held_through path f0 d0
      (with_files (saved path (email_results s) (files s)) s).
Proof.
  intros s H. unfold held_through in *.
  cbn [files email_results with_files].
  destruct (Fs.lookup path f0) as [[c|]|] eqn:E.
  - destruct H as [N _]. unfold durable, written_through, synced.
    cbn [files email_results with_files].
    rewrite (saved_lookup path _ (files s) N).
    split; [discriminate | now right].
  - rewrite H. now apply saved_denied.
  - destruct H as [N _]. unfold durable, written_through, synced.
    cbn [files email_results with_files].
    rewrite (saved_lookup path _ (files s) N).
    split; [discriminate | now right].
Qed.

(** The invariant holds of the state a run starts in. *)
Lemma wt_boot : held_through path f0 d0 (with_results d0 (boot f0)).
Proof.
  unfold held_through, durable, written_through.
  cbn [files email_results with_results boot].
  destruct (Fs.lookup path f0) as [[c|]|] eqn:E; try reflexivity;
    (split; [rewrite ?E; discriminate | now left]).
Qed.

End WriteThrough.

(** At every page load of a run of [aslocation.py], write-through holds
    as [kept_through] puts it. *)
Lemma aslocation_kept_through (json_loads : string -> option Dict.dict)
    (w : World) (e1 e2 : string) (locations : list string) (f : Fs.fs)
    (d0 : Dict.dict) (item url : string) (s : state) :
  value (Aslocation.load_checkpoint json_loads Aslocation.CHECKPOINT_FILE
           (boot f)) = Val d0 ->
  In (Get item url, s)
     (trace (Aslocation.scrape_google_emails json_loads w e1 e2
               locations (boot f))) ->
  kept_through Aslocation.CHECKPOINT_FILE f d0 s.
Proof.
  intros V G.
  destruct (scrape_google_emails_sound w e1 e2 _ _
              (wt_calm Aslocation.CHECKPOINT_FILE f d0)
              (wt_frame Aslocation.CHECKPOINT_FILE f d0)
              (fun location url s H _ =>
                 wt_get Aslocation.CHECKPOINT_FILE f d0 (Get location url) s H)
              (fun location v s H _ =>
                 wt_record Aslocation.CHECKPOINT_FILE f d0 location v s H)
              (wt_saved Aslocation.CHECKPOINT_FILE f d0)
              json_loads locations f d0 V
              (wt_boot Aslocation.CHECKPOINT_FILE f d0)) as [F _].
  unfold fine in F. rewrite Forall_forall in F.
  now apply (F _ G).
Qed.

Lemma loc_kept_through (json_loads : string -> option Dict.dict)
    (get_text : string -> string) (str_key : string -> string -> string)
    (w : World) (all_cities keywords : list string) (f : Fs.fs)
    (d0 : Dict.dict) (item url : string) (s : state) :
  value (Loc.load_checkpoint json_loads Loc.CHECKPOINT_FILE (boot f))
  = Val d0 ->
  In (Get item url, s)
     (trace (Loc.campaign json_loads get_text str_key w all_cities
               keywords (boot f))) ->
  kept_through Loc.CHECKPOINT_FILE f d0 s.
Proof.
  intros V G.
  destruct (campaign_sound get_text str_key w (firstn 1 keywords) _ _
              (wt_calm Loc.CHECKPOINT_FILE f d0)
              (wt_frame Loc.CHECKPOINT_FILE f d0)
              (fun keyword city url s _ H _ =>
                 wt_get Loc.CHECKPOINT_FILE f d0
                   (Get (Loc.query_of keyword city) url) s H)
              (fun keyword city v s _ H _ =>
                 wt_record Loc.CHECKPOINT_FILE f d0 (str_key keyword city)
                   v s H)
              json_loads all_cities keywords f d0 (incl_refl _) V
              (wt_boot Loc.CHECKPOINT_FILE f d0))
    as [F _].
  unfold fine in F. rewrite Forall_forall in F.
  now apply (F _ G).
Qed.

(** C4, as stated, fails on a checkpoint file that cannot be opened for
    writing: [save_checkpoint] logs the failure and the run goes on.
    Denver is fetched with Austin's result on the mapping in memory and
    not in the file. *)
Lemma unwritable_checkpoint_not_written :
  let o := Aslocation.scrape_google_emails (fun _ => None)
             (always (Fails TimeoutException)) "a.crx" "b.crx"
             ["Austin"; "Denver"] (boot locked_checkpoint) in
  exists s,
    In (Get "Denver" (Aslocation.url_of "Denver"), s) (trace o)
    /\ Dict.get "Austin" (email_results s) = Some []
    /\ Fs.lookup Aslocation.CHECKPOINT_FILE (files s) = Some Fs.Denied
    /\ In (Log ERROR ("Error saving checkpoint to "
                      ++ Aslocation.CHECKPOINT_FILE ++ ": "))
          (events o).
Proof.
  cbv zeta.
  match goal with
  | |- exists s, In _ (trace ?o) /\ _ =>
      let t := eval vm_compute in (trace o) in
      match t with
      | context [(Get "Denver" ?u, ?s) :: _] =>
          exists s; split;
          [ vm_compute; repeat (first [left; reflexivity | right])
          | vm_compute; repeat split;
            repeat (first [left; reflexivity | right]) ]
      end
  end.
Qed.

(** The second location of a run on a checkpoint that can be written is
    fetched with the first one's empty result already in the file. *)
Example denver_after_austin :
  let o := Aslocation.scrape_google_emails (fun _ => None)
             (always (Fails TimeoutException)) "a.crx" "b.crx"
             ["Austin"; "Denver"] (boot two_extensions) in
  exists s,
    In (Get "Denver" (Aslocation.url_of "Denver"), s) (trace o)
    /\ Fs.lookup Aslocation.CHECKPOINT_FILE (files s)
       = Some (Fs.Text (Json.dumps [("Austin", [])])).
Proof.
  cbv zeta.
  match goal with
  | |- exists s, In _ (trace ?o) /\ _ =>
      let t := eval vm_compute in (trace o) in
      match t with
      | context [(Get "Denver" ?u, ?s) :: _] =>
          exists s; split;
          [ vm_compute; repeat (first [left; reflexivity | right])
          | vm_compute; reflexivity ]
      end
  end.
Qed.

(** * More of the code *)

(** ** What a match of a pattern is made of *)

Lemma rep_sound {R : Type} (ic : bool) (cls : list Re.item) (s : string) :
  forall (min : nat) (k : string -> option R) (x : R),
    Re.rep ic cls min s k = Some x ->
    exists m s' : string,
      s = m ++ s' /\ chars_in ic cls m = true
      /\ min <= String.length m /\ k s' = Some x.
Proof.
  induction s as [|c s IH]; intros min k x; cbn.
  - destruct (min =? 0)%nat eqn:E; [|discriminate].
    apply Nat.eqb_eq in E. intro H.
    exists EmptyString, EmptyString. repeat split; [lia | exact H].
  - assert (stop : (if (min =? 0)%nat then k (String c s) else None) = Some x ->
                   exists m s' : string,
                     String c s = m ++ s' /\ chars_in ic cls m = true
                     /\ min <= String.length m /\ k s' = Some x).
    { destruct (min =? 0)%nat eqn:E; [|discriminate].
      apply Nat.eqb_eq in E. intro H.
      exists EmptyString, (String c s). repeat split; [cbn; lia | exact H]. }
    destruct (Re.cls_match ic cls c) eqn:C; [|exact stop].
    destruct (Re.rep ic cls (pred min) s k) eqn:E; [|exact stop].
    intros [= ->].
    apply IH in E as (m & s' & -> & M & L & K).
    exists (String c m), s'. repeat split.
    + unfold chars_in in *. cbn. now rewrite C, M.
    + cbn. lia.
    + exact K.
Qed.

(** A word, matched as it is written, is a prefix of the text. *)
Lemma word_run (w : string) :
  w <> EmptyString ->
  forall (s : string) (g : Re.capture),
    String.prefix w s = true ->
    Re.run false (Re.word w) s g (fun _ _ => Some tt) = Some tt.
Proof.
  induction w as [|a w IH]; [congruence|]. intros _ s g P.
  destruct s as [|c s]; [discriminate|]. cbn in P.
  destruct (ascii_dec a c) as [->|]; [|discriminate].
  destruct w as [|b w].
  - cbn. unfold Re.lit_match. now rewrite Ascii.eqb_refl.
  - change (Re.word (String c (String b w)))
      with (Re.Cat (Re.Lit c) (Re.word (String b w))).
    cbn [Re.run]. unfold Re.lit_match. rewrite Ascii.eqb_refl. cbn [orb].
    apply IH; [discriminate | exact P].
Qed.

Lemma prefix_app (w t rest : string) :
  String.prefix w t = true -> String.prefix w (t ++ rest) = true.
Proof.
  revert t. induction w as [|a w IH]; intros t.
  - intros _. now destruct (t ++ rest).
  - destruct t as [|c t]; cbn; [discriminate|].
    destruct (ascii_dec a c); [apply IH | discriminate].
Qed.

Lemma append_assoc (a b c : string) : (a ++ b) ++ c = a ++ b ++ c.
Proof. induction a as [|x a IH]; cbn; [reflexivity | now rewrite IH]. Qed.

Lemma length_append (a b : string) :
  String.length (a ++ b) = String.length a + String.length b.
Proof. induction a as [|x a IH]; cbn; [reflexivity | now rewrite IH]. Qed.

Lemma substring_whole (m rest : string) :
  substring 0 (String.length m) (m ++ rest) = m.
Proof. induction m as [|x m IH]; cbn; [now destruct rest | now rewrite IH]. Qed.

(** The text a match took, when [rest] is what it left. *)
Lemma consumed_app (m rest : string) : Re.consumed (m ++ rest) rest = m.
Proof.
  unfold Re.consumed. rewrite length_append.
  replace (String.length m + String.length rest - String.length rest)
    with (String.length m) by lia.
  apply substring_whole.
Qed.

(** A match of the pattern of [keyword001.py] at the head of a text. *)
Lemma keyword001_match_shape (s rest : string) (g : Re.capture) :
  Re.match_here false Keyword001.email_pattern s = Some (rest, g) ->
  exists x : string, s = x ++ rest /\ address_shape x.
Proof.
  unfold Re.match_here, Keyword001.email_pattern. cbn [Re.run].
  intro H.
  apply rep_sound in H as (L & s1 & -> & HL & NL & H).
  destruct s1 as [|c s1]; [discriminate|].
  destruct (Re.lit_match false "@" c) eqn:At; [|discriminate].
  apply rep_sound in H as (D & s2 & -> & HD & ND & H).
  destruct s2 as [|c' s2]; [discriminate|].
  destruct (Re.lit_match false "." c') eqn:Dot; [|discriminate].
  match type of H with
  | match ?look with _ => _ end = _ => destruct look eqn:Look; [discriminate|]
  end.
  apply rep_sound in H as (T & s3 & -> & HT & NT & [= <- _]).
  unfold Re.lit_match in At, Dot. cbn [andb orb] in At, Dot.
  rewrite orb_false_r in At, Dot.
  apply Ascii.eqb_eq in At, Dot. subst c c'.
  exists (L ++ "@" ++ D ++ "." ++ T). split.
  - repeat (rewrite append_assoc; cbn [String.append]). reflexivity.
  - exists L, D, T. repeat split; try assumption.
    + intros ->. cbn in NL. lia.
    + intros ->. cbn in ND. lia.
    + destruct (String.prefix "png" T) eqn:P; [|reflexivity].
      cbn [Re.alts map Re.run] in Look.
      rewrite (word_run "png") in Look;
        [discriminate Look | discriminate | now apply prefix_app].
    + destruct (String.prefix "jpg" T) eqn:P; [|reflexivity].
      cbn [Re.alts map Re.run] in Look.
      destruct (Re.run false (Re.word "png") (T ++ s3) None
                 (fun _ _ => Some tt));
        [discriminate Look|].
      rewrite (word_run "jpg") in Look;
        [discriminate Look | discriminate | now apply prefix_app].
    + destruct (String.prefix "jpeg" T) eqn:P; [|reflexivity].
      cbn [Re.alts map Re.run] in Look.
      destruct (Re.run false (Re.word "png") (T ++ s3) None
                 (fun _ _ => Some tt));
        [discriminate Look|].
      destruct (Re.run false (Re.word "jpg") (T ++ s3) None
                 (fun _ _ => Some tt));
        [discriminate Look|].
      rewrite (word_run "jpeg") in Look;
        [discriminate Look | discriminate | now apply prefix_app].
Qed.

(** Every match [scan] gives was found at some place of the text. *)
Lemma scan_sound (ic : bool) (r : Re.regex) (s : string) :
  forall skip : nat,
    Forall (fun m => exists pre s' rest : string,
                s = pre ++ s'
                /\ Re.match_here ic r s' = Some (rest, snd m)
                /\ fst m = Re.consumed s' rest)
           (Re.scan ic r s skip).
Proof.
  induction s as [|c s IH]; intro skip.
  - destruct skip; cbn; [|constructor].
    destruct (Re.match_here ic r EmptyString) as [[rest g]|] eqn:E;
      [|constructor].
    constructor; [|constructor].
    exists EmptyString, EmptyString, rest. auto.
  - assert (tail : forall n,
               Forall (fun m => exists pre s' rest : string,
                           String c s = pre ++ s'
                           /\ Re.match_here ic r s' = Some (rest, snd m)
                           /\ fst m = Re.consumed s' rest)
                      (Re.scan ic r s n)).
    { intro n. eapply Forall_impl; [|apply IH].
      intros m (pre & s' & rest & -> & H1 & H2).
      exists (String c pre), s', rest. auto. }
    destruct skip; cbn [Re.scan]; [|apply tail].
    destruct (Re.match_here ic r (String c s)) as [[rest g]|] eqn:E;
      [|apply tail].
    constructor; [|apply tail].
    exists EmptyString, (String c s), rest. auto.
Qed.

(** A pattern without a group: [findall] gives the matches themselves. *)
Lemma findall_matches (ic : bool) (r : Re.regex) (s : string) :
  Re.groups r = 0 -> Re.findall ic r s = Re.matches ic r s.
Proof. intro G. unfold Re.findall, Re.matches. now rewrite G. Qed.

Lemma set_of_in (xs : list string) :
  forall x : string, In x (Py.set_of xs) <-> In x xs.
Proof.
  induction xs as [|y xs IH]; intro x; cbn; [tauto|].
  destruct (Py.mem y (Py.set_of xs)) eqn:M.
  - apply mem_spec, IH in M. rewrite IH. split; [tauto|].
    intros [<-|H]; assumption.
  - cbn. rewrite IH. tauto.
Qed.

Lemma set_of_nodup (xs : list string) : NoDup (Py.set_of xs).
Proof.
  induction xs as [|y xs IH]; cbn; [constructor|].
  destruct (Py.mem y (Py.set_of xs)) eqn:M; [exact IH|].
  constructor; [|exact IH].
  intro H. apply mem_spec in H. congruence.
Qed.

Lemma prefix_same (x post : string) : String.prefix x (x ++ post) = true.
Proof.
  induction x as [|c x IH]; cbn.
  - now destruct post.
  - destruct (ascii_dec c c); [exact IH | congruence].
Qed.

Lemma contains_prefix (sub s : string) :
  String.prefix sub s = true -> Py.contains sub s = true.
Proof. intro H. destruct s; cbn [Py.contains]; now rewrite H. Qed.

(** A text holds each of its parts. *)
Lemma contains_app (x pre post : string) :
  Py.contains x (pre ++ x ++ post) = true.
Proof.
  induction pre as [|c pre IH].
  - change (Py.contains x (x ++ post) = true).
    apply contains_prefix, prefix_same.
  - cbn [String.append Py.contains]. rewrite IH. apply orb_true_r.
Qed.

(** The matches of the pattern of [keyword001.py]. *)
Lemma keyword001_matches_shaped (page x : string) :
  In x (Re.matches false Keyword001.email_pattern page) ->
  address_shape x /\ Py.contains x page = true.
Proof.
  unfold Re.matches. intro H.
  apply in_map_iff in H as ([whole g] & <- & H).
  pose proof (scan_sound false Keyword001.email_pattern page 0) as F.
  rewrite Forall_forall in F.
  destruct (F _ H) as (pre & s' & rest & -> & M & C). cbn [fst snd] in *.
  apply keyword001_match_shape in M as (y & -> & Sh).
  rewrite consumed_app in C. subst whole.
  split; [exact Sh | apply contains_app].
Qed.

(** X1.  Every address [keyword001.py] takes from a page is a piece of
    the page of the form local@domain.tld: a local part and a domain that
    are not empty, over the characters the pattern allows, and after the
    last dot two letters or more that do not begin with png, jpg or jpeg. *)
Theorem keyword001_addresses_shaped :
  forall page x : string,
    In x (Keyword001.page_emails page) ->
    address_shape x /\ Py.contains x page = true.
Proof.
  intros page x H. unfold Keyword001.page_emails in H.
  apply (proj1 (set_of_in _ _)) in H.
  rewrite findall_matches in H by reflexivity.
  now apply keyword001_matches_shaped.
Qed.

Lemma keyword001_addresses_shaped_witness :
  address_shape "bob@site.org"
  /\ Py.contains "bob@site.org" "write to bob@site.org today" = true.
Proof.
  apply (keyword001_addresses_shaped "write to bob@site.org today").
  vm_compute. left. reflexivity.
Defined.

(** ** The list recorded for an item *)

Lemma insert_sorted_in (x y : string) (xs : list string) :
  In y (Py.insert_sorted x xs) <-> y = x \/ In y xs.
Proof.
  induction xs as [|z xs IH]; cbn.
  - intuition congruence.
  - destruct (String.leb x z); cbn; [intuition congruence|].
    rewrite IH. intuition congruence.
Qed.

Lemma sorted_in (y : string) (xs : list string) :
  In y (Py.sorted xs) <-> In y xs.
Proof.
  induction xs as [|x xs IH]; cbn; [tauto|].
  fold (Py.sorted xs). rewrite insert_sorted_in, IH. intuition congruence.
Qed.

Lemma leb_ltb (x y : string) :
  String.leb x y = true -> x <> y -> String.ltb x y = true.
Proof.
  unfold String.leb, String.ltb. intros L N.
  destruct (String.compare x y) eqn:C; try reflexivity; try discriminate.
  now apply String.compare_eq_iff in C.
Qed.

Lemma not_leb_ltb (x y : string) :
  String.leb x y = false -> String.ltb y x = true.
Proof.
  unfold String.leb, String.ltb. rewrite (String.compare_antisym x y).
  now destruct (String.compare y x).
Qed.

Lemma insert_ascending (x : string) (xs : list string) :
  ascending xs -> ~ In x xs -> ascending (Py.insert_sorted x xs).
Proof.
  induction xs as [|y xs IH]; intros A N; [exact I|].
  cbn [Py.insert_sorted].
  destruct (String.leb x y) eqn:L.
  - split; [|exact A]. apply leb_ltb; [exact L|].
    intros ->. apply N. now left.
  - assert (Ax : ascending xs) by (destruct xs; [exact I | apply A]).
    assert (Nx : ~ In x xs) by (intro H; apply N; now right).
    specialize (IH Ax Nx).
    destruct xs as [|z xs].
    + cbn. split; [now apply not_leb_ltb | exact I].
    + cbn [Py.insert_sorted] in *.
      destruct (String.leb x z).
      * split; [now apply not_leb_ltb | exact IH].
      * split; [apply A | exact IH].
Qed.

Lemma sorted_nodup_in (x : string) (xs : list string) :
  ~ In x xs -> ~ In x (Py.sorted xs).
Proof. now rewrite sorted_in. Qed.

(** [sorted] of a list without repetition is strictly ascending. *)
Lemma sorted_ascending (xs : list string) :
  NoDup xs -> ascending (Py.sorted xs).
Proof.
  induction 1 as [|x xs N D IH]; [exact I|].
  cbn. fold (Py.sorted xs).
  apply insert_ascending; [exact IH | now apply sorted_nodup_in].
Qed.

(** X2.  What [keyword001.py] records for a page: the matches of its
    pattern on the page, each once, in strictly ascending order. *)
Theorem keyword001_record_sorted :
  forall page_html : string,
    let v := Py.sorted (Keyword001.page_emails page_html) in
    ascending v
    /\ (forall x, In x v
                  <-> In x (Re.matches false Keyword001.email_pattern
                              page_html)).
Proof.
  intros page_html v. subst v. split.
  - apply sorted_ascending, set_of_nodup.
  - intro x. rewrite sorted_in. unfold Keyword001.page_emails.
    rewrite set_of_in, findall_matches by reflexivity. tauto.
Qed.

(** ** A page that loads *)

Lemma pace_logged (t : list (event * state)) : logged t -> pace t = [].
Proof. intro L. apply pace_quiet, logged_quiet, L. Qed.

Lemma pace_cons (e : event) (s : state) (t : list (event * state)) :
  pace ((e, s) :: t) = if paced e then e :: pace t else pace t.
Proof. reflexivity. Qed.

Lemma for_each_logged {A : Type} (line : A -> string) (xs : list A)
    (s : state) :
  exists t,
    for_each xs (fun x => log INFO (line x)) s = (Val tt, s, t) /\ logged t.
Proof.
  induction xs as [|x xs IH]; cbn [for_each].
  - eexists; split; [reflexivity | constructor].
  - destruct IH as (t & E & C).
    rewrite (bind_val (log INFO (line x)) _ s s tt
               [(Log INFO (line x), s)] eq_refl).
    rewrite E.
    eexists; split; [reflexivity | repeat constructor; exact C].
Qed.

(** The scrolling loop of [aslocation.py] waits two to four seconds in
    each of its rounds, and changes nothing. *)
Lemma aslocation_scroll_paced (h : nat) (hs : list nat) (s : state) :
  exists t,
    Aslocation.scroll h hs s = (Val tt, s, t)
    /\ pace t = repeat (Sleep 2 4) (rounds h hs).
Proof.
  revert h. induction hs as [|h' hs IH]; intro h;
    cbn [Aslocation.scroll rounds]; run.
  - eexists; split; reflexivity.
  - destruct (h' =? h)%nat; run.
    + eexists; split; reflexivity.
    + destruct (IH h') as (t & E & C). rewrite E.
      eexists; split; [reflexivity|].
      rewrite !pace_cons. cbn [paced repeat]. now rewrite C.
Qed.

(** *** Running a script step by step *)

Lemma bind_gets {A B : Type} (f : state -> A) (k : A -> M B) (s : state) :
  bind (gets f) k s = k (f s) s.
Proof. unfold bind, gets. now destruct (k (f s) s) as [[r s2] t2]. Qed.

Lemma bind_modify {B : Type} (g : state -> state) (k : unit -> M B)
    (s : state) :
  bind (modify g) k s = k tt (g s).
Proof. unfold bind, modify. now destruct (k tt (g s)) as [[r s2] t2]. Qed.

Lemma bind_emit {B : Type} (e : event) (k : unit -> M B) (s : state) :
  bind (emit e) k s = prepend [(e, s)] (k tt s).
Proof. unfold bind, emit, prepend. now destruct (k tt s) as [[r s2] t2]. Qed.

Lemma bind_log {B : Type} (lv : level) (msg : string) (k : unit -> M B)
    (s : state) :
  bind (log lv msg) k s = prepend [(Log lv msg, s)] (k tt s).
Proof. apply bind_emit. Qed.

Lemma bind_sleep {B : Type} (lo hi : nat) (k : unit -> M B) (s : state) :
  bind (sleep lo hi) k s = prepend [(Sleep lo hi, s)] (k tt s).
Proof. apply bind_emit. Qed.

Lemma bind_ret {A B : Type} (a : A) (k : A -> M B) (s : state) :
  bind (ret a) k s = k a s.
Proof. unfold bind, ret. now destruct (k a s) as [[r s2] t2]. Qed.

Lemma bind_raise {A B : Type} (e : exn) (k : A -> M B) (s : state) :
  bind (raise e) k s = (Exc e, s, []).
Proof. reflexivity. Qed.

Lemma bind_exc {A B : Type} (m : M A) (k : A -> M B) (s s1 : state)
    (e : exn) (t1 : list (event * state)) :
  m s = (Exc e, s1, t1) -> bind m k s = (Exc e, s1, t1).
Proof. intro E. unfold bind. now rewrite E. Qed.

Lemma try_val {A : Type} (m : M A) (hs : list (exn * M A)) (s s1 : state)
    (a : A) (t1 : list (event * state)) :
  m s = (Val a, s1, t1) -> try_except m hs s = (Val a, s1, t1).
Proof. intro E. unfold try_except. now rewrite E. Qed.

Lemma try_exc {A : Type} (m : M A) (hs : list (exn * M A)) (s s1 : state)
    (e : exn) (t1 : list (event * state)) :
  m s = (Exc e, s1, t1) ->
  try_except m hs s = prepend t1 (handle hs e s1).
Proof.
  intro E. unfold try_except, prepend. rewrite E.
  now destruct (handle hs e s1) as [[r s2] t2].
Qed.

Lemma prepend_run {A : Type} (t t' : list (event * state)) (r : res A)
    (s : state) :
  prepend t (r, s, t') = (r, s, (t ++ t')%list).
Proof. reflexivity. Qed.

(** The steps that need no case analysis. *)
Ltac walk :=
  repeat first
    [ rewrite bind_assoc
    | rewrite bind_gets
    | rewrite bind_modify
    | rewrite bind_emit
    | rewrite bind_log
    | rewrite bind_sleep
    | rewrite bind_ret
    | rewrite bind_raise ];
  cbv beta.

(** One attempt of [aslocation.py] on a page that loads. *)
Lemma aslocation_attempt_loaded (w : World) (e1 e2 location url : string)
    (attempt : nat) (s : state)
    (first : string) (heights : list nat) (page_html : string) :
  load w (loads s) url = Loaded first heights page_html ->
  let d := Dict.set location (Py.sorted (Aslocation.page_emails page_html))
             (email_results s) in
  let s' := with_files (saved Aslocation.CHECKPOINT_FILE d (files s))
              (with_results d (next_load s)) in
  exists t,
    Aslocation.try_once w e1 e2 location url attempt s = (Val Break, s', t)
    /\ pace t
       = (Get location url :: Sleep 5 8
            :: (if Py.contains Aslocation.challenge first
                then [Sleep 10 10] else [])
            ++ repeat (Sleep 2 4) (rounds (hd 0 heights) (tl heights)))%list.
Proof.
  intros L d s'.
  assert (tail :
    exists t,
      bind (Aslocation.scroll (hd 0 heights) (tl heights))
        (fun _ =>
           bind (modify (fun s0 =>
                           with_results
                             (Dict.set location
                                (Py.sorted (Aslocation.page_emails page_html))
                                (email_results s0)) s0))
             (fun _ =>
                bind (log INFO ("Found "
                                ++ string_of_nat
                                     (List.length
                                        (Aslocation.page_emails page_html))
                                ++ " email(s) for: " ++ location))
                  (fun _ =>
                     bind (for_each (Aslocation.page_emails page_html)
                             (fun email => log INFO email))
                       (fun _ =>
                          bind Aslocation.save_and_export
                            (fun _ => ret Break)))))
        (next_load s)
      = (Val Break, s', t)
      /\ pace t = repeat (Sleep 2 4) (rounds (hd 0 heights) (tl heights))).
  { destruct (aslocation_scroll_paced (hd 0 heights) (tl heights)
                (next_load s)) as (t1 & E1 & P1).
    rewrite (bind_val _ _ _ _ _ _ E1). walk.
    match goal with
    | |- context [bind (for_each ?xs _) _ ?st] =>
        destruct (for_each_logged (fun email : string => email) xs st)
          as (t2 & E2 & P2)
    end.
    cbv beta in E2. rewrite (bind_val _ _ _ _ _ _ E2).
    match goal with
    | |- context [bind Aslocation.save_and_export ?k ?st] =>
        destruct (aslocation_save_and_export_run st) as (t3 & E3 & P3);
        rewrite (bind_val _ _ _ _ _ _ E3)
    end.
    unfold ret. rewrite !prepend_run. eexists. split; [reflexivity|].
    rewrite !pace_app, P1, (pace_logged _ P2), (pace_quiet _ P3).
    cbn. now rewrite !app_nil_r. }
  destruct tail as (t & E & P).
  unfold Aslocation.try_once, Aslocation.attempt_body.
  cut (exists t0,
          (if Py.contains Aslocation.challenge first
           then log WARNING ("CAPTCHA detected for " ++ location
                             ++ ". Relying on Buster extension.");;
                sleep 10 10
           else ret tt)%eff (next_load s) = (Val tt, next_load s, t0)
          /\ pace t0 = if Py.contains Aslocation.challenge first
                       then [Sleep 10 10] else []).
  { intros (t0 & E0 & P0). eexists. split.
    - apply try_val. walk. rewrite L. walk.
      rewrite (bind_val _ _ _ _ _ _ E0), E. rewrite !prepend_run.
      reflexivity.
    - cbn [app]. rewrite !pace_cons. cbn [paced].
      now rewrite pace_app, P0, P. }
  destruct (Py.contains Aslocation.challenge first);
    eexists; (split; [reflexivity|]); reflexivity.
Qed.


(** X3.  [aslocation.py], on a location whose page loads: the page is
    fetched once, the location is recorded with what the extraction gives,
    sorted, the checkpoint is saved, and the loop goes on with the next
    location.  A page that shows the traffic challenge is treated the same
    way, after a wait of ten seconds more. *)
Theorem aslocation_page_recorded :
  forall (w : World) (e1 e2 location : string) (rest : list string)
         (s : state) (first : string) (heights : list nat)
         (page_html : string),
    Dict.has location (email_results s) = false ->
    load w (loads s) (Aslocation.url_of location)
    = Loaded first heights page_html ->
    exists (t : list (event * state)) (s' : state),
      Aslocation.visit_locations w e1 e2 (location :: rest) s
      = prepend t (Aslocation.visit_locations w e1 e2 rest s')
      /\ pace t
         = (Get location (Aslocation.url_of location) :: Sleep 5 8
              :: (if Py.contains Aslocation.challenge first
                  then [Sleep 10 10] else [])
              ++ repeat (Sleep 2 4) (rounds (hd 0 heights) (tl heights)))%list
      /\ email_results s'
         = Dict.set location (Py.sorted (Aslocation.page_emails page_html))
             (email_results s)
      /\ files s'
         = saved Aslocation.CHECKPOINT_FILE (email_results s') (files s).
Proof.
  intros w e1 e2 location rest s first heights page_html H L.
  rewrite visit_locations_step, H. cbv zeta.
  change Aslocation.MAX_RETRIES with 3.
  rewrite attempts_step.
  destruct (aslocation_attempt_loaded w e1 e2 location
              (Aslocation.url_of location) 0 s first heights page_html L)
    as (t & E & P).
  rewrite E. eexists. eexists. split; [reflexivity|].
  split; [|split; reflexivity].
  rewrite pace_cons. exact P.
Qed.

Lemma aslocation_page_recorded_witness :
  exists (t : list (event * state)) (s' : state),
    Aslocation.visit_locations
      (always (Loaded Aslocation.challenge [900; 1800; 1800] "<html>"))
      "a.crx" "b.crx" ["Austin"; "Denver"] started
    = prepend t
        (Aslocation.visit_locations
           (always (Loaded Aslocation.challenge [900; 1800; 1800] "<html>"))
           "a.crx" "b.crx" ["Denver"] s')
    /\ pace t
       = [Get "Austin" (Aslocation.url_of "Austin"); Sleep 5 8; Sleep 10 10;
          Sleep 2 4; Sleep 2 4]
    /\ email_results s' = [("Austin", [])]
    /\ files s' = saved Aslocation.CHECKPOINT_FILE (email_results s')
                    (files started).
Proof.
  apply (aslocation_page_recorded
           (always (Loaded Aslocation.challenge [900; 1800; 1800] "<html>"))
           "a.crx" "b.crx" "Austin" ["Denver"] started
           Aslocation.challenge [900; 1800; 1800] "<html>");
    reflexivity.
Defined.

Lemma calm_fetches (t : list (event * state)) : calm t -> fetches t = [].
Proof.
  induction 1 as [|[e s] t H _ IH]; [reflexivity|].
  rewrite fetches_cons. cbn in H. now rewrite H.
Qed.

Lemma keyword001_scroll_run (h : nat) (hs : list nat) (s : state) :
  exists t, Keyword001.scroll h hs s = (Val tt, s, t) /\ calm t.
Proof.
  revert h. induction hs as [|h' hs IH]; intro h;
    cbn [Keyword001.scroll]; run.
  - eexists; split; [reflexivity | repeat constructor].
  - destruct (h' =? h)%nat; run.
    + eexists; split; [reflexivity | repeat constructor].
    + destruct (IH h') as (t & E & C). rewrite E.
      eexists; split; [reflexivity | repeat constructor; exact C].
Qed.

(** X4.  [keyword001.py], on a location whose page loads: the page is
    fetched once, the location is recorded with the sorted matches of the
    pattern on the page, the checkpoint of the phase is saved, and the loop
    goes on with the next location in the same session. *)
Theorem keyword001_page_recorded :
  forall (w : World) (e1 e2 keyword checkpoint_file region_name : string)
         (location : string) (rest : list string) (s : state)
         (first : string) (heights : list nat) (page_html : string),
    Dict.has location (email_results s) = false ->
    load w (loads s) (Keyword001.url_of keyword location)
    = Loaded first heights page_html ->
    exists (t : list (event * state)) (s' : state),
      Keyword001.visit_locations w e1 e2 keyword checkpoint_file region_name
        (location :: rest) s
      = prepend t
          (Keyword001.visit_locations w e1 e2 keyword checkpoint_file
             region_name rest s')
      /\ fetches t = [Get location (Keyword001.url_of keyword location)]
      /\ email_results s'
         = Dict.set location (Py.sorted (Keyword001.page_emails page_html))
             (email_results s)
      /\ files s' = saved checkpoint_file (email_results s') (files s)
      /\ driver s' = driver s.
Proof.
  intros w e1 e2 keyword checkpoint_file region_name location rest s
         first heights page_html H L.
  cbn [Keyword001.visit_locations]. walk. rewrite H. walk.
  unfold Keyword001.location_body.
  assert (body :
    exists t,
      (k <- gets loads;;
       modify next_load;;
       emit (Get location (Keyword001.url_of keyword location));;
       match load w k (Keyword001.url_of keyword location) with
       | Fails e => raise e
       | Loaded _ heights0 page_html0 =>
           sleep Keyword001.MIN_DELAY Keyword001.MAX_DELAY;;
           Keyword001.scroll (hd 0 heights0) (tl heights0);;
           modify (fun s0 =>
                     with_results
                       (Dict.set location
                          (Py.sorted (Keyword001.page_emails page_html0))
                          (email_results s0)) s0);;
           log INFO ("Found "
                     ++ string_of_nat
                          (List.length (Keyword001.page_emails page_html0))
                     ++ " email(s) for: " ++ location
                     ++ " (" ++ region_name ++ ")");;
           for_each (Keyword001.page_emails page_html0)
             (fun email => log INFO ("  " ++ email));;
           d <- gets email_results;;
           Keyword001.save_checkpoint d checkpoint_file;;
           ret Next
       end)%eff s
      = (Val Next,
         with_files
           (saved checkpoint_file
              (Dict.set location
                 (Py.sorted (Keyword001.page_emails page_html))
                 (email_results s)) (files s))
           (with_results
              (Dict.set location
                 (Py.sorted (Keyword001.page_emails page_html))
                 (email_results s)) (next_load s)), t)
      /\ fetches t = [Get location (Keyword001.url_of keyword location)]).
  { walk. rewrite L. walk.
    destruct (keyword001_scroll_run (hd 0 heights) (tl heights) (next_load s))
      as (t1 & E1 & P1).
    rewrite (bind_val _ _ _ _ _ _ E1). walk.
    match goal with
    | |- context [bind (for_each ?xs _) _ ?st] =>
        destruct (for_each_logged (fun email : string => "  " ++ email) xs st)
          as (t2 & E2 & P2)
    end.
    cbv beta in E2. rewrite (bind_val _ _ _ _ _ _ E2). walk.
    match goal with
    | |- context [bind (Keyword001.save_checkpoint ?d ?path) _ ?st] =>
        destruct (save_checkpoint_run d path st) as (t3 & E3 & P3);
        change Aslocation.save_checkpoint with Keyword001.save_checkpoint
          in E3;
        rewrite (bind_val _ _ _ _ _ _ E3)
    end.
    unfold ret. rewrite !prepend_run. eexists. split; [reflexivity|].
    rewrite !fetches_app, (calm_fetches _ P1).
    rewrite (fetches_quiet _ (logged_quiet _ P2)), (fetches_quiet _ P3).
    reflexivity. }
  destruct body as (t & E & F).
  rewrite (bind_val _ _ _ _ _ _ (try_val _ _ _ _ _ _ E)).
  rewrite !prepend_prepend.
  eexists. eexists. split; [reflexivity|].
  split; [|repeat split].
  rewrite !fetches_app, F. reflexivity.
Qed.

Lemma keyword001_page_recorded_witness :
  let w := always (Loaded "" [900; 900] "ask bob@site.org or amy@site.org") in
  exists (t : list (event * state)) (s' : state),
    Keyword001.visit_locations w "a.crx" "b.crx" "real estate"
      Keyword001.REAL_ESTATE_CHECKPOINT "USA" ["Austin"; "Denver"] started
    = prepend t
        (Keyword001.visit_locations w "a.crx" "b.crx" "real estate"
           Keyword001.REAL_ESTATE_CHECKPOINT "USA" ["Denver"] s')
    /\ fetches t = [Get "Austin" (Keyword001.url_of "real estate" "Austin")]
    /\ email_results s' = [("Austin", ["amy@site.org"; "bob@site.org"])]
    /\ files s' = saved Keyword001.REAL_ESTATE_CHECKPOINT (email_results s')
                    (files started)
    /\ driver s' = driver started.
Proof.
  apply (keyword001_page_recorded
           (always (Loaded "" [900; 900] "ask bob@site.org or amy@site.org"))
           "a.crx" "b.crx" "real estate" Keyword001.REAL_ESTATE_CHECKPOINT
           "USA" "Austin" ["Denver"] started
           "" [900; 900] "ask bob@site.org or amy@site.org");
    reflexivity.
Defined.

(** ** What the pattern with the group under the lookahead records *)

Lemma set_of_blanks (xs : list string) :
  Forall (fun x => x = EmptyString) xs ->
  Py.set_of xs = match xs with [] => [] | _ => [EmptyString] end.
Proof.
  induction 1 as [|x xs -> H IH]; [reflexivity|].
  cbn [Py.set_of]. rewrite IH. now destruct xs.
Qed.

(** X5.  What [aslocation.py] records for a page: the empty list when no
    address of the page matches its pattern, and otherwise the list that
    holds the empty string and nothing else; [findall] gives the text of
    the one group of the pattern, which no match fills. *)
Theorem aslocation_record_blank :
  forall page_html : string,
    Py.sorted (Aslocation.page_emails page_html)
    = match Re.matches true Aslocation.email_pattern page_html with
      | [] => []
      | _ => [EmptyString]
      end.
Proof.
  intro page_html. unfold Aslocation.page_emails.
  rewrite set_of_blanks by (apply findall_guarded; reflexivity).
  unfold Re.findall, Re.matches.
  now destruct (Re.scan true Aslocation.email_pattern page_html 0).
Qed.

(** ** Rules for the runs read by an automaton *)

Section TrackedRules.

Variable St : Type.
Variable delta : St -> event -> option St.

Lemma accepts_app (q : St) (a b : list event) :
  accepts delta q (a ++ b)
  = match accepts delta q a with
    | Some q' => accepts delta q' b
    | None => None
    end.
Proof.
  revert q. induction a as [|e a IH]; intro q; cbn; [reflexivity|].
  destruct (delta q e); [apply IH | reflexivity].
Qed.

Lemma tracked_run {A : Type} (q q' : St) (m : M A) (s s' : state)
    (r : res A) (t : list (event * state))
    (P : res A -> state -> St -> Prop) :
  m s = (r, s', t) -> accepts delta q (map fst t) = Some q' -> P r s' q' ->
  tracked delta q m s P.
Proof. intros E F H. exists q'. unfold events. rewrite E. now split. Qed.

Lemma tracked_weaken {A : Type} (q : St) (m : M A) (s : state)
    (R P : res A -> state -> St -> Prop) :
  tracked delta q m s R -> (forall r s' q', R r s' q' -> P r s' q') ->
  tracked delta q m s P.
Proof. intros (q' & F & H) W. exists q'. split; [exact F | now apply W]. Qed.

Lemma tracked_ret {A : Type} (a : A) (q : St) (s : state)
    (P : res A -> state -> St -> Prop) :
  P (Val a) s q -> tracked delta q (ret a) s P.
Proof. intro H. exists q. now split. Qed.

Lemma tracked_raise {A : Type} (e : exn) (q : St) (s : state)
    (P : res A -> state -> St -> Prop) :
  P (Exc e) s q -> tracked delta q (raise e) s P.
Proof. intro H. exists q. now split. Qed.

Lemma tracked_gets {A : Type} (f : state -> A) (q : St) (s : state)
    (P : res A -> state -> St -> Prop) :
  P (Val (f s)) s q -> tracked delta q (gets f) s P.
Proof. intro H. exists q. now split. Qed.

Lemma tracked_modify (g : state -> state) (q : St) (s : state)
    (P : res unit -> state -> St -> Prop) :
  P (Val tt) (g s) q -> tracked delta q (modify g) s P.
Proof. intro H. exists q. now split. Qed.

Lemma tracked_emit (e : event) (q q' : St) (s : state)
    (P : res unit -> state -> St -> Prop) :
  delta q e = Some q' -> P (Val tt) s q' -> tracked delta q (emit e) s P.
Proof. intros D H. exists q'. cbn. rewrite D. now split. Qed.

Lemma tracked_bind {A B : Type} (m : M A) (k : A -> M B) (q : St)
    (s : state) (R : res A -> state -> St -> Prop)
    (P : res B -> state -> St -> Prop) :
  tracked delta q m s R ->
  (forall a s' q', R (Val a) s' q' -> tracked delta q' (k a) s' P) ->
  (forall e s' q', R (Exc e) s' q' -> P (Exc e) s' q') ->
  tracked delta q (bind m k) s P.
Proof.
  unfold tracked, bind, events, value, final.
  intros (q1 & F & H) K E.
  destruct (m s) as [[[a|e] s1] t1]; cbn in *.
  - destruct (K a s1 q1 H) as (q2 & F2 & H2).
    destruct (k a s1) as [[r s2] t2]; cbn in *.
    exists q2. rewrite map_app, accepts_app, F. now split.
  - exists q1. split; [exact F | now apply E].
Qed.

Lemma tracked_bind_gets {A B : Type} (f : state -> A) (k : A -> M B)
    (q : St) (s : state) (P : res B -> state -> St -> Prop) :
  tracked delta q (k (f s)) s P -> tracked delta q (bind (gets f) k) s P.
Proof. unfold tracked. now rewrite bind_gets. Qed.

Lemma tracked_bind_modify {B : Type} (g : state -> state) (k : unit -> M B)
    (q : St) (s : state) (P : res B -> state -> St -> Prop) :
  tracked delta q (k tt) (g s) P -> tracked delta q (bind (modify g) k) s P.
Proof. unfold tracked. now rewrite bind_modify. Qed.

Lemma tracked_bind_ret {A B : Type} (a : A) (k : A -> M B) (q : St)
    (s : state) (P : res B -> state -> St -> Prop) :
  tracked delta q (k a) s P -> tracked delta q (bind (ret a) k) s P.
Proof. unfold tracked. now rewrite bind_ret. Qed.

Lemma tracked_bind_raise {A B : Type} (e : exn) (k : A -> M B) (q : St)
    (s : state) (P : res B -> state -> St -> Prop) :
  P (Exc e) s q -> tracked delta q (bind (raise e) k) s P.
Proof. intro H. exists q. now split. Qed.

Lemma tracked_bind_emit {B : Type} (e : event) (k : unit -> M B)
    (q q' : St) (s : state) (P : res B -> state -> St -> Prop) :
  delta q e = Some q' -> tracked delta q' (k tt) s P ->
  tracked delta q (bind (emit e) k) s P.
Proof.
  intros D H. eapply tracked_bind.
  - apply (tracked_emit e q q' s (fun r s' q1 => r = Val tt /\ s' = s
                                                  /\ q1 = q')).
    + exact D.
    + auto.
  - intros [] s' q1 (_ & -> & ->). exact H.
  - intros e' s' q1 (H1 & _). discriminate H1.
Qed.

Lemma tracked_assoc {A B C : Type} (m : M A) (f : A -> M B) (k : B -> M C)
    (q : St) (s : state) (P : res C -> state -> St -> Prop) :
  tracked delta q (bind m (fun a => bind (f a) k)) s P ->
  tracked delta q (bind (bind m f) k) s P.
Proof. unfold tracked. now rewrite bind_assoc. Qed.

Lemma tracked_bind_run {A B : Type} (m : M A) (k : A -> M B) (q q1 : St)
    (s s1 : state) (a : A) (t1 : list (event * state))
    (P : res B -> state -> St -> Prop) :
  m s = (Val a, s1, t1) -> accepts delta q (map fst t1) = Some q1 ->
  tracked delta q1 (k a) s1 P -> tracked delta q (bind m k) s P.
Proof.
  intros E F H. eapply tracked_bind.
  - apply (tracked_run q q1 m s s1 (Val a) t1
             (fun r s' q' => r = Val a /\ s' = s1 /\ q' = q1) E F). auto.
  - intros a' s' q' ([= <-] & -> & ->). exact H.
  - intros e s' q' (H1 & _). discriminate H1.
Qed.

Lemma tracked_try {A : Type} (m : M A) (hs : list (exn * M A)) (q : St)
    (s : state) (R P : res A -> state -> St -> Prop) :
  tracked delta q m s R ->
  (forall a s' q', R (Val a) s' q' -> P (Val a) s' q') ->
  (forall e s' q', R (Exc e) s' q' -> tracked delta q' (handle hs e) s' P) ->
  tracked delta q (try_except m hs) s P.
Proof.
  unfold tracked, try_except, events, value, final.
  intros (q1 & F & H) V E.
  destruct (m s) as [[[a|e] s1] t1]; cbn in *.
  - exists q1. split; [exact F | now apply V].
  - destruct (E e s1 q1 H) as (q2 & F2 & H2).
    destruct (handle hs e s1) as [[r s2] t2]; cbn in *.
    exists q2. rewrite map_app, accepts_app, F. now split.
Qed.

Lemma tracked_finally {A : Type} (m : M A) (f : M unit) (q : St)
    (s : state) (R P : res A -> state -> St -> Prop) :
  tracked delta q m s R ->
  (forall r s' q', R r s' q' ->
     tracked delta q' f s'
       (fun r' s'' q'' => match r' with
                          | Val _ => P r s'' q''
                          | Exc e => P (Exc e) s'' q''
                          end)) ->
  tracked delta q (finally m f) s P.
Proof.
  unfold tracked, finally, events, value, final.
  intros (q1 & F & H) K.
  destruct (m s) as [[r s1] t1]; cbn in *.
  destruct (K r s1 q1 H) as (q2 & F2 & H2).
  destruct (f s1) as [[[u|e] s2] t2]; cbn in *;
    exists q2; rewrite map_app, accepts_app, F; now split.
Qed.

End TrackedRules.

Ltac tstep :=
  cbv beta zeta;
  lazymatch goal with
  | |- tracked _ _ (bind (bind _ _) _) _ _ => apply tracked_assoc
  | |- tracked _ _ (bind (gets _) _) _ _ => apply tracked_bind_gets
  | |- tracked _ _ (bind (modify _) _) _ _ => apply tracked_bind_modify
  | |- tracked _ _ (bind (ret _) _) _ _ => apply tracked_bind_ret
  | |- tracked _ _ (bind (raise _) _) _ _ => apply tracked_bind_raise
  | |- tracked _ _ (bind (emit _) _) _ _ =>
      eapply tracked_bind_emit; [first [reflexivity | solve [eauto]]|]
  | |- tracked _ _ (bind (log _ _) _) _ _ =>
      eapply tracked_bind_emit; [first [reflexivity | solve [eauto]]|]
  | |- tracked _ _ (bind (sleep _ _) _) _ _ =>
      eapply tracked_bind_emit; [first [reflexivity | solve [eauto]]|]
  | |- tracked _ _ (bind (if ?b then _ else _) _) _ _ => destruct b eqn:?
  | |- tracked _ _ (bind (match ?x with _ => _ end) _) _ _ =>
      destruct x eqn:?
  | |- tracked _ _ (if ?b then _ else _) _ _ => destruct b eqn:?
  | |- tracked _ _ (match ?x with _ => _ end) _ _ => destruct x eqn:?
  | |- tracked _ _ (ret _) _ _ => apply tracked_ret
  | |- tracked _ _ (raise _) _ _ => apply tracked_raise
  | |- tracked _ _ (gets _) _ _ => apply tracked_gets
  | |- tracked _ _ (modify _) _ _ => apply tracked_modify
  | |- tracked _ _ (emit _) _ _ =>
      eapply tracked_emit; [first [reflexivity | solve [eauto]]|]
  | |- tracked _ _ (log _ _) _ _ =>
      eapply tracked_emit; [first [reflexivity | solve [eauto]]|]
  | |- tracked _ _ (sleep _ _) _ _ =>
      eapply tracked_emit; [first [reflexivity | solve [eauto]]|]
  end.

(** ** The browser sessions of [aslocation.py] *)

Lemma quiet_accepts (up : bool) (t : list (event * state)) :
  quiet t -> accepts session_step up (map fst t) = Some up.
Proof.
  induction 1 as [|[e s] t H _ IH]; [reflexivity|].
  cbn in *. destruct e; try discriminate H; exact IH.
Qed.

Lemma exists_store (p path : string) (x : Fs.file) (f : Fs.fs) :
  Fs.exists_ p f = true -> Fs.exists_ p (Fs.store path x f) = true.
Proof.
  unfold Fs.exists_. intro H.
  destruct (String.eqb_spec p path) as [->|N].
  - now rewrite lookup_store.
  - now rewrite lookup_store_other.
Qed.

(** A save takes no file away. *)
Lemma exists_saved (p path : string) (d : Dict.dict) (f : Fs.fs) :
  Fs.exists_ p f = true -> Fs.exists_ p (saved path d f) = true.
Proof.
  intro H. unfold saved.
  destruct (Fs.lookup path f) as [[c|]|]; try exact H;
    now do 2 apply exists_store.
Qed.

Lemma aslocation_scroll_up (h : nat) (hs : list nat) (s : state) :
  exists t,
    Aslocation.scroll h hs s = (Val tt, s, t)
    /\ accepts session_step true (map fst t) = Some true.
Proof.
  revert h. induction hs as [|h' hs IH]; intro h;
    cbn [Aslocation.scroll]; run.
  - eexists; split; reflexivity.
  - destruct (h' =? h)%nat; run.
    + eexists; split; reflexivity.
    + destruct (IH h') as (t & E & C). rewrite E.
      eexists; split; [reflexivity | exact C].
Qed.

Ltac state_simpl :=
  cbn [driver files email_results found windows current visits loads starts
       with_results with_driver with_files next_start next_load next_visit
       with_windows with_found] in *.

Ltac session_ok :=
  unfold in_session, extensions_there, is_up in *; state_simpl;
  repeat match goal with
         | H : _ /\ _ |- _ => destruct H
         | |- _ /\ _ => split
         | |- _ -> _ => intro
         | |- Fs.exists_ _ (saved _ _ _) = true => apply exists_saved
         end;
  first [ assumption | reflexivity | discriminate | now left | now right
        | congruence | tauto ].

Section AslocationSessions.

Variable w : World.
Variables e1 e2 : string.

Lemma aslocation_save_tracked {B : Type} (k : unit -> M B) (up : bool)
    (s : state) (P : res B -> state -> bool -> Prop) :
  tracked session_step up (k tt)
    (with_files (saved Aslocation.CHECKPOINT_FILE (email_results s)
                   (files s)) s) P ->
  tracked session_step up (bind Aslocation.save_and_export k) s P.
Proof.
  destruct (aslocation_save_and_export_run s) as (t & E & Q).
  intro H. eapply tracked_bind_run; [exact E | now apply quiet_accepts | ].
  exact H.
Qed.

Lemma aslocation_save_last (up : bool) (s : state)
    (P : res unit -> state -> bool -> Prop) :
  P (Val tt)
    (with_files (saved Aslocation.CHECKPOINT_FILE (email_results s)
                   (files s)) s) up ->
  tracked session_step up Aslocation.save_and_export s P.
Proof.
  destruct (aslocation_save_and_export_run s) as (t & E & Q).
  intro H. eapply tracked_run; [exact E | now apply quiet_accepts | exact H].
Qed.

Lemma in_session_saved (s : state) (path : string) (d : Dict.dict)
    (up : bool) :
  in_session e1 e2 s up ->
  in_session e1 e2 (with_files (saved path d (files s)) s) up.
Proof.
  unfold in_session, extensions_there, is_up. state_simpl.
  intros (U & X). split; [exact U|].
  intro T. destruct (X T). split; now apply exists_saved.
Qed.

(** A session that is asked for when none is up. *)
Lemma initialize_driver_tracked (s : state) :
  tracked session_step false (Aslocation.initialize_driver w e1 e2) s
    (fun r s' up =>
       files s' = files s /\ email_results s' = email_results s
       /\ driver s' = driver s
       /\ match r with
          | Val (Some _) => up = true /\ extensions_there e1 e2 s
          | Val None => up = false
          | Exc _ => up = false /\ ~ extensions_there e1 e2 s
          end).
Proof.
  unfold Aslocation.initialize_driver, extensions_there.
  tstep. tstep; [tstep|].
  { repeat split. intros (H & _). rewrite H in *. discriminate. }
  tstep; [tstep|].
  { repeat split. intros (_ & H). rewrite H in *. discriminate. }
  apply negb_false_iff in Heqb, Heqb0.
  tstep. tstep. tstep. state_simpl.
  destruct (start w (starts s)) eqn:St.
  - tstep. repeat split; assumption.
  - repeat tstep; repeat split.
Qed.

Ltac tgo :=
  repeat first
    [ tstep
    | apply aslocation_save_tracked
    | lazymatch goal with
      | |- tracked _ true (bind (Aslocation.scroll ?h ?hs) _) ?st _ =>
          let t := fresh "t" in
          let E := fresh "E" in
          let A := fresh "A" in
          destruct (aslocation_scroll_up h hs st) as (t & E & A);
          eapply tracked_bind_run; [exact E | exact A |]
      | |- tracked _ _ (bind (for_each ?xs (fun x => log INFO (@?f x))) _)
             ?st _ =>
          let t := fresh "t" in
          let E := fresh "E" in
          let L := fresh "L" in
          destruct (for_each_logged f xs st) as (t & E & L);
          cbv beta in E;
          eapply tracked_bind_run;
            [exact E | apply quiet_accepts, logged_quiet, L |]
      end ].

(** One round of the attempt loop, in a session that is up. *)
Lemma try_once_tracked (location url : string) (attempt : nat) (s : state) :
  in_session e1 e2 s true ->
  tracked session_step true
    (Aslocation.try_once w e1 e2 location url attempt) s
    (fun r s' up =>
       in_session e1 e2 s' up /\ (r = Val Return \/ up = true)).
Proof.
  intros H.
  unfold Aslocation.try_once.
  eapply tracked_try
    with (R := fun r s' up => in_session e1 e2 s' up /\ up = true).
  - unfold Aslocation.attempt_body. tgo; session_ok.
  - intros a s' up (H' & ->). split; [exact H' | now right].
  - intros e s' up (H' & ->).
    destruct e; cbn [handle issubclass];
      try (tstep; split; [exact H' | now right]).
    + unfold Aslocation.on_timeout. tgo; session_ok.
    + unfold Aslocation.on_webdriver_error. tstep. tstep.
      assert (D : driver s' <> None)
        by (destruct H' as (U & _); unfold is_up in U;
            destruct (driver s'); [discriminate | discriminate U]).
      destruct (driver s') as [k|] eqn:Dk; [|now destruct D].
      cbv beta iota. tstep.
      eapply tracked_bind; [apply initialize_driver_tracked | |].
      * intros d s1 up (F & R & D1 & Hd). cbv beta.
        destruct d as [k'|].
        -- destruct Hd as (-> & Hx). tgo; session_ok.
        -- subst up. tgo; session_ok.
      * intros e s1 up (F & R & D1 & _ & N). exfalso. apply N.
        destruct H' as (_ & X). exact (X eq_refl).
Qed.

Lemma attempts_tracked (location url : string) (left attempt : nat)
    (s : state) :
  in_session e1 e2 s true ->
  tracked session_step true
    (Aslocation.attempts w e1 e2 location url attempt left) s
    (fun r s' up =>
       in_session e1 e2 s' up /\ (r = Val Return \/ up = true)).
Proof.
  revert attempt s. induction left as [|left IH]; intros attempt s H;
    cbn [Aslocation.attempts].
  - tstep. split; [exact H | now right].
  - eapply tracked_bind; [now apply try_once_tracked | |].
    + intros c s' up (H' & [R | ->]); [injection R as ->; clear H | destruct c].
      * tstep. split; [exact H' | now left].
      * now apply IH.
      * tstep. split; [exact H' | now right].
      * tstep. split; [exact H' | now left].
    + intros e s' up (H' & [R | ->]); [discriminate R|].
      split; [exact H' | now right].
Qed.

Lemma visit_locations_tracked (locations : list string) (s : state) :
  in_session e1 e2 s true ->
  tracked session_step true
    (Aslocation.visit_locations w e1 e2 locations) s
    (fun r s' up =>
       in_session e1 e2 s' up /\ (r = Val Return \/ up = true)).
Proof.
  revert s. induction locations as [|location rest IH]; intros s H;
    cbn [Aslocation.visit_locations].
  - tstep. split; [exact H | now right].
  - tstep. tstep.
    + tstep. now apply IH.
    + tstep.
      eapply tracked_bind; [now apply attempts_tracked | |].
      * intros c s' up (H' & [R | ->]);
          [injection R as ->; clear H | destruct c].
        -- tstep. split; [exact H' | now left].
        -- now apply IH.
        -- now apply IH.
        -- tstep. split; [exact H' | now left].
      * intros e s' up (H' & [R | ->]); [discriminate R|].
        split; [exact H' | now right].
Qed.

Lemma scrape_google_emails_tracked
    (json_loads : string -> option Dict.dict) (locations : list string)
    (s : state) :
  tracked session_step false
    (Aslocation.scrape_google_emails json_loads w e1 e2 locations) s
    (fun _ _ up => up = false).
Proof.
  unfold Aslocation.scrape_google_emails.
  destruct (load_checkpoint_run json_loads Aslocation.CHECKPOINT_FILE s)
    as (d & t & E & L).
  eapply tracked_bind_run;
    [exact E | apply quiet_accepts, logged_quiet, L |].
  tstep. tstep.
  eapply tracked_bind
    with (R := fun r s' up => up = false /\ exists u, r = Val u).
  - eapply tracked_finally
      with (R := fun r s' up => in_session e1 e2 s' up /\ exists u, r = Val u).
    + eapply tracked_try
        with (R := fun r s' up => in_session e1 e2 s' up).
      * eapply tracked_bind; [apply initialize_driver_tracked | |].
        -- intros o s1 up (F & R & D1 & Hd). cbv beta. tstep.
           destruct o as [k|].
           ++ destruct Hd as (-> & X).
              eapply tracked_bind.
              ** apply visit_locations_tracked.
                 split; [reflexivity | intros _].
                 unfold extensions_there in *. state_simpl. now rewrite F.
              ** intros c s2 up (H' & _). tstep. exact H'.
              ** intros e s2 up (H' & _). exact H'.
           ++ subst up. tstep. split; [reflexivity | discriminate].
        -- intros e s1 up (F & R & D1 & -> & _).
           split; [|discriminate].
           unfold is_up. now rewrite D1.
      * intros a s' up H'. split; [exact H' | now exists a].
      * intros e s' up H'. cbn [handle issubclass].
        tstep. apply aslocation_save_last.
        split; [|now exists tt]. now apply in_session_saved.
    + intros r s' up ((U & _) & u & ->). cbv beta.
      tstep. unfold is_up in U.
      destruct (driver s') as [k|]; subst up.
      * tstep. tstep. split; [reflexivity | now exists u].
      * tstep. split; [reflexivity | now exists u].
  - intros u s' up (-> & _). tstep. reflexivity.
  - intros e s' up (_ & u & R). discriminate R.
Qed.

End AslocationSessions.

(** The browsers a run leaves up, read off its sessions: the session
    the script holds, if it holds one, and the browsers of the set-ups
    that failed at the set-up command. *)
Lemma session_browsers (es : list event) :
  forall (up up' : bool) (n : nat),
    accepts session_step up es = Some up' ->
    browsers_up (n + Nat.b2n up) es = n + stranded es + Nat.b2n up'.
Proof.
  induction es as [|e es IH]; intros up up' n A.
  - injection A as <-. cbn. lia.
  - cbn [accepts] in A.
    destruct (session_step up e) as [up1|] eqn:S; [|discriminate A].
    specialize (IH up1 up').
    destruct e as [| |[|]| | | | | | | | | |]; destruct up;
      try discriminate S; injection S as <-;
      cbn [browsers_up stranded filter List.length Nat.b2n];
      fold (stranded es);
      match type of A with
      | accepts _ ?b _ = _ =>
          match goal with
          | |- browsers_up ?a _ = _ =>
              first [ replace a with (n + Nat.b2n b) by (cbn; lia);
                      rewrite (IH n A); lia
                    | replace a with (S n + Nat.b2n b) by (cbn; lia);
                      rewrite (IH (S n) A); lia ]
          end
      end.
Qed.

(** X6.  The browser sessions of [aslocation.py], whatever the pages and
    the files do: the script asks for a session only when it holds none,
    fetches and scrolls only in a session it holds, quits a session only
    when it holds one, and holds none when [scrape_google_emails] returns.
    The browsers that are still up then are those of the set-ups that
    failed at the set-up command: [initialize_driver] returned [None] for
    them, and nothing quits them. *)
Theorem aslocation_sessions_safe :
  forall (json_loads : string -> option Dict.dict) (w : World)
         (e1 e2 : string) (locations : list string) (s : state),
    let o := Aslocation.scrape_google_emails json_loads w e1 e2 locations s in
    session_safe (events o)
    /\ browsers_up 0 (events o) = stranded (events o).
Proof.
  intros json_loads w e1 e2 locations s o.
  destruct (scrape_google_emails_tracked w e1 e2 json_loads locations s)
    as (up & A & ->).
  split; [exact A|].
  pose proof (session_browsers _ false false 0 A) as B.
  cbn [Nat.b2n Nat.add] in B. subst o. rewrite B. apply Nat.add_0_r.
Qed.

(** A set-up that fails at its command: the browser is up and the run
    ends without a [quit]. *)
Example aslocation_strands_browser :
  let o := Aslocation.scrape_google_emails (fun _ => None) stranding
             "a.crx" "b.crx" ["Austin"] (boot two_extensions) in
  In Stranded (events o) /\ ~ In Quit (events o)
  /\ browsers_up 0 (events o) = 1.
Proof. vm_compute. repeat split; [tauto | intuition discriminate]. Qed.

(** ** The one session of [loc.py] *)

Lemma quiet_once (phase : nat) (t : list (event * state)) :
  quiet t -> accepts once_step phase (map fst t) = Some phase.
Proof.
  induction 1 as [|[e s] t H _ IH]; [reflexivity|].
  cbn in *. destruct e; try discriminate H; exact IH.
Qed.

Lemma load_extensions_logged (f : Fs.fs) (paths : list string) (s : state) :
  exists b t, Loc.load_extensions f paths s = (Val b, s, t) /\ logged t.
Proof.
  induction paths as [|p paths IH]; cbn [Loc.load_extensions].
  - do 2 eexists; split; [reflexivity | constructor].
  - destruct (Fs.exists_ p f).
    + destruct IH as (b & t & E & C).
      rewrite bind_log, E.
      do 2 eexists; split; [reflexivity | repeat constructor; exact C].
    + rewrite bind_log. unfold ret. rewrite prepend_run.
      do 2 eexists; split; [reflexivity | repeat constructor].
Qed.

Ltac steady_ok :=
  unfold steady in *;
  cbn [driver files email_results found windows current visits loads starts
       with_results with_driver with_files next_start next_load next_visit
       with_windows with_found] in *;
  rewrite ?extract_emails_empty;
  unfold Py.set_update; cbn [filter app];
  repeat match goal with
         | H : _ /\ _ |- _ => destruct H
         | |- _ /\ _ => split
         end;
  rewrite ?app_nil_r;
  first [ assumption | reflexivity | congruence | eauto ].

(** The search of one query, read by an automaton that takes the log
    lines, the waits and the commands to the browser in its state [q1]
    and stays there. *)
Section LocRun.

Variable get_text : string -> string.
Variable w : World.
Variable St : Type.
Variable delta : St -> event -> option St.
Variable q1 : St.

Hypothesis d_log : forall lv msg, delta q1 (Log lv msg) = Some q1.
Hypothesis d_sleep : forall lo hi, delta q1 (Sleep lo hi) = Some q1.
Hypothesis d_get : forall item url, delta q1 (Get item url) = Some q1.
Hypothesis d_open : forall item link, delta q1 (OpenLink item link) = Some q1.
Hypothesis d_close : delta q1 CloseWindow = Some q1.
Hypothesis d_switch : forall h, delta q1 (SwitchTo h) = Some q1.

Lemma link_body_run (query link : string) (original_window : nat)
    (s0 s : state) :
  steady s0 s ->
  tracked delta q1 (Loc.link_body get_text w query link original_window)
    s (fun _ s' phase => phase = q1 /\ steady s0 s').
Proof.
  intro S.
  unfold Loc.link_body, Loc.window_open, Loc.last_window_handle,
    Loc.switch_to_window, Loc.close, Loc.alive.
  repeat tstep; steady_ok.
Qed.

Lemma visit_links_run (query : string) (original_window : nat)
    (links : list string) (s0 s : state) :
  steady s0 s ->
  tracked delta q1
    (Loc.visit_links get_text w query original_window links) s
    (fun _ s' phase => phase = q1 /\ steady s0 s').
Proof.
  revert s. induction links as [|link rest IH]; intros s S;
    cbn [Loc.visit_links].
  - tstep. now split.
  - eapply tracked_bind
      with (R := fun _ s' phase => phase = q1 /\ steady s0 s').
    + eapply tracked_try
        with (R := fun _ s' phase => phase = q1 /\ steady s0 s').
      * now apply link_body_run.
      * now intros a s' phase H.
      * intros e s' phase (-> & S').
        replace (handle _ e) with
          (log ERROR ("Error scraping link " ++ link ++ ": ");;
           try_except Loc.close [(Exception, ret tt)];;
           Loc.switch_to_window original_window)%eff
          by now destruct e.
        tstep.
        eapply tracked_bind
          with (R := fun _ s2 phase => phase = q1 /\ steady s0 s2).
        -- eapply tracked_try
             with (R := fun _ s2 phase => phase = q1 /\ steady s0 s2).
           ++ unfold Loc.close, Loc.alive. repeat tstep; steady_ok.
           ++ now intros a s2 phase H.
           ++ intros e' s2 phase H. destruct e'; cbn [handle issubclass];
                now tstep.
        -- intros a s2 phase (-> & S2).
           unfold Loc.switch_to_window. repeat tstep; steady_ok.
        -- now intros e' s2 phase H.
    + intros a s' phase (-> & S'). now apply IH.
    + now intros e s' phase H.
Qed.

(** [scrape_emails], in the session that is up. *)
Lemma scrape_emails_run (query : string) (s : state) :
  tracked delta q1 (Loc.scrape_emails get_text w query) s
    (fun r s' phase =>
       phase = q1 /\ r = Val []
       /\ email_results s' = email_results s /\ files s' = files s
       /\ driver s' = driver s).
Proof.
  unfold Loc.scrape_emails. tstep.
  eapply tracked_try
    with (R := fun r s' phase =>
                 phase = q1 /\ steady s s' /\ (forall e, r = Val e -> e = [])).
  - unfold Loc.scrape_body, Loc.current_window_handle, Loc.alive.
    repeat tstep; try (steady_ok; congruence).
    all: eapply tracked_bind
           with (R := fun _ s' phase => phase = q1 /\ steady s s');
      [ apply visit_links_run; steady_ok
      | intros a s' phase (-> & S'); repeat tstep;
        split; [reflexivity | split; [exact S'|]];
        intros e [= <-]; now destruct S' as (_ & _ & _ & F)
      | intros e s' phase (-> & S');
        split; [reflexivity | split; [exact S' | discriminate]] ].
  - intros a s' phase (-> & S' & E). rewrite (E a eq_refl).
    steady_ok.
  - intros e s' phase (-> & S' & _).
    destruct e; cbn [handle issubclass]; repeat tstep; steady_ok.
Qed.

(** The attempt loop is over after its first round: the handler for the
    driver errors has nothing to catch. *)
Lemma loc_attempts_run (paths : list string) (keyword city : string)
    (left : nat) (s : state) :
  tracked delta q1
    (Loc.attempts get_text w paths keyword city 0 (S left) []) s
    (fun r s' phase =>
       phase = q1 /\ r = Val (Next, [])
       /\ email_results s' = email_results s /\ files s' = files s
       /\ driver s' = driver s).
Proof.
  cbn [Loc.attempts].
  eapply tracked_bind
    with (R := fun r s' phase =>
                 phase = q1 /\ r = Val (Break, [])
                 /\ email_results s' = email_results s /\ files s' = files s
                 /\ driver s' = driver s).
  - eapply tracked_try
      with (R := fun r s' phase =>
                   phase = q1 /\ r = Val (Break, [])
                   /\ email_results s' = email_results s
                   /\ files s' = files s /\ driver s' = driver s).
    + eapply tracked_bind; [apply scrape_emails_run | |].
      * intros a s' phase (-> & [= ->] & H). tstep. auto.
      * intros e s' phase (_ & R & _). discriminate R.
    + now intros a s' phase H.
    + intros e s' phase (_ & R & _). discriminate R.
  - intros a s' phase (-> & [= ->] & H). cbn [fst snd]. tstep. auto.
  - intros e s' phase (_ & R & _). discriminate R.
Qed.

End LocRun.

Section LocSession.

Variable get_text : string -> string.
Variable str_key : string -> string -> string.
Variable w : World.

Lemma scrape_emails_once (query : string) (s : state) :
  tracked once_step 1 (Loc.scrape_emails get_text w query) s
    (fun r s' phase =>
       phase = 1 /\ r = Val []
       /\ email_results s' = email_results s /\ files s' = files s
       /\ driver s' = driver s).
Proof. now apply scrape_emails_run. Qed.

Lemma loc_attempts_once (paths : list string) (keyword city : string)
    (left : nat) (s : state) :
  tracked once_step 1
    (Loc.attempts get_text w paths keyword city 0 (S left) []) s
    (fun r s' phase =>
       phase = 1 /\ r = Val (Next, [])
       /\ email_results s' = email_results s /\ files s' = files s
       /\ driver s' = driver s).
Proof. now apply loc_attempts_run. Qed.

Lemma loc_save_once {B : Type} (k : unit -> M B) (phase : nat) (s : state)
    (P : res B -> state -> nat -> Prop) :
  tracked once_step phase (k tt)
    (with_files (saved Loc.CHECKPOINT_FILE (email_results s) (files s)) s)
    P ->
  tracked once_step phase (bind Loc.save_and_export k) s P.
Proof.
  destruct (loc_save_and_export_run s) as (t & E & Q).
  intro H. eapply tracked_bind_run; [exact E | now apply quiet_once | ].
  exact H.
Qed.

Lemma visit_cities_once (paths : list string) (keyword : string)
    (cities : list string) (s : state) :
  tracked once_step 1
    (Loc.visit_cities get_text str_key w paths keyword cities) s
    (fun r s' phase => phase = 1 /\ r = Val Next /\ driver s' = driver s).
Proof.
  revert s. induction cities as [|city rest IH]; intro s;
    cbn [Loc.visit_cities].
  - tstep. auto.
  - tstep. tstep; tstep; [apply IH|].
    unfold Loc.MAX_RETRIES.
    eapply tracked_bind; [apply (loc_attempts_once paths keyword city 2) | |].
    + intros r s' phase (-> & [= ->] & _ & _ & D). cbn [fst snd].
      tstep. apply loc_save_once. tstep.
      eapply tracked_weaken; [apply IH|].
      intros r s2 phase (-> & -> & D2). state_simpl. split; [reflexivity|].
      split; [reflexivity | congruence].
    + intros e s' phase (_ & R & _). discriminate R.
Qed.

Lemma visit_keywords_once (paths : list string) (keywords cities : list string)
    (s : state) :
  tracked once_step 1
    (Loc.visit_keywords get_text str_key w paths keywords cities) s
    (fun r s' phase => phase = 1 /\ r = Val Next /\ driver s' = driver s).
Proof.
  revert s. induction keywords as [|keyword rest IH]; intro s;
    cbn [Loc.visit_keywords].
  - tstep. auto.
  - eapply tracked_bind; [apply visit_cities_once | |].
    + intros c s' phase (-> & [= ->] & D).
      eapply tracked_weaken; [apply IH|].
      intros r s2 phase (-> & -> & D2). split; [reflexivity|].
      split; [reflexivity | congruence].
    + intros e s' phase (_ & R & _). discriminate R.
Qed.

(** The session that is asked for, before any other. *)
Lemma setup_driver_once (paths : list string) (s : state) :
  tracked once_step 0 (Loc.setup_driver w paths) s
    (fun r _ phase =>
       match r with
       | Val (Some _) => phase = 1
       | Val None => phase <> 1
       | Exc _ => False
       end).
Proof.
  unfold Loc.setup_driver. tstep.
  destruct (load_extensions_logged (files s) paths s) as (b & t & E & L).
  eapply tracked_bind_run;
    [exact E | apply quiet_once, logged_quiet, L |].
  destruct b; [|tstep; discriminate].
  tstep. tstep. tstep.
  destruct (start w (starts s)); repeat tstep;
    first [reflexivity | discriminate].
Qed.

Lemma campaign_once (json_loads : string -> option Dict.dict)
    (all_cities keywords : list string) (s : state) :
  tracked once_step 0
    (Loc.campaign json_loads get_text str_key w all_cities keywords) s
    (fun r _ phase => phase <> 1 /\ r = Val tt).
Proof.
  unfold Loc.campaign.
  destruct (load_checkpoint_run json_loads Loc.CHECKPOINT_FILE s)
    as (d & t & E & L).
  change Loc.load_checkpoint with Aslocation.load_checkpoint.
  eapply tracked_bind_run;
    [exact E | apply quiet_once, logged_quiet, L |].
  tstep.
  eapply tracked_bind; [apply setup_driver_once | |].
  - intros o s1 phase H. tstep. destruct o as [k|].
    + subst phase.
      eapply tracked_finally
        with (R := fun r s' phase =>
                     phase = 1 /\ r = Val tt /\ driver s' = Some k).
      * eapply tracked_try
          with (R := fun r s' phase =>
                       phase = 1 /\ r = Val tt /\ driver s' = Some k).
        -- eapply tracked_bind; [apply visit_keywords_once | |].
           ++ intros c s' phase (-> & [= ->] & D). repeat tstep.
              state_simpl. auto.
           ++ intros e s' phase (_ & R & _). discriminate R.
        -- now intros a s' phase H'.
        -- intros e s' phase (_ & R & _). discriminate R.
      * intros r s' phase (-> & -> & D). tstep. rewrite D.
        repeat tstep. split; [discriminate | reflexivity].
    + tstep. split; [exact H | reflexivity].
  - intros e s1 phase [].
Qed.

Lemma main_once (json_loads : string -> option Dict.dict)
    (book : option (list (string * Loc.sheet))) (s : state) :
  tracked once_step 0
    (Loc.main json_loads get_text str_key w book) s
    (fun r _ phase => phase <> 1 /\ r = Val tt).
Proof.
  unfold Loc.main. tstep.
  destruct (find _ _) as [path|].
  - tstep. split; [discriminate | reflexivity].
  - destruct (Loc.load_cities_and_keywords book "Sheet1")
      as [[usa_cities uk_cities] keywords].
    destruct (usa_cities ++ uk_cities)%list as [|city cities].
    + tstep. split; [discriminate | reflexivity].
    + destruct keywords as [|keyword keywords].
      * tstep. split; [discriminate | reflexivity].
      * apply campaign_once.
Qed.

End LocSession.

(** X7.  [scrape_emails] of [loc.py] raises nothing and gives the empty
    set, whatever the search page and the pages of the links do: every
    error ends in one of its two handlers, and [extract_emails] finds no
    address on any page.  The mapping and the files are left alone. *)
Theorem loc_scrape_emails_empty :
  forall (get_text : string -> string) (w : World) (query : string)
         (s : state),
    let o := Loc.scrape_emails get_text w query s in
    value o = Val []
    /\ email_results (final o) = email_results s
    /\ files (final o) = files s.
Proof.
  intros get_text w query s o.
  destruct (scrape_emails_once get_text w query s)
    as (phase & _ & _ & V & R & F & _).
  auto.
Qed.

Lemma once_browsers (es : list event) :
  forall (phase phase' n : nat),
    accepts once_step phase es = Some phase' ->
    browsers_up (n + Nat.b2n (phase =? 1)%nat) es
    = n + stranded es + Nat.b2n (phase' =? 1)%nat.
Proof.
  induction es as [|e es IH]; intros phase phase' n A.
  - injection A as <-. cbn. lia.
  - cbn [accepts] in A.
    destruct (once_step phase e) as [phase1|] eqn:S; [|discriminate A].
    specialize (IH phase1 phase').
    destruct e as [| |[|]| | | | | | | | | |];
      destruct phase as [|[|phase]];
      try discriminate S; injection S as <-;
      cbn [browsers_up stranded filter List.length Nat.b2n Nat.eqb];
      fold (stranded es);
      match type of A with
      | accepts _ ?p _ = _ =>
          match goal with
          | |- browsers_up ?a _ = _ =>
              first [ replace a with (n + Nat.b2n (p =? 1)%nat) by (cbn; lia);
                      rewrite (IH n A); lia
                    | replace a with (S n + Nat.b2n (p =? 1)%nat) by (cbn; lia);
                      rewrite (IH (S n) A); lia ]
          end
      end.
Qed.

(** X8.  [main] of [loc.py] raises nothing, asks for one browser session
    at most, sends commands to the browser only while it holds that
    session, and quits the session it holds before it returns; the restart
    of the handler for driver errors never runs, since [scrape_emails]
    lets no error out.  A browser that is up when [main] returns is that
    of a set-up that failed at the set-up command: [main] leaves at its
    line about the failed set-up, and nothing quits that browser. *)
Theorem loc_main_one_session :
  forall (json_loads : string -> option Dict.dict)
         (get_text : string -> string)
         (str_key : string -> string -> string) (w : World)
         (book : option (list (string * Loc.sheet))) (s : state),
    let o := Loc.main json_loads get_text str_key w book s in
    value o = Val tt
    /\ one_session (events o)
    /\ browsers_up 0 (events o) = stranded (events o).
Proof.
  intros json_loads get_text str_key w book s o.
  destruct (main_once get_text str_key w json_loads book s)
    as (phase & A & N & V).
  split; [exact V|]. split; [now exists phase|].
  pose proof (once_browsers _ 0 phase 0 A) as B.
  cbn [Nat.b2n Nat.eqb Nat.add] in B.
  apply Nat.eqb_neq in N. rewrite N in B. cbn [Nat.b2n] in B.
  subst o. rewrite B. apply Nat.add_0_r.
Qed.

(** A set-up of [loc.py] that fails at its command: the browser is up
    when [main] returns. *)
Example loc_strands_browser :
  let o := Loc.main (fun _ => None) (fun page => page) plain_key stranding
             blank_cell_book (boot loc_files) in
  value o = Val tt /\ In Stranded (events o) /\ ~ In Quit (events o)
  /\ browsers_up 0 (events o) = 1.
Proof. vm_compute. repeat split; [tauto | intuition discriminate]. Qed.

(** ** The browser sessions of [keyword001.py] *)

Lemma keyword001_scroll_up (h : nat) (hs : list nat) (s : state) :
  exists t,
    Keyword001.scroll h hs s = (Val tt, s, t)
    /\ accepts session_step true (map fst t) = Some true.
Proof.
  revert h. induction hs as [|h' hs IH]; intro h;
    cbn [Keyword001.scroll]; run.
  - eexists; split; reflexivity.
  - destruct (h' =? h)%nat; run.
    + eexists; split; reflexivity.
    + destruct (IH h') as (t & E & C). rewrite E.
      eexists; split; [reflexivity | exact C].
Qed.

Section Keyword001Sessions.

Variable w : World.
Variables e1 e2 keyword checkpoint_file region_name : string.

Lemma keyword001_save_tracked {B : Type} (d : Dict.dict) (k : unit -> M B)
    (up : bool) (s : state) (P : res B -> state -> bool -> Prop) :
  tracked session_step up (k tt)
    (with_files (saved checkpoint_file d (files s)) s) P ->
  tracked session_step up
    (bind (Keyword001.save_checkpoint d checkpoint_file) k) s P.
Proof.
  destruct (save_checkpoint_run d checkpoint_file s) as (t & E & Q).
  intro H.
  change Keyword001.save_checkpoint with Aslocation.save_checkpoint.
  eapply tracked_bind_run; [exact E | now apply quiet_accepts | ].
  exact H.
Qed.

Lemma keyword001_save_last (d : Dict.dict) (up : bool) (s : state)
    (P : res unit -> state -> bool -> Prop) :
  P (Val tt) (with_files (saved checkpoint_file d (files s)) s) up ->
  tracked session_step up (Keyword001.save_checkpoint d checkpoint_file) s P.
Proof.
  destruct (save_checkpoint_run d checkpoint_file s) as (t & E & Q).
  intro H.
  change Keyword001.save_checkpoint with Aslocation.save_checkpoint.
  eapply tracked_run; [exact E | now apply quiet_accepts | exact H].
Qed.

Lemma keyword001_initialize_tracked (s : state) :
  tracked session_step false (Keyword001.initialize_driver w e1 e2) s
    (fun r s' up =>
       files s' = files s /\ email_results s' = email_results s
       /\ driver s' = driver s
       /\ match r with
          | Val (Some _) => up = true /\ extensions_there e1 e2 s
          | Val None => up = false
          | Exc _ => up = false /\ ~ extensions_there e1 e2 s
          end).
Proof.
  unfold Keyword001.initialize_driver, extensions_there.
  tstep. tstep; [tstep|].
  { repeat split. intros (H & _). rewrite H in *. discriminate. }
  tstep; [tstep|].
  { repeat split. intros (_ & H). rewrite H in *. discriminate. }
  apply negb_false_iff in Heqb, Heqb0.
  tstep. tstep. tstep. state_simpl.
  destruct (start w (starts s)) eqn:St.
  - tstep. repeat split; assumption.
  - tstep. tstep. repeat split.
Qed.

Ltac kgo :=
  repeat first
    [ tstep
    | apply keyword001_save_tracked
    | lazymatch goal with
      | |- tracked _ true (bind (Keyword001.scroll ?h ?hs) _) ?st _ =>
          let t := fresh "t" in
          let E := fresh "E" in
          let A := fresh "A" in
          destruct (keyword001_scroll_up h hs st) as (t & E & A);
          eapply tracked_bind_run; [exact E | exact A |]
      | |- tracked _ _ (bind (for_each ?xs (fun x => log INFO (@?f x))) _)
             ?st _ =>
          let t := fresh "t" in
          let E := fresh "E" in
          let L := fresh "L" in
          destruct (for_each_logged f xs st) as (t & E & L);
          cbv beta in E;
          eapply tracked_bind_run;
            [exact E | apply quiet_accepts, logged_quiet, L |]
      end ].

(** One location, in a session that is up. *)
Lemma keyword001_location_tracked (location : string) (s : state) :
  in_session e1 e2 s true ->
  tracked session_step true
    (try_except
       (Keyword001.location_body w keyword checkpoint_file region_name
          location (Keyword001.url_of keyword location))
       [(WebDriverException,
          Keyword001.on_webdriver_error w e1 e2 checkpoint_file region_name
            location)]) s
    (fun r s' up =>
       in_session e1 e2 s' up /\ (r = Val Return \/ up = true)).
Proof.
  intros H.
  eapply tracked_try
    with (R := fun r s' up => in_session e1 e2 s' up /\ up = true).
  - unfold Keyword001.location_body. kgo; session_ok.
  - intros a s' up (H' & ->). split; [exact H' | now right].
  - intros e s' up (H' & ->).
    destruct e; cbn [handle issubclass];
      try (tstep; split; [exact H' | now right]).
    + unfold Keyword001.on_webdriver_error. tstep. tstep.
      assert (D : driver s' <> None)
        by (destruct H' as (U & _); unfold is_up in U;
            destruct (driver s'); [discriminate | discriminate U]).
      destruct (driver s') as [k|] eqn:Dk; [|now destruct D].
      cbv beta iota. tstep.
      eapply tracked_bind; [apply keyword001_initialize_tracked | |].
      * intros d s1 up (F & R & D1 & Hd). cbv beta.
        destruct d as [k'|].
        -- destruct Hd as (-> & Hx). kgo; session_ok.
        -- subst up. kgo; session_ok.
      * intros e s1 up (F & R & D1 & _ & N). exfalso. apply N.
        destruct H' as (_ & X). exact (X eq_refl).
    + unfold Keyword001.on_webdriver_error. tstep. tstep.
      assert (D : driver s' <> None)
        by (destruct H' as (U & _); unfold is_up in U;
            destruct (driver s'); [discriminate | discriminate U]).
      destruct (driver s') as [k|] eqn:Dk; [|now destruct D].
      cbv beta iota. tstep.
      eapply tracked_bind; [apply keyword001_initialize_tracked | |].
      * intros d s1 up (F & R & D1 & Hd). cbv beta.
        destruct d as [k'|].
        -- destruct Hd as (-> & Hx). kgo; session_ok.
        -- subst up. kgo; session_ok.
      * intros e s1 up (F & R & D1 & _ & N). exfalso. apply N.
        destruct H' as (_ & X). exact (X eq_refl).
Qed.

Lemma keyword001_visit_tracked (locations : list string) (s : state) :
  in_session e1 e2 s true ->
  tracked session_step true
    (Keyword001.visit_locations w e1 e2 keyword checkpoint_file region_name
       locations) s
    (fun r s' up =>
       in_session e1 e2 s' up /\ (r = Val Return \/ up = true)).
Proof.
  revert s. induction locations as [|location rest IH]; intros s H;
    cbn [Keyword001.visit_locations].
  - tstep. split; [exact H | now right].
  - tstep. tstep.
    + tstep. now apply IH.
    + tstep. tstep.
      eapply tracked_bind; [now apply keyword001_location_tracked | |].
      * intros c s' up (H' & [R | ->]);
          [injection R as ->; clear H | destruct c].
        -- tstep. split; [exact H' | now left].
        -- now apply IH.
        -- now apply IH.
        -- tstep. split; [exact H' | now left].
      * intros e s' up (H' & [R | ->]); [discriminate R|].
        split; [exact H' | now right].
Qed.

Lemma keyword001_scrape_tracked
    (json_loads : string -> option Dict.dict) (locations : list string)
    (s : state) :
  tracked session_step false
    (Keyword001.scrape_google_emails json_loads w e1 e2 locations keyword
       checkpoint_file region_name) s
    (fun _ _ up => up = false).
Proof.
  unfold Keyword001.scrape_google_emails.
  destruct (load_checkpoint_run json_loads checkpoint_file s)
    as (d & t & E & L).
  change Keyword001.load_checkpoint with Aslocation.load_checkpoint.
  eapply tracked_bind_run;
    [exact E | apply quiet_accepts, logged_quiet, L |].
  tstep. tstep.
  eapply tracked_bind
    with (R := fun r s' up => up = false /\ exists u, r = Val u).
  - eapply tracked_finally
      with (R := fun r s' up => in_session e1 e2 s' up /\ exists u, r = Val u).
    + eapply tracked_try
        with (R := fun r s' up => in_session e1 e2 s' up).
      * eapply tracked_bind; [apply keyword001_initialize_tracked | |].
        -- intros o s1 up (F & R & D1 & Hd). cbv beta. tstep.
           destruct o as [k|].
           ++ destruct Hd as (-> & X).
              eapply tracked_bind.
              ** apply keyword001_visit_tracked.
                 split; [reflexivity | intros _].
                 unfold extensions_there in *. state_simpl. now rewrite F.
              ** intros c s2 up (H' & _). tstep. exact H'.
              ** intros e s2 up (H' & _). exact H'.
           ++ subst up. tstep. split; [reflexivity | discriminate].
        -- intros e s1 up (F & R & D1 & -> & _).
           split; [|discriminate].
           unfold is_up. now rewrite D1.
      * intros a s' up H'. split; [exact H' | now exists a].
      * intros e s' up H'. cbn [handle issubclass].
        tstep. tstep. apply keyword001_save_last.
        split; [|now exists tt]. now apply in_session_saved.
    + intros r s' up ((U & _) & u & ->). cbv beta.
      tstep. unfold is_up in U.
      destruct (driver s') as [k|]; subst up.
      * tstep. tstep. split; [reflexivity | now exists u].
      * tstep. split; [reflexivity | now exists u].
  - intros u s' up (-> & _). tstep. reflexivity.
  - intros e s' up (_ & u & R). discriminate R.
Qed.

End Keyword001Sessions.

(** X9.  The browser sessions of [keyword001.py], in either phase and
    whatever the pages do: a session is asked for only when none is up,
    pages are fetched and scrolled only in a session that is up, and when
    [scrape_google_emails] returns no session is left behind. *)
Theorem keyword001_sessions_safe :
  forall (json_loads : string -> option Dict.dict) (w : World)
         (e1 e2 : string) (locations : list string)
         (keyword checkpoint_file region_name : string) (s : state),
    session_safe
      (events (Keyword001.scrape_google_emails json_loads w e1 e2 locations
                 keyword checkpoint_file region_name s)).
Proof.
  intros json_loads w e1 e2 locations keyword checkpoint_file region_name s.
  destruct (keyword001_scrape_tracked w e1 e2 keyword checkpoint_file
              region_name json_loads locations s)
    as (up & A & ->).
  exact A.
Qed.

(** ** The export of [loc.py] *)

Lemma in_set (k : string) (v : list string) (d : Dict.dict) :
  In (k, v) (Dict.set k v d).
Proof.
  induction d as [|[k' v'] d IH]; cbn; [now left|].
  destruct (String.eqb k' k); [now left | now right].
Qed.

(** One key that is not two characters long, and the unpacking of the
    keys fails. *)
Lemma export_rows_none (d : Dict.dict) (k : string) (v : list string) :
  In (k, v) d -> String.length k <> 2 -> Loc.export_rows d = None.
Proof.
  intros H N. induction d as [|[k' v'] d IH]; [destruct H|].
  cbn [Loc.export_rows].
  destruct H as [[= -> ->]|H].
  - destruct k as [|a [|b [|c k]]]; try reflexivity. now destruct N.
  - rewrite (IH H). now destruct k' as [|a [|b [|c k']]].
Qed.

Lemma logged_no_csv (t : list (event * state)) :
  logged t -> accepts no_csv tt (map fst t) = Some tt.
Proof.
  induction 1 as [|[e s] t H _ IH]; [reflexivity|].
  cbn in *. destruct e; try destruct H; exact IH.
Qed.

Lemma no_csv_events (es : list event) :
  accepts no_csv tt es = Some tt -> Forall (fun e => is_csv e = false) es.
Proof.
  induction es as [|e es IH]; intro A; [constructor|].
  cbn in A. destruct e; try discriminate A; constructor; auto.
Qed.

Lemma save_checkpoint_no_csv {B : Type} (d : Dict.dict) (path : string)
    (k : unit -> M B) (s : state) (P : res B -> state -> unit -> Prop) :
  (forall s', email_results s' = email_results s ->
              tracked no_csv tt (k tt) s' P) ->
  tracked no_csv tt (bind (Loc.save_checkpoint d path) k) s P.
Proof.
  intro K.
  eapply tracked_bind
    with (R := fun r s' _ => r = Val tt
                             /\ email_results s' = email_results s).
  - unfold Loc.save_checkpoint.
    eapply tracked_try
      with (R := fun r s' _ => (forall u, r = Val u -> u = tt)
                               /\ email_results s' = email_results s).
    + unfold open_w, write. repeat tstep; state_simpl;
        (split; [now intros [] | reflexivity]).
    + intros [] s' [] (_ & R). now split.
    + intros e s' [] (_ & R).
      destruct e; cbn [handle issubclass]; tstep; now split.
  - intros [] s' [] (_ & R). now apply K.
  - intros e s' [] (R & _). discriminate R.
Qed.

Section LocExport.

Variable get_text : string -> string.
Variable str_key : string -> string -> string.
Variable w : World.

Hypothesis key_length :
  forall keyword city, String.length (str_key keyword city) <> 2.

(** The export, once a key of [main] is on the mapping. *)
Lemma loc_save_no_csv {B : Type} (k : unit -> M B) (s : state)
    (P : res B -> state -> unit -> Prop) (keyword city : string)
    (v : list string) :
  In (str_key keyword city, v) (email_results s) ->
  (forall s', tracked no_csv tt (k tt) s' P) ->
  tracked no_csv tt (bind Loc.save_and_export k) s P.
Proof.
  intros H K. unfold Loc.save_and_export.
  tstep. tstep. tstep. apply save_checkpoint_no_csv. intros s' R.
  tstep. tstep. rewrite R. unfold Loc.export_to_csv.
  rewrite (export_rows_none _ _ _ H (key_length keyword city)).
  eapply tracked_bind with (R := fun r _ _ => r = Val tt).
  - eapply tracked_try with (R := fun r _ _ => r = Exc ValueError).
    + now tstep.
    + intros a s2 [] R2. discriminate R2.
    + intros e s2 [] [= ->]. cbn [handle issubclass]. now tstep.
  - intros [] s2 [] _. apply K.
  - intros e s2 [] R2. discriminate R2.
Qed.

Lemma visit_cities_no_csv (paths : list string) (keyword : string)
    (cities : list string) (s : state) :
  tracked no_csv tt
    (Loc.visit_cities get_text str_key w paths keyword cities) s
    (fun r _ _ => r = Val Next).
Proof.
  revert s. induction cities as [|city rest IH]; intro s;
    cbn [Loc.visit_cities].
  - now tstep.
  - tstep. tstep; tstep; [apply IH|].
    unfold Loc.MAX_RETRIES.
    eapply tracked_bind.
    + apply (loc_attempts_run get_text w unit no_csv tt); reflexivity.
    + intros r s' [] (_ & [= ->] & _). cbn [fst snd].
      tstep.
      eapply loc_save_no_csv; [state_simpl; apply in_set|].
      intro s2. tstep. apply IH.
    + intros e s' [] (_ & R & _). discriminate R.
Qed.

Lemma visit_keywords_no_csv (paths : list string)
    (keywords cities : list string) (s : state) :
  tracked no_csv tt
    (Loc.visit_keywords get_text str_key w paths keywords cities) s
    (fun r _ _ => r = Val Next).
Proof.
  revert s. induction keywords as [|keyword rest IH]; intro s;
    cbn [Loc.visit_keywords].
  - now tstep.
  - eapply tracked_bind; [apply visit_cities_no_csv | |].
    + intros c s' [] [= ->]. apply IH.
    + intros e s' [] R. discriminate R.
Qed.

Lemma main_no_csv (json_loads : string -> option Dict.dict)
    (book : option (list (string * Loc.sheet))) (s : state) :
  tracked no_csv tt (Loc.main json_loads get_text str_key w book) s
    (fun _ _ _ => True).
Proof.
  unfold Loc.main. tstep.
  destruct (find _ _) as [path|]; [now tstep|].
  destruct (Loc.load_cities_and_keywords book "Sheet1")
    as [[usa_cities uk_cities] keywords].
  destruct (usa_cities ++ uk_cities)%list as [|city cities]; [now tstep|].
  destruct keywords as [|keyword keywords]; [now tstep|].
  unfold Loc.campaign.
  destruct (load_checkpoint_run json_loads Loc.CHECKPOINT_FILE s)
    as (d & t & E & L).
  change Loc.load_checkpoint with Aslocation.load_checkpoint.
  eapply tracked_bind_run; [exact E | apply logged_no_csv, L |].
  tstep.
  eapply tracked_bind with (R := fun r _ _ => exists o, r = Val o).
  - unfold Loc.setup_driver. tstep.
    match goal with
    | |- tracked _ _ (bind (Loc.load_extensions ?f ?ps) _) ?st _ =>
        destruct (load_extensions_logged f ps st) as (b & t1 & E1 & L1)
    end.
    eapply tracked_bind_run; [exact E1 | apply logged_no_csv, L1 |].
    repeat tstep; now eexists.
  - intros o s1 [] _. tstep. destruct o as [k|]; [|now tstep].
    eapply tracked_finally with (R := fun _ _ _ => True).
    + eapply tracked_try with (R := fun _ _ _ => True).
      * eapply tracked_bind; [apply visit_keywords_no_csv | |].
        -- intros c s' [] [= ->]. now repeat tstep.
        -- now intros.
      * now intros.
      * intros e s' [] _. destruct e; cbn [handle issubclass]; now tstep.
    + intros r s' [] _. tstep. destruct (driver s'); now repeat tstep.
  - intros e s1 [] (o & R). discriminate R.
Qed.

End LocExport.

(** X10.  [main] of [loc.py] never writes its CSV file.  The keys it
    records are the texts of pairs, never two characters long, and the
    export unpacks each key of the mapping into a keyword and a city,
    which works on a text of two characters only: every export ends in
    the handler of [export_to_csv], with an error line and no file. *)
Theorem loc_never_exports :
  forall (json_loads : string -> option Dict.dict)
         (get_text : string -> string)
         (str_key : string -> string -> string) (w : World)
         (book : option (list (string * Loc.sheet))) (s : state),
    (forall keyword city, String.length (str_key keyword city) <> 2) ->
    Forall (fun e => is_csv e = false)
           (events (Loc.main json_loads get_text str_key w book s)).
Proof.
  intros json_loads get_text str_key w book s N.
  destruct (main_no_csv get_text str_key w N json_loads book s)
    as ([] & A & _).
  now apply no_csv_events.
Qed.

Lemma loc_never_exports_witness :
  Forall (fun e => is_csv e = false)
         (events (Loc.main (fun _ => None) (fun page => page) plain_key
                    (always (Loaded "" [] "")) blank_cell_book
                    (boot loc_files))).
Proof.
  apply loc_never_exports.
  intros keyword city. unfold plain_key. rewrite !length_append. cbn. lia.
Defined.

(** ** The locations [aslocation.py] loads *)

Lemma lstrip_clean (s : string) : starts_clean (Py.lstrip s).
Proof.
  induction s as [|c s IH]; cbn; [exact I|].
  destruct (Py.isspace c) eqn:E; [exact IH | exact E].
Qed.

Lemma lstrip_id (s : string) : starts_clean s -> Py.lstrip s = s.
Proof. destruct s as [|c s]; cbn; [reflexivity | now intros ->]. Qed.

Lemma rstrip_clean (s : string) : starts_clean s -> starts_clean (Py.rstrip s).
Proof.
  destruct s as [|c s]; cbn; [exact (fun H => H)|]. intro H.
  destruct (Py.rstrip s); [rewrite H|]; exact H.
Qed.

Lemma rstrip_cons (c : ascii) (s : string) :
  Py.rstrip (String c s)
  = match Py.rstrip s with
    | EmptyString =>
        if Py.isspace c then EmptyString else String c EmptyString
    | r => String c r
    end.
Proof. reflexivity. Qed.

Lemma rstrip_idem (s : string) : Py.rstrip (Py.rstrip s) = Py.rstrip s.
Proof.
  induction s as [|c s IH]; [reflexivity|].
  rewrite rstrip_cons.
  destruct (Py.rstrip s) as [|a r] eqn:E.
  - destruct (Py.isspace c) eqn:Sp; cbn; [reflexivity | now rewrite Sp].
  - rewrite rstrip_cons, IH. reflexivity.
Qed.

(** A text that was trimmed is its own trimming. *)
Lemma strip_idem (s : string) : Py.strip (Py.strip s) = Py.strip s.
Proof.
  unfold Py.strip.
  rewrite (lstrip_id (Py.rstrip (Py.lstrip s)))
    by apply rstrip_clean, lstrip_clean.
  apply rstrip_idem.
Qed.

Lemma first_seen_in (xs : list string) :
  forall x, In x (first_seen xs) <-> In x xs.
Proof.
  induction xs as [|y xs IH]; intro x; cbn; [tauto|].
  rewrite filter_In, IH. split.
  - intros [->|[H _]]; auto.
  - intros [->|H]; [now left|].
    destruct (String.eqb_spec x y) as [->|N]; [now left|].
    right. split; [exact H | reflexivity].
Qed.

Lemma first_seen_nodup (xs : list string) : NoDup (first_seen xs).
Proof.
  induction xs as [|y xs IH]; cbn; constructor.
  - rewrite filter_In. intros [_ H].
    now rewrite String.eqb_refl in H.
  - now apply NoDup_filter.
Qed.

Lemma column_values_in (cells : list Aslocation.cell) (x : string) :
  In x (Aslocation.column_values cells)
  <-> exists c, In (Some c) cells /\ x = Py.strip c.
Proof.
  unfold Aslocation.column_values. rewrite in_flat_map. split.
  - intros (oc & H & Hx). destruct oc as [c|]; [|destruct Hx].
    destruct Hx as [<-|[]]. now exists c.
  - intros (c & H & ->). exists (Some c). split; [exact H | now left].
Qed.

(** X11.  The locations [load_locations_from_excel] of [aslocation.py]
    gives, whatever the sheet: no location twice, none empty, each
    trimmed; and when the sheet has the column, they are the trimmed texts
    of its cells that are not empty, nothing else. *)
Theorem aslocation_locations_clean :
  forall (sheet : option (list (string * list Aslocation.cell)))
         (column_name : string),
    let locations := Aslocation.load_locations_from_excel sheet column_name in
    NoDup locations
    /\ Forall (fun x => x <> EmptyString /\ Py.strip x = x) locations
    /\ (forall columns cells,
          sheet = Some columns ->
          find (fun c => String.eqb (fst c) column_name) columns
          = Some (column_name, cells) ->
          forall x, In x locations
                    <-> x <> EmptyString
                        /\ exists c, In (Some c) cells /\ x = Py.strip c).
Proof.
  intros sheet column_name locations.
  assert (members :
    forall columns cells,
      sheet = Some columns ->
      find (fun c => String.eqb (fst c) column_name) columns
      = Some (column_name, cells) ->
      forall x, In x locations
                <-> x <> EmptyString
                    /\ exists c, In (Some c) cells /\ x = Py.strip c).
  { intros columns cells -> F x. subst locations.
    rewrite (aslocation_loader_first_seen columns column_name cells F).
    rewrite first_seen_in, filter_In, column_values_in.
    unfold nonempty. rewrite negb_true_iff, String.eqb_neq. tauto. }
  destruct sheet as [columns|];
    [|split; [constructor | split; [constructor | exact members]]].
  destruct (find (fun c => String.eqb (fst c) column_name) columns)
    as [[name cells]|] eqn:F.
  - assert (N : name = column_name).
    { apply find_some in F as (_ & F). now apply String.eqb_eq in F. }
    subst name.
    split; [|split; [|exact members]].
    + subst locations.
      rewrite (aslocation_loader_first_seen columns column_name cells F).
      apply first_seen_nodup.
    + apply Forall_forall. intros x H.
      apply (members columns cells eq_refl F) in H as (N & c & _ & ->).
      split; [exact N | apply strip_idem].
  - subst locations. unfold Aslocation.load_locations_from_excel.
    rewrite F.
    split; [apply NoDup_nil | split; [apply Forall_nil|]].
    unfold Aslocation.load_locations_from_excel in members.
    rewrite F in members. exact members.
Qed.

(** ** The address of a search *)

Lemma all_ascii_in (c : ascii) : In c all_ascii.
Proof.
  unfold all_ascii. rewrite <- (ascii_nat_embedding c).
  apply in_map, in_seq. pose proof (nat_ascii_bounded c). lia.
Qed.

Lemma quote_table_true : quote_table = true.
Proof. vm_compute. reflexivity. Qed.

Lemma quote_char_free (c c' : ascii) :
  c <> c' -> String.prefix (Url.quote_char c) (Url.quote_char c') = false.
Proof.
  intro N. pose proof quote_table_true as T. unfold quote_table in T.
  rewrite forallb_forall in T. specialize (T c (all_ascii_in c)).
  rewrite forallb_forall in T. specialize (T c' (all_ascii_in c')).
  apply orb_true_iff in T as [E|E].
  - apply Ascii.eqb_eq in E. contradiction.
  - now apply negb_true_iff in E.
Qed.

Lemma quote_char_safe (c : ascii) : url_safe (Url.quote_char c) = true.
Proof.
  assert (T : forallb (fun c => url_safe (Url.quote_char c)) all_ascii = true)
    by (vm_compute; reflexivity).
  rewrite forallb_forall in T. apply T, all_ascii_in.
Qed.

Lemma url_safe_app (a b : string) :
  url_safe (a ++ b) = url_safe a && url_safe b.
Proof.
  unfold url_safe. induction a as [|c a IH]; cbn; [reflexivity|].
  now rewrite IH, andb_assoc.
Qed.

(** Two texts that begin the same text: one begins the other. *)
Lemma app_prefix (a b x y : string) :
  a ++ x = b ++ y -> String.prefix a b = true \/ String.prefix b a = true.
Proof.
  revert b. induction a as [|c a IH]; intros b E.
  - left. now destruct b.
  - destruct b as [|c' b]; [now right|].
    cbn in E. injection E as -> E. cbn.
    destruct (ascii_dec c' c') as [_|N]; [now apply IH | now destruct N].
Qed.

Lemma quote_char_cons (c : ascii) :
  exists a r, Url.quote_char c = String a r.
Proof.
  unfold Url.quote_char, Url.pct.
  destruct (Url.unreserved c); [eauto|].
  destruct (nat_of_ascii c <? 128)%nat; cbn; eauto.
Qed.

(** [quote] can be undone: two texts with one encoding are one text. *)
Lemma quote_injective (s : string) :
  forall s', Url.quote s = Url.quote s' -> s = s'.
Proof.
  induction s as [|c s IH]; intros [|c' s'] E; cbn [Url.quote] in E.
  - reflexivity.
  - destruct (quote_char_cons c') as (a & r & Q). rewrite Q in E.
    discriminate E.
  - destruct (quote_char_cons c) as (a & r & Q). rewrite Q in E.
    discriminate E.
  - assert (C : c = c').
    { destruct (ascii_dec c c') as [C|N]; [exact C|].
      destruct (app_prefix _ _ _ _ E) as [P|P].
      - now rewrite (quote_char_free c c' N) in P.
      - rewrite (quote_char_free c' c) in P; [discriminate P | congruence]. }
    subst c'. apply append_cancel_l in E. f_equal. now apply IH.
Qed.

Lemma quote_safe (s : string) : url_safe (Url.quote s) = true.
Proof.
  induction s as [|c s IH]; cbn [Url.quote]; [reflexivity|].
  now rewrite url_safe_app, quote_char_safe, IH.
Qed.

Lemma append_snoc (x : string) (c : ascii) (a : string) :
  x ++ String c a = (x ++ String c EmptyString) ++ a.
Proof. now rewrite append_assoc. Qed.

Lemma append_cancel_r (a x y : string) : x ++ a = y ++ a -> x = y.
Proof.
  revert x y. induction a as [|c a IH]; intros x y E.
  - revert y E. induction x as [|b x IHx]; intros [|b' y] E; cbn in E;
      try discriminate E; [reflexivity|].
    injection E as -> E. f_equal. now apply IHx.
  - rewrite (append_snoc x), (append_snoc y) in E.
    apply IH in E. now apply append_cancel_last in E.
Qed.

(** X12.  The address each script fetches for an item is the search
    prefix, an encoding of the query that holds unreserved characters and
    percent escapes only, and the fixed [&num=50]; no text of a location,
    a keyword or a city can end the query or add a parameter, and two
    items that differ are fetched at two addresses. *)
Theorem search_urls_sound :
  (forall location : string,
      exists q : string,
        Aslocation.url_of location
        = "https://www.google.com/search?q=" ++ q ++ "&num=50"
        /\ url_safe q = true)
  /\ (forall keyword location : string,
        exists q : string,
          Keyword001.url_of keyword location
          = "https://www.google.com/search?q=" ++ q ++ "&num=50"
          /\ url_safe q = true)
  /\ (forall query : string,
        exists q : string,
          Loc.search_url query
          = "https://www.google.com/search?q=" ++ q ++ "&num=50"
          /\ url_safe q = true)
  /\ (forall location location' : string,
        Aslocation.url_of location = Aslocation.url_of location' ->
        location = location')
  /\ (forall keyword location location' : string,
        Keyword001.url_of keyword location
        = Keyword001.url_of keyword location' ->
        location = location')
  /\ (forall keyword city city' : string,
        Loc.search_url (Loc.query_of keyword city)
        = Loc.search_url (Loc.query_of keyword city') ->
        city = city').
Proof.
  repeat split.
  - intro location. eexists. split; [reflexivity | apply quote_safe].
  - intros keyword location. eexists.
    split; [reflexivity | apply quote_safe].
  - intro query. eexists. split; [reflexivity | apply quote_safe].
  - intros location location' E. unfold Aslocation.url_of in E.
    apply append_cancel_l, append_cancel_r, quote_injective in E.
    unfold Aslocation.query_of in E. apply append_cancel_l in E.
    injection E as E. now apply append_cancel_r in E.
  - intros keyword location location' E. unfold Keyword001.url_of in E.
    apply append_cancel_l, append_cancel_r, quote_injective in E.
    unfold Keyword001.query_of in E.
    apply append_cancel_l, append_cancel_l in E.
    injection E as E. now apply append_cancel_r in E.
  - intros keyword city city' E. unfold Loc.search_url in E.
    apply append_cancel_l, append_cancel_r, quote_injective in E.
    now apply query_of_city in E.
Qed.

(** ** The links [loc.py] opens *)

Lemma next_link_here (query link : string) (rest : list string) :
  next_link (link :: rest) (OpenLink query link) = Some rest.
Proof. cbn. now rewrite String.eqb_refl. Qed.

(** What the automaton took is the head of what it was given. *)
Lemma accepts_opened (es : list event) :
  forall todo left : list string,
    accepts next_link todo es = Some left ->
    todo = (opened es ++ left)%list.
Proof.
  induction es as [|e es IH]; intros todo left A; cbn in A.
  - now injection A as ->.
  - destruct (next_link todo e) as [todo'|] eqn:N; [|discriminate A].
    apply IH in A.
    destruct e; cbn in N |- *; try (injection N as <-; exact A).
    destruct todo as [|l rest]; [discriminate N|].
    destruct (String.eqb_spec l link) as [->|]; [|discriminate N].
    injection N as <-. now rewrite A.
Qed.

Lemma firstn_app_left {A : Type} (a b : list A) :
  firstn (List.length a) (a ++ b) = a.
Proof. induction a as [|x a IH]; cbn; [reflexivity | now rewrite IH]. Qed.

Lemma Forall_first {A : Type} (P : A -> Prop) (n : nat) (l : list A) :
  Forall P l -> Forall P (firstn n l).
Proof.
  intro H. revert n. induction H as [|x l H _ IH]; intros [|k]; cbn;
    constructor; auto.
Qed.

Lemma valid_links_http (hrefs : list (option string)) :
  Forall (fun l => l <> EmptyString /\ Py.contains "http" l = true)
         (Loc.valid_links hrefs).
Proof.
  unfold Loc.valid_links. apply Forall_forall. intros l H.
  apply in_flat_map in H as ([href|] & _ & H); [|destruct H].
  destruct (negb (String.eqb href EmptyString) && Py.contains "http" href)
    eqn:E; [|destruct H].
  destruct H as [<-|[]]. apply andb_prop in E as (N & C).
  split; [|exact C]. apply negb_true_iff in N. now apply String.eqb_neq.
Qed.

Section LocLinks.

Variable get_text : string -> string.
Variable w : World.

Lemma link_body_links (query link : string) (original_window : nat)
    (rest : list string) (s : state) :
  tracked next_link (link :: rest)
    (Loc.link_body get_text w query link original_window) s
    (fun _ _ todo => todo = rest).
Proof.
  pose proof (next_link_here query link rest) as N.
  unfold Loc.link_body, Loc.window_open, Loc.last_window_handle,
    Loc.switch_to_window, Loc.close, Loc.alive.
  repeat tstep; reflexivity.
Qed.

Lemma visit_links_links (query : string) (original_window : nat)
    (links : list string) (s : state) :
  tracked next_link links
    (Loc.visit_links get_text w query original_window links) s
    (fun _ _ _ => True).
Proof.
  revert s. induction links as [|link rest IH]; intro s;
    cbn [Loc.visit_links].
  - now tstep.
  - eapply tracked_bind with (R := fun _ _ todo => todo = rest).
    + eapply tracked_try with (R := fun _ _ todo => todo = rest).
      * apply link_body_links.
      * now intros a s' todo H.
      * intros e s' todo ->.
        replace (handle _ e) with
          (log ERROR ("Error scraping link " ++ link ++ ": ");;
           try_except Loc.close [(Exception, ret tt)];;
           Loc.switch_to_window original_window)%eff
          by now destruct e.
        tstep.
        eapply tracked_bind with (R := fun _ _ todo => todo = rest).
        -- eapply tracked_try with (R := fun _ _ todo => todo = rest).
           ++ unfold Loc.close, Loc.alive. repeat tstep; reflexivity.
           ++ now intros a s2 todo H.
           ++ intros e' s2 todo H. destruct e'; cbn [handle issubclass];
                now tstep.
        -- intros a s2 todo ->.
           unfold Loc.switch_to_window. repeat tstep; reflexivity.
        -- now intros e' s2 todo H.
    + intros a s' todo ->. apply IH.
    + now intros e s' todo H.
Qed.

Lemma scrape_emails_links (query : string) (s : state) :
  tracked next_link (firstn Loc.MAX_LINKS_PER_PAGE (result_links w s))
    (Loc.scrape_emails get_text w query) s (fun _ _ _ => True).
Proof.
  unfold Loc.scrape_emails, result_links. tstep.
  eapply tracked_try with (R := fun _ _ _ => True).
  - unfold Loc.scrape_body, Loc.current_window_handle, Loc.alive.
    tstep. tstep. state_simpl.
    repeat tstep; try exact I.
    all: eapply tracked_bind with (R := fun _ _ _ => True);
      [ apply visit_links_links
      | intros a s' todo _; now repeat tstep
      | now intros ].
  - now intros.
  - intros e s' todo _.
    destruct e; cbn [handle issubclass]; now repeat tstep.
Qed.

End LocLinks.

(** X13.  The links [scrape_emails] of [loc.py] opens for a query are
    the first of the result links of its search page, in the order of the
    page and five at most; each is an address that is not empty and holds
    [http]. *)
Theorem loc_links_bounded :
  forall (get_text : string -> string) (w : World) (query : string)
         (s : state),
    let links := opened (events (Loc.scrape_emails get_text w query s)) in
    (exists k : nat,
        links = firstn k (firstn Loc.MAX_LINKS_PER_PAGE (result_links w s)))
    /\ List.length links <= Loc.MAX_LINKS_PER_PAGE
    /\ Forall (fun l => l <> EmptyString /\ Py.contains "http" l = true)
              links.
Proof.
  intros get_text w query s links.
  destruct (scrape_emails_links get_text w query s) as (left & A & _).
  apply accepts_opened in A. fold links in A.
  assert (P : links
              = firstn (List.length links)
                  (firstn Loc.MAX_LINKS_PER_PAGE (result_links w s))).
  { rewrite A. now rewrite firstn_app_left. }
  split; [now exists (List.length links)|].
  split.
  - rewrite P, !length_firstn. unfold Loc.MAX_LINKS_PER_PAGE. lia.
  - rewrite P. do 2 apply Forall_first.
    unfold result_links. destruct (anchors w (loads s));
      [apply valid_links_http | constructor].
Qed.

(** ** A run that gets no session *)

Lemma refusing_events (bad : event -> bool) (es : list event) :
  accepts (refusing bad) tt es = Some tt -> Forall (fun e => bad e = false) es.
Proof.
  induction es as [|e es IH]; intro A; [constructor|].
  cbn in A. unfold refusing at 1 in A.
  destruct (bad e) eqn:B; [discriminate A|]. constructor; auto.
Qed.

Lemma no_get_fetches (t : list (event * state)) :
  Forall (fun e => is_get e = false) (map fst t) -> fetches t = [].
Proof.
  unfold fetches. induction (map fst t) as [|e es IH]; intro F;
    [reflexivity|].
  inversion F as [|? ? B F']; subst. cbn. rewrite B. now apply IH.
Qed.

Section NoSession.

Variable bad : event -> bool.
Hypothesis bad_local : forall e, local e = true -> bad e = false.

Lemma quiet_refusing (t : list (event * state)) :
  quiet t -> accepts (refusing bad) tt (map fst t) = Some tt.
Proof.
  induction 1 as [|[e s] t H _ IH]; [reflexivity|].
  cbn in *. unfold refusing at 1. now rewrite (bad_local e H).
Qed.

Variable json_loads : string -> option Dict.dict.
Variable w : World.
Variables e1 e2 : string.

Lemma aslocation_no_session (locations : list string) (s : state)
    (d0 : Dict.dict) :
  value (Aslocation.load_checkpoint json_loads Aslocation.CHECKPOINT_FILE s)
  = Val d0 ->
  Fs.exists_ e1 (files s) = false \/ Fs.exists_ e2 (files s) = false
  \/ start w (starts s) = false ->
  (Fs.exists_ e1 (files s) = true -> Fs.exists_ e2 (files s) = true ->
   bad (Start false) = false) ->
  bad Stranded = false ->
  tracked (refusing bad) tt
    (Aslocation.scrape_google_emails json_loads w e1 e2 locations) s
    (fun r s' _ =>
       r = Val d0
       /\ files s' = saved Aslocation.CHECKPOINT_FILE d0 (files s)
       /\ driver s' = None).
Proof.
  intros V H BS BT.
  assert (BL : forall lv msg, refusing bad tt (Log lv msg) = Some tt)
    by (intros lv msg; unfold refusing; now rewrite bad_local).
  assert (BT' : refusing bad tt Stranded = Some tt)
    by (unfold refusing; now rewrite BT).
  destruct (load_checkpoint_run json_loads Aslocation.CHECKPOINT_FILE s)
    as (d & t0 & E & L).
  rewrite E in V. injection V as ->.
  unfold Aslocation.scrape_google_emails.
  eapply tracked_bind_run;
    [exact E | apply quiet_refusing, logged_quiet, L |].
  tstep. tstep.
  pose (P := fun (r : res unit) (s' : state) (_ : unit) =>
               r = Val tt /\ email_results s' = d0
               /\ files s' = saved Aslocation.CHECKPOINT_FILE d0 (files s)
               /\ driver s' = None).
  assert (handler :
    forall e s1,
      email_results s1 = d0 -> files s1 = files s -> driver s1 = None ->
      tracked (refusing bad) tt
        (handle [(Exception,
                  (log ERROR "Error during scraping: ";;
                   Aslocation.save_and_export)%eff)] e) s1 P).
  { intros e s1 R F D. destruct e; cbn [handle issubclass];
      (eapply tracked_bind_emit;
       [unfold refusing; now rewrite bad_local|]);
      destruct (aslocation_save_and_export_run s1) as (t2 & E2 & Q2);
      (eapply tracked_run; [exact E2 | now apply quiet_refusing |]);
      unfold P; state_simpl; rewrite R, F; auto. }
  eapply tracked_bind with (R := P).
  - eapply tracked_finally with (R := P).
    + eapply tracked_try
        with (R := fun r s1 _ =>
                     (exists e, r = Exc e) /\ email_results s1 = d0
                     /\ files s1 = files s /\ driver s1 = None).
      * unfold Aslocation.initialize_driver. tstep. tstep. state_simpl.
        destruct (Fs.exists_ e1 (files s)) eqn:X1; cbn [negb];
          [|tstep; repeat split; state_simpl;
            first [now eexists | reflexivity]].
        destruct (Fs.exists_ e2 (files s)) eqn:X2; cbn [negb];
          [|tstep; repeat split; state_simpl;
            first [now eexists | reflexivity]].
        destruct H as [H|[H|H]]; try discriminate H.
        tstep. tstep. tstep. tstep. tstep. state_simpl. rewrite H.
        eapply tracked_bind_emit.
        { unfold refusing. rewrite (BS eq_refl eq_refl). reflexivity. }
        repeat tstep; repeat split; state_simpl;
          first [now eexists | reflexivity].
      * intros a s1 [] ((e & R) & _). discriminate R.
      * intros e s1 [] (_ & R & F & D). now apply handler.
    + intros r s1 [] (-> & R & F & D). tstep. rewrite D. tstep.
      unfold P. auto.
  - intros [] s1 [] (_ & R & F & D). tstep. rewrite R. auto.
  - intros e s1 [] (R & _). discriminate R.
Qed.

End NoSession.

(** X14.  [scrape_google_emails] of [aslocation.py] when its first
    session cannot be had, an extension file missing or the set-up of the
    browser failing: no page is fetched, the mapping that was loaded is
    saved back to the checkpoint file and returned, and with an extension
    missing no session is even asked for. *)
Theorem aslocation_no_first_session :
  forall (json_loads : string -> option Dict.dict) (w : World)
         (e1 e2 : string) (locations : list string) (s : state)
         (d0 : Dict.dict),
    value (Aslocation.load_checkpoint json_loads Aslocation.CHECKPOINT_FILE s)
    = Val d0 ->
    Fs.exists_ e1 (files s) = false \/ Fs.exists_ e2 (files s) = false
    \/ start w (starts s) = false ->
    let o := Aslocation.scrape_google_emails json_loads w e1 e2 locations s in
    fetches (trace o) = []
    /\ value o = Val d0
    /\ files (final o) = saved Aslocation.CHECKPOINT_FILE d0 (files s)
    /\ driver (final o) = None
    /\ (Fs.exists_ e1 (files s) && Fs.exists_ e2 (files s) = false ->
        Forall (fun e => is_start e = false) (events o)).
Proof.
  intros json_loads w e1 e2 locations s d0 V H o. subst o.
  destruct (aslocation_no_session is_get
              ltac:(intros []; cbn; congruence)
              json_loads w e1 e2 locations s d0 V H ltac:(reflexivity)
              eq_refl)
    as ([] & A & R & F & D).
  repeat split; try assumption.
  - apply no_get_fetches. now apply refusing_events.
  - intro X.
    destruct (aslocation_no_session is_start
                ltac:(intros []; cbn; congruence)
                json_loads w e1 e2 locations s d0 V H)
      as ([] & A' & _).
    + intros X1 X2. rewrite X1, X2 in X. discriminate X.
    + reflexivity.
    + now apply refusing_events.
Qed.

Lemma aslocation_no_first_session_witness :
  let o := Aslocation.scrape_google_emails (fun _ => None)
             (always (Loaded "" [] "")) "a.crx" "missing.crx"
             ["Austin"] (boot two_extensions) in
  fetches (trace o) = []
  /\ value o = Val []
  /\ files (final o) = saved Aslocation.CHECKPOINT_FILE [] two_extensions
  /\ driver (final o) = None
  /\ (true && false = false ->
      Forall (fun e => is_start e = false) (events o)).
Proof.
  apply (aslocation_no_first_session (fun _ => None)
           (always (Loaded "" [] "")) "a.crx" "missing.crx" ["Austin"]
           (boot two_extensions) []).
  - reflexivity.
  - right. left. reflexivity.
Defined.

(** ** A second run *)

Lemma has_set_same (k : string) (v : list string) (d : Dict.dict) :
  Dict.has k (Dict.set k v d) = true.
Proof.
  apply has_get. rewrite get_set_same. discriminate.
Qed.

Lemma has_set_kept (k k' : string) (v : list string) (d : Dict.dict) :
  Dict.has k d = true -> Dict.has k (Dict.set k' v d) = true.
Proof.
  intro H. destruct (String.eqb_spec k' k) as [->|N].
  - apply has_set_same.
  - apply has_get. rewrite get_set_other by exact N. now apply has_get.
Qed.

Lemma rstrip_end (c : ascii) (x : string) :
  Py.isspace c = false ->
  Py.rstrip (x ++ String c EmptyString) = x ++ String c EmptyString.
Proof.
  intro N. induction x as [|a x IH]; cbn [String.append].
  - cbn. now rewrite N.
  - rewrite rstrip_cons, IH. now destruct x.
Qed.

(** The text of a dump is not empty and has no white space at its ends. *)
Lemma dumps_strip (d : Dict.dict) :
  Py.strip (Json.dumps d) = Json.dumps d /\ Json.dumps d <> EmptyString.
Proof.
  assert (shape : exists x, Json.dumps d = String "{" (x ++ "}")).
  { unfold Json.dumps. destruct d as [|kv d]; [now exists EmptyString|].
    eexists. cbn [String.append]. f_equal.
    rewrite <- !append_assoc. reflexivity. }
  destruct shape as (x & ->). split; [|discriminate].
  unfold Py.strip. cbn [Py.lstrip].
  change (Py.isspace "{") with false. cbv iota.
  change (String "{" (x ++ "}")) with (String "{" x ++ "}").
  now apply rstrip_end.
Qed.

(** What [load_checkpoint] gives depends on the checkpoint file only. *)
Lemma load_checkpoint_same (json_loads : string -> option Dict.dict)
    (path : string) (s s' : state) :
  Fs.lookup path (files s) = Fs.lookup path (files s') ->
  value (Aslocation.load_checkpoint json_loads path s)
  = value (Aslocation.load_checkpoint json_loads path s').
Proof.
  intro E.
  destruct (aslocation_load_tolerant json_loads path s) as (_ & T).
  destruct (aslocation_load_tolerant json_loads path s') as (_ & T').
  rewrite <- E in T'.
  destruct (Fs.lookup path (files s)) as [[c|]|].
  - destruct (String.eqb (Py.strip c) EmptyString).
    + destruct T as (-> & _), T' as (-> & _). reflexivity.
    + destruct (json_loads (Py.strip c)).
      * destruct T as (-> & _), T' as (-> & _). reflexivity.
      * destruct T as (-> & _), T' as (-> & _). reflexivity.
  - destruct T as (-> & _), T' as (-> & _). reflexivity.
  - destruct T as (-> & _), T' as (-> & _). reflexivity.
Qed.

(** The checkpoint file that holds the dump of a mapping is read back as
    that mapping, by a decoder that undoes the dump. *)
Lemma load_checkpoint_synced (json_loads : string -> option Dict.dict)
    (path : string) (d : Dict.dict) (s : state) :
  Fs.lookup path (files s) = Some (Fs.Text (Json.dumps d)) ->
  json_loads (Py.strip (Json.dumps d)) = Some d ->
  value (Aslocation.load_checkpoint json_loads path s) = Val d.
Proof.
  intros E J.
  destruct (aslocation_load_tolerant json_loads path s) as (_ & T).
  rewrite E in T. destruct (dumps_strip d) as (S & N).
  rewrite J in T. rewrite S in T.
  apply String.eqb_neq in N. rewrite N in T. now destruct T.
Qed.

Section SecondRun.

Variable w : World.
Variables e1 e2 : string.
Variable f0 : Fs.fs.
Variable d0 : Dict.dict.

Hypothesis loads_ok : all_load w.

(** A run in which every page loads goes through the whole list, and
    every location of the list is on the mapping after it. *)
Lemma visit_all_loaded (locations : list string) :
  forall s : state,
    resumable Aslocation.CHECKPOINT_FILE f0 d0 s ->
    exists (s' : state) (t : list (event * state)),
      Aslocation.visit_locations w e1 e2 locations s = (Val Next, s', t)
      /\ resumable Aslocation.CHECKPOINT_FILE f0 d0 s'
      /\ driver s' = driver s
      /\ (forall l, In l locations ->
                    Dict.has l (email_results s') = true)
      /\ (forall l, Dict.has l (email_results s) = true ->
                    Dict.has l (email_results s') = true).
Proof.
  induction locations as [|location rest IH]; intros s J.
  - exists s, [].
    split; [reflexivity|]. split; [exact J|]. split; [reflexivity|].
    split; [intros l [] | auto].
  - rewrite visit_locations_step.
    destruct (Dict.has location (email_results s)) eqn:H.
    + destruct (IH s J) as (s' & t & E & J' & D & A & K).
      rewrite E. do 2 eexists. split; [reflexivity|].
      split; [exact J'|]. split; [exact D|]. split; [|exact K].
      intros l [<-|L]; [now apply K | now apply A].
    + cbv zeta. change Aslocation.MAX_RETRIES with 3.
      rewrite attempts_step.
      destruct (loads_ok (loads s) (Aslocation.url_of location))
        as (first & heights & page_html & L).
      destruct (aslocation_attempt_loaded w e1 e2 location
                  (Aslocation.url_of location) 0 s first heights page_html L)
        as (t1 & E1 & _).
      rewrite E1.
      match type of E1 with
      | _ = (_, ?s1, _) =>
          assert (J1 : resumable Aslocation.CHECKPOINT_FILE f0 d0 s1)
      end.
      { destruct J as (N & _). unfold resumable, synced. state_simpl.
        rewrite (saved_lookup _ _ _ N). split; [discriminate | now right]. }
      destruct (IH _ J1) as (s' & t & E & J' & D & A & K).
      rewrite E. do 2 eexists. split; [reflexivity|].
      split; [exact J'|]. split; [exact D|]. split.
      * intros l [<-|X]; [|now apply A].
        apply K. state_simpl. apply has_set_same.
      * intros l X. apply K. state_simpl. now apply has_set_kept.
Qed.

End SecondRun.

(** A run whose locations are all on the checkpoint fetches nothing. *)
Lemma visit_all_skipped (w : World) (e1 e2 : string)
    (locations : list string) (s : state) :
  (forall l, In l locations -> Dict.has l (email_results s) = true) ->
  exists t,
    Aslocation.visit_locations w e1 e2 locations s = (Val Next, s, t)
    /\ logged t.
Proof.
  induction locations as [|location rest IH]; intro A.
  - exists []. split; [reflexivity | constructor].
  - rewrite visit_locations_step, (A location (or_introl eq_refl)).
    destruct IH as (t & E & L); [intros l X; apply A; now right|].
    rewrite E. eexists. split; [reflexivity|].
    constructor; [exact I | exact L].
Qed.

Lemma logged_no_get (t : list (event * state)) :
  logged t -> accepts (refusing is_get) tt (map fst t) = Some tt.
Proof.
  induction 1 as [|[e s] t H _ IH]; [reflexivity|].
  cbn in *. destruct e; try destruct H; exact IH.
Qed.

Lemma quiet_no_get (t : list (event * state)) :
  quiet t -> accepts (refusing is_get) tt (map fst t) = Some tt.
Proof.
  induction 1 as [|[e s] t H _ IH]; [reflexivity|].
  cbn in *. destruct e; try discriminate H; exact IH.
Qed.

Lemma aslocation_all_done (json_loads : string -> option Dict.dict)
    (w : World) (e1 e2 : string) (locations : list string) (s : state)
    (d : Dict.dict) :
  value (Aslocation.load_checkpoint json_loads Aslocation.CHECKPOINT_FILE s)
  = Val d ->
  (forall l, In l locations -> Dict.has l d = true) ->
  tracked (refusing is_get) tt
    (Aslocation.scrape_google_emails json_loads w e1 e2 locations) s
    (fun r _ _ => r = Val d).
Proof.
  intros V A.
  destruct (load_checkpoint_run json_loads Aslocation.CHECKPOINT_FILE s)
    as (d' & t0 & E & L).
  rewrite E in V. injection V as ->.
  unfold Aslocation.scrape_google_emails.
  eapply tracked_bind_run; [exact E | now apply logged_no_get |].
  tstep. tstep.
  eapply tracked_bind
    with (R := fun r s' _ => r = Val tt /\ email_results s' = d).
  - eapply tracked_finally
      with (R := fun r s' _ => r = Val tt /\ email_results s' = d).
    + eapply tracked_try
        with (R := fun r s' _ => (forall u, r = Val u -> u = tt)
                                 /\ email_results s' = d).
      * unfold Aslocation.initialize_driver.
        repeat tstep; state_simpl; try (split; [discriminate | reflexivity]).
        match goal with
        | |- tracked _ _ (bind (Aslocation.visit_locations _ _ _ _) _) ?st _
          => destruct (visit_all_skipped w e1 e2 locations st A)
               as (t1 & E1 & L1)
        end.
        eapply tracked_bind_run; [exact E1 | now apply logged_no_get |].
        tstep. split; [now intros [] | reflexivity].
      * intros [] s' [] (_ & R). now split.
      * intros e s' [] (_ & R). destruct e; cbn [handle issubclass];
          (eapply tracked_bind_emit; [reflexivity|]);
          destruct (aslocation_save_and_export_run s') as (t2 & E2 & Q2);
          (eapply tracked_run; [exact E2 | now apply quiet_no_get |]);
          state_simpl; now split.
    + intros r s' [] (-> & R). repeat tstep; now split.
  - intros [] s' [] (_ & R). tstep. now rewrite R.
  - intros e s' [] (R & _). discriminate R.
Qed.

(** X15.  A second run of [aslocation.py] after a run in which every
    page loaded: the first run leaves every location of the list on the
    mapping and the mapping in the checkpoint file, and the second run,
    on the files the first one left and whatever its pages would do,
    reads the mapping back, fetches no page and returns the same mapping.
    This is for a checkpoint path that can be written and a decoder that
    undoes the dump of the mapping. *)
Theorem aslocation_second_run :
  forall (json_loads : string -> option Dict.dict) (w1 w2 : World)
         (e1 e2 : string) (locations : list string) (f : Fs.fs),
    Fs.exists_ e1 f = true ->
    Fs.exists_ e2 f = true ->
    Fs.lookup Aslocation.CHECKPOINT_FILE f <> Some Fs.Denied ->
    start w1 0 = true ->
    all_load w1 ->
    let o1 := Aslocation.scrape_google_emails json_loads w1 e1 e2 locations
                (boot f) in
    (forall d, value o1 = Val d ->
               json_loads (Py.strip (Json.dumps d)) = Some d) ->
    let o2 := Aslocation.scrape_google_emails json_loads w2 e1 e2 locations
                (boot (files (final o1))) in
    (exists d1, value o1 = Val d1
                /\ forall l, In l locations -> Dict.has l d1 = true)
    /\ fetches (trace o2) = []
    /\ value o2 = value o1.
Proof.
  intros json_loads w1 w2 e1 e2 locations f X1 X2 N St Ld o1 Dec o2.
  destruct (scrape_reaches_loop json_loads w1 e1 e2 locations f X1 X2 St)
    as (d0 & t0 & E0 & L0 & _ & Run).
  match type of Run with
  | forall c s2 t, _ _ _ _ _ ?st = _ -> _ =>
      destruct (visit_all_loaded w1 e1 e2 f d0 Ld locations st)
        as (s2 & t & E & J & D & A & _)
  end.
  { split; [exact N | left; split; reflexivity]. }
  specialize (Run Next s2 t E).
  assert (O1 : o1 = (Val (email_results s2), s2,
                     (t0 ++ (Start true,
                             next_start (with_driver None
                                           (with_results d0 (boot f))))
                         :: t ++ [(Quit, s2);
                                  (Log INFO "Browser closed.", s2)])%list)).
  { apply Run. rewrite D. discriminate. }
  assert (V1 : value o1 = Val (email_results s2)) by now rewrite O1.
  assert (F1 : final o1 = s2) by now rewrite O1.
  assert (V2 : value (Aslocation.load_checkpoint json_loads
                        Aslocation.CHECKPOINT_FILE (boot (files (final o1))))
               = Val (email_results s2)).
  { rewrite F1. destruct J as (_ & [(R & Same)|Sy]).
    - rewrite R.
      rewrite (load_checkpoint_same json_loads Aslocation.CHECKPOINT_FILE
                 (boot (files s2)) (boot f) Same).
      now rewrite E0.
    - apply load_checkpoint_synced; [exact Sy | now apply Dec]. }
  split; [exists (email_results s2); split; [exact V1 | exact A]|].
  destruct (aslocation_all_done json_loads w2 e1 e2 locations
              (boot (files (final o1))) (email_results s2) V2 A)
    as ([] & Acc & R).
  split.
  - apply no_get_fetches. now apply refusing_events.
  - fold o2 in R. now rewrite R, V1.
Qed.

Lemma aslocation_second_run_witness :
  let o1 := Aslocation.scrape_google_emails
              (decodes_to [("Austin", []); ("Denver", [])])
              (always (Loaded "" [] "")) "a.crx" "b.crx"
              ["Austin"; "Denver"] (boot two_extensions) in
  let o2 := Aslocation.scrape_google_emails
              (decodes_to [("Austin", []); ("Denver", [])])
              (always (Loaded "" [] "<html>")) "a.crx" "b.crx"
              ["Austin"; "Denver"] (boot (files (final o1))) in
  (exists d1, value o1 = Val d1
              /\ forall l, In l ["Austin"; "Denver"] ->
                           Dict.has l d1 = true)
  /\ fetches (trace o2) = []
  /\ value o2 = value o1.
Proof.
  apply (aslocation_second_run
           (decodes_to [("Austin", []); ("Denver", [])])
           (always (Loaded "" [] "")) (always (Loaded "" [] "<html>"))
           "a.crx" "b.crx" ["Austin"; "Denver"] two_extensions).
  - reflexivity.
  - reflexivity.
  - discriminate.
  - reflexivity.
  - intros k url. do 3 eexists. reflexivity.
  - intros d V. vm_compute in V. injection V as <-. reflexivity.
Defined.

(** * Write-through, item by item *)

Lemma fetches_pace (t : list (event * state)) :
  fetches t = filter is_get (pace t).
Proof.
  unfold fetches, pace. induction (map fst t) as [|e es IH]; [reflexivity|].
  cbn [filter]. destruct e; cbn [paced is_get filter]; now rewrite IH.
Qed.

Lemma no_get_in_sleeps (lo hi n : nat) :
  filter is_get (repeat (Sleep lo hi) n) = [].
Proof. induction n as [|n IH]; [reflexivity | exact IH]. Qed.

(** One attempt on a page that loads, with its events: the save and the
    export are their last. *)
Lemma aslocation_attempt_events (w : World) (e1 e2 location url : string)
    (attempt : nat) (s : state)
    (first : string) (heights : list nat) (page_html : string) :
  load w (loads s) url = Loaded first heights page_html ->
  let d := Dict.set location (Py.sorted (Aslocation.page_emails page_html))
             (email_results s) in
  exists (t : list (event * state)) (s' : state) (before : list event),
    Aslocation.try_once w e1 e2 location url attempt s = (Val Break, s', t)
    /\ map fst t
       = (before ++ save_and_export_events d (files s))%list.
Proof.
  intros L d.
  unfold Aslocation.try_once, Aslocation.attempt_body.
  assert (C : exists t0,
          (if Py.contains Aslocation.challenge first
           then log WARNING ("CAPTCHA detected for " ++ location
                             ++ ". Relying on Buster extension.");;
                sleep 10 10
           else ret tt)%eff (next_load s) = (Val tt, next_load s, t0)).
  { destruct (Py.contains Aslocation.challenge first); eexists; reflexivity. }
  destruct C as (t0 & E0).
  destruct (aslocation_scroll_paced (hd 0 heights) (tl heights)
              (next_load s)) as (t1 & E1 & _).
  destruct (for_each_logged (fun email : string => email)
              (Aslocation.page_emails page_html)
              (with_results d (next_load s))) as (t2 & E2 & _).
  cbv beta in E2.
  destruct (aslocation_save_and_export_events (with_results d (next_load s)))
    as (t3 & E3 & _ & Ev3).
  eexists. eexists. eexists. split.
  - apply try_val. walk. rewrite L. walk.
    rewrite (bind_val _ _ _ _ _ _ E0).
    rewrite (bind_val _ _ _ _ _ _ E1). walk.
    rewrite (bind_val _ _ _ _ _ _ E2).
    rewrite (bind_val _ _ _ _ _ _ E3).
    unfold ret. rewrite !prepend_run. reflexivity.
  - rewrite app_nil_r, !app_assoc, map_app.
    apply f_equal2; [reflexivity | exact Ev3].
Qed.

(** A page that loads, at whatever attempt: the location is recorded
    with the sorted extraction, the checkpoint saved, and the attempt loop
    is over. *)
Lemma aslocation_loaded_saved (w : World) (e1 e2 location url : string)
    (attempt left : nat) (s : state)
    (first : string) (heights : list nat) (page_html : string) :
  load w (loads s) url = Loaded first heights page_html ->
  exists (t : list (event * state)) (s' : state) (before : list event),
    Aslocation.attempts w e1 e2 location url attempt (S left) s
    = (Val Next, s', t)
    /\ fetches t = [Get location url]
    /\ email_results s'
       = Dict.set location (Py.sorted (Aslocation.page_emails page_html))
           (email_results s)
    /\ files s' = saved Aslocation.CHECKPOINT_FILE (email_results s') (files s)
    /\ reflected Aslocation.CHECKPOINT_FILE (files s) s'
    /\ map fst t
       = (before ++ save_and_export_events (email_results s') (files s))%list.
Proof.
  intro L.
  destruct (aslocation_attempt_loaded w e1 e2 location url attempt s
              first heights page_html L) as (t & E & P).
  destruct (aslocation_attempt_events w e1 e2 location url attempt s
              first heights page_html L) as (t' & s'' & before & E' & Ev).
  cbv zeta in E, Ev. rewrite E in E'. injection E' as <- <-.
  rewrite attempts_step, E.
  eexists. eexists. exists before. split; [reflexivity|].
  split; [|split; [|split; [|split]]].
  - rewrite fetches_pace, P. cbn [filter is_get].
    rewrite filter_app, no_get_in_sleeps.
    now destruct (Py.contains Aslocation.challenge first).
  - reflexivity.
  - reflexivity.
  - eapply saved_reflected; reflexivity.
  - exact Ev.
Qed.

(** The timeout of the last attempt: the location is recorded with the
    empty list, the checkpoint saved, and the attempt loop is over. *)
Lemma aslocation_timeout_saved (w : World) (e1 e2 location url : string)
    (s : state) :
  load w (loads s) url = Fails TimeoutException ->
  exists (t : list (event * state)) (s' : state) (before : list event),
    Aslocation.attempts w e1 e2 location url (Aslocation.MAX_RETRIES - 1) 1 s
    = (Val Next, s', t)
    /\ fetches t = [Get location url]
    /\ email_results s' = Dict.set location [] (email_results s)
    /\ files s' = saved Aslocation.CHECKPOINT_FILE (email_results s') (files s)
    /\ reflected Aslocation.CHECKPOINT_FILE (files s) s'
    /\ map fst t
       = (before ++ save_and_export_events (email_results s') (files s)
            ++ [Sleep 5 10])%list.
Proof.
  intro L.
  destruct (timeout_at_last w e1 e2 location url s L) as (t & E & Q & Ev).
  cbv zeta in E, Ev. rewrite attempts_step, E.
  cbn [Aslocation.attempts]. unfold ret. rewrite prepend_run, app_nil_r.
  eexists. eexists. eexists. split; [reflexivity|].
  split; [|split; [|split; [|split]]].
  - rewrite !fetches_cons. cbn [is_get].
    rewrite fetches_app, (fetches_quiet t Q). reflexivity.
  - reflexivity.
  - reflexivity.
  - eapply saved_reflected; reflexivity.
  - cbn [map fst]. rewrite map_app, Ev. cbn [map fst].
    cbn [email_results files with_files with_results].
    match goal with
    | |- ?a :: ?b :: ?c :: ?r = _ => change (a :: b :: c :: r)
                                      with ([a; b; c] ++ r)%list
    end.
    reflexivity.
Qed.

Lemma quiet_gets_none (t : list (event * state)) :
  quiet t -> Forall (fun e => is_get e = false) (map fst t).
Proof. intro Q. now apply refusing_events, quiet_no_get. Qed.

(** The save and the export of [loc.py], with the events of the save. *)
Lemma loc_save_and_export_events (s : state) :
  exists (t : list (event * state)) (after : list event),
    Loc.save_and_export s
    = (Val tt,
       with_files (saved Loc.CHECKPOINT_FILE (email_results s) (files s)) s,
       t)
    /\ map fst t
       = (save_events Loc.CHECKPOINT_FILE (email_results s) (files s)
            ++ after)%list
    /\ Forall (fun e => is_get e = false) after.
Proof.
  unfold Loc.save_and_export. run.
  destruct (save_checkpoint_events (email_results s) Loc.CHECKPOINT_FILE s)
    as (t & E & Q & Ev).
  change Loc.save_checkpoint with Aslocation.save_checkpoint.
  rewrite E. run.
  match goal with
  | |- context [Loc.export_to_csv ?d ?f ?s'] =>
      destruct (loc_export_run d f s') as (t' & E' & Q'); rewrite E'
  end.
  run. exists (t ++ t')%list, (map fst t'). split; [reflexivity|].
  split; [|now apply quiet_gets_none].
  rewrite map_app. apply f_equal2; [exact Ev | reflexivity].
Qed.

(** A city of [loc.py], whatever its pages do: it is recorded with the
    empty list, the checkpoint saved, and the loop goes on. *)
Lemma loc_city_saved (get_text : string -> string)
    (str_key : string -> string -> string) (w : World)
    (paths : list string) (keyword city : string) (rest : list string)
    (s : state) :
  Dict.has (str_key keyword city) (email_results s) = false ->
  exists (t : list (event * state)) (s' : state)
         (before after : list event),
    Loc.visit_cities get_text str_key w paths keyword (city :: rest) s
    = prepend t (Loc.visit_cities get_text str_key w paths keyword rest s')
    /\ email_results s'
       = Dict.set (str_key keyword city) [] (email_results s)
    /\ files s' = saved Loc.CHECKPOINT_FILE (email_results s') (files s)
    /\ reflected Loc.CHECKPOINT_FILE (files s) s'
    /\ map fst t
       = (before
            ++ save_events Loc.CHECKPOINT_FILE (email_results s') (files s)
            ++ after)%list
    /\ Forall (fun e => is_get e = false) after.
Proof.
  intro H.
  destruct (scrape_emails_once get_text w (Loc.query_of keyword city) s)
    as (phase & _ & _ & V & R & F & _).
  destruct (Loc.scrape_emails get_text w (Loc.query_of keyword city) s)
    as [[r s1] t1] eqn:E.
  cbn [value final fst snd] in V, R, F. subst r.
  cbn [Loc.visit_cities]. walk. rewrite H. walk.
  unfold Loc.MAX_RETRIES.
  rewrite (bind_val _ _ _ _ _ _
             (loc_attempts_returned get_text w paths keyword city 2 s s1
                [] t1 E)).
  cbn [fst snd Py.sorted fold_right]. walk.
  match goal with
  | |- context [bind Loc.save_and_export _ ?st] =>
      destruct (loc_save_and_export_events st)
        as (t2 & after & E2 & Ev2 & G2);
      rewrite (bind_val _ _ _ _ _ _ E2)
  end.
  walk. rewrite !prepend_prepend.
  eexists. eexists.
  exists (Log INFO ("Scraping emails for keyword: " ++ keyword
                    ++ ", city: " ++ city) :: map fst t1),
         (after ++ [Sleep Loc.MIN_DELAY Loc.MAX_DELAY])%list.
  split; [reflexivity|].
  cbn [email_results files with_files with_results].
  rewrite R, F. split; [reflexivity|]. split; [reflexivity|].
  split; [eapply saved_reflected; reflexivity|].
  split.
  - cbn [app map fst]. rewrite !map_app, Ev2. cbn [map fst].
    cbn [email_results files with_files with_results].
    rewrite R, F, <- !app_assoc. reflexivity.
  - apply Forall_app. split; [exact G2 | repeat constructor].
Qed.

(** C4, amended.  When [aslocation.py] is done with a location, by a
    page that loaded or by the timeout of the last attempt, the location
    is on the mapping with its result and [save_checkpoint] has run on
    the mapping before the attempt loop is left; in [loc.py] the same
    holds of every city.  When the checkpoint file can be opened for
    writing it then holds the dump of the mapping, the new result
    included, and at every later page load the file holds all that has
    been recorded.  When the file cannot be opened, the save is logged as
    failed and the files stay as they were. *)
Theorem write_through :
  (forall (w : World) (e1 e2 location url : string) (attempt left : nat)
          (s : state) (first : string) (heights : list nat)
          (page_html : string),
      load w (loads s) url = Loaded first heights page_html ->
      exists (t : list (event * state)) (s' : state) (before : list event),
        Aslocation.attempts w e1 e2 location url attempt (S left) s
        = (Val Next, s', t)
        /\ fetches t = [Get location url]
        /\ email_results s'
           = Dict.set location
               (Py.sorted (Aslocation.page_emails page_html))
               (email_results s)
        /\ files s'
           = saved Aslocation.CHECKPOINT_FILE (email_results s') (files s)
        /\ reflected Aslocation.CHECKPOINT_FILE (files s) s'
        /\ map fst t
           = (before
                ++ save_and_export_events (email_results s') (files s))%list)
  /\ (forall (w : World) (e1 e2 location url : string) (s : state),
        load w (loads s) url = Fails TimeoutException ->
        exists (t : list (event * state)) (s' : state)
               (before : list event),
          Aslocation.attempts w e1 e2 location url
            (Aslocation.MAX_RETRIES - 1) 1 s
          = (Val Next, s', t)
          /\ fetches t = [Get location url]
          /\ email_results s' = Dict.set location [] (email_results s)
          /\ files s'
             = saved Aslocation.CHECKPOINT_FILE (email_results s') (files s)
          /\ reflected Aslocation.CHECKPOINT_FILE (files s) s'
          /\ map fst t
             = (before
                  ++ save_and_export_events (email_results s') (files s)
                  ++ [Sleep 5 10])%list)
  /\ (forall (json_loads : string -> option Dict.dict) (w : World)
             (e1 e2 : string) (locations : list string) (f : Fs.fs)
             (d0 : Dict.dict) (item url : string) (s : state),
        value (Aslocation.load_checkpoint json_loads
                 Aslocation.CHECKPOINT_FILE (boot f)) = Val d0 ->
        In (Get item url, s)
           (trace (Aslocation.scrape_google_emails json_loads w e1 e2
                     locations (boot f))) ->
        kept_through Aslocation.CHECKPOINT_FILE f d0 s)
  /\ (forall (get_text : string -> string)
             (str_key : string -> string -> string) (w : World)
             (paths : list string) (keyword city : string)
             (rest : list string) (s : state),
        Dict.has (str_key keyword city) (email_results s) = false ->
        exists (t : list (event * state)) (s' : state)
               (before after : list event),
          Loc.visit_cities get_text str_key w paths keyword (city :: rest) s
          = prepend t
              (Loc.visit_cities get_text str_key w paths keyword rest s')
          /\ email_results s'
             = Dict.set (str_key keyword city) [] (email_results s)
          /\ files s' = saved Loc.CHECKPOINT_FILE (email_results s') (files s)
          /\ reflected Loc.CHECKPOINT_FILE (files s) s'
          /\ map fst t
             = (before
                  ++ save_events Loc.CHECKPOINT_FILE (email_results s')
                       (files s)
                  ++ after)%list
          /\ Forall (fun e => is_get e = false) after)
  /\ (forall (json_loads : string -> option Dict.dict)
             (get_text : string -> string)
             (str_key : string -> string -> string) (w : World)
             (all_cities keywords : list string) (f : Fs.fs)
             (d0 : Dict.dict) (item url : string) (s : state),
        value (Loc.load_checkpoint json_loads Loc.CHECKPOINT_FILE (boot f))
        = Val d0 ->
        In (Get item url, s)
           (trace (Loc.campaign json_loads get_text str_key w all_cities
                     keywords (boot f))) ->
        kept_through Loc.CHECKPOINT_FILE f d0 s).
Proof.
  split; [|split; [|split; [|split]]].
  - intros. eapply aslocation_loaded_saved; eassumption.
  - intros. now apply aslocation_timeout_saved.
  - intros. eapply aslocation_kept_through; eassumption.
  - intros. now apply loc_city_saved.
  - intros. eapply loc_kept_through; eassumption.
Qed.

Lemma write_through_witness :
  (exists (t : list (event * state)) (s' : state) (before : list event),
      Aslocation.attempts (always (Loaded "" [] "<html>")) "a.crx" "b.crx"
        "Austin" (Aslocation.url_of "Austin") 0 3 started
      = (Val Next, s', t)
      /\ fetches t = [Get "Austin" (Aslocation.url_of "Austin")]
      /\ email_results s'
         = Dict.set "Austin" (Py.sorted (Aslocation.page_emails "<html>")) []
      /\ files s'
         = saved Aslocation.CHECKPOINT_FILE (email_results s') two_extensions
      /\ reflected Aslocation.CHECKPOINT_FILE two_extensions s'
      /\ map fst t
         = (before
              ++ save_and_export_events (email_results s')
                   two_extensions)%list)
  /\ (exists (t : list (event * state)) (s' : state) (before : list event),
        Aslocation.attempts (always (Fails TimeoutException)) "a.crx" "b.crx"
          "Austin" (Aslocation.url_of "Austin")
          (Aslocation.MAX_RETRIES - 1) 1 started
        = (Val Next, s', t)
        /\ fetches t = [Get "Austin" (Aslocation.url_of "Austin")]
        /\ email_results s' = [("Austin", [])]
        /\ files s'
           = saved Aslocation.CHECKPOINT_FILE (email_results s')
               two_extensions
        /\ reflected Aslocation.CHECKPOINT_FILE two_extensions s'
        /\ map fst t
           = (before
                ++ save_and_export_events (email_results s') two_extensions
                ++ [Sleep 5 10])%list)
  /\ Forall (fun es =>
               is_get (fst es) = true ->
               kept_through Aslocation.CHECKPOINT_FILE two_extensions []
                 (snd es))
            (trace (Aslocation.scrape_google_emails (fun _ => None)
                      (always (Fails TimeoutException)) "a.crx" "b.crx"
                      ["Austin"; "Denver"] (boot two_extensions)))
  /\ (exists (t : list (event * state)) (s' : state)
             (before after : list event),
        Loc.visit_cities (fun page => page) plain_key
          (always (Loaded "" [] "")) Loc.extension_paths "plumber"
          ["Austin"; "Denver"] fresh_session
        = prepend t
            (Loc.visit_cities (fun page => page) plain_key
               (always (Loaded "" [] "")) Loc.extension_paths "plumber"
               ["Denver"] s')
        /\ email_results s' = [(plain_key "plumber" "Austin", [])]
        /\ files s' = saved Loc.CHECKPOINT_FILE (email_results s') []
        /\ reflected Loc.CHECKPOINT_FILE [] s'
        /\ map fst t
           = (before
                ++ save_events Loc.CHECKPOINT_FILE (email_results s') []
                ++ after)%list
        /\ Forall (fun e => is_get e = false) after)
  /\ Forall (fun es =>
               is_get (fst es) = true ->
               kept_through Loc.CHECKPOINT_FILE loc_files [] (snd es))
            (trace (Loc.campaign (fun _ => None) (fun page => page) plain_key
                      (always (Fails TimeoutException)) ["Austin"; "Denver"]
                      ["plumber"] (boot loc_files))).
Proof.
  split; [|split; [|split; [|split]]].
  - apply (proj1 write_through (always (Loaded "" [] "<html>")) "a.crx"
             "b.crx" "Austin" (Aslocation.url_of "Austin") 0 2 started
             "" [] "<html>").
    reflexivity.
  - apply (proj1 (proj2 write_through) (always (Fails TimeoutException))
             "a.crx" "b.crx" "Austin" (Aslocation.url_of "Austin") started).
    reflexivity.
  - apply Forall_forall. intros [e s] G H. destruct e; try discriminate H.
    apply (proj1 (proj2 (proj2 write_through)) (fun _ => None)
             (always (Fails TimeoutException)) "a.crx" "b.crx"
             ["Austin"; "Denver"] two_extensions [] item url s);
      [reflexivity | exact G].
  - apply (proj1 (proj2 (proj2 (proj2 write_through))) (fun page => page)
             plain_key (always (Loaded "" [] "")) Loc.extension_paths
             "plumber" "Austin" ["Denver"] fresh_session).
    reflexivity.
  - apply Forall_forall. intros [e s] G H. destruct e; try discriminate H.
    apply (proj2 (proj2 (proj2 (proj2 write_through))) (fun _ => None)
             (fun page => page) plain_key (always (Fails TimeoutException))
             ["Austin"; "Denver"] ["plumber"] loc_files [] item url s);
      [reflexivity | exact G].
Defined.
